(** * RK_tools: the bounded index looper and the deduplicating prompt generator

    A shallow embedding of the stateful parts of the repository:
    - [RK_CSV.py] ([RK_Excel_File_State_Looper]): range normalisation, the
      three loop modes, the persisted position file, the in-memory file cache;
    - [RK_Read_Excel_Row.py] and [rk_seed.py]: the error boundary of the
      row reader and of the seed looper;
    - [prompt_gen_v03.py]: [parse_ollama_output] (three regular expressions)
      and the retry loop of [generate_prompts_for_model] with its memory.

    Python values are modelled as follows.  An [int] is a [Z].  A [str] is the
    list of its code points ([list N]); the two smart quotes of the source are
    the code points 8220 and 8221.  A [float] is a binary64 primitive float.
    A raised exception is a value of [exn]; a computation that may raise
    returns a [result].  Files are a finite map from path to text.  The
    table of decimal digits that [int] consults belongs to the interpreter
    and is a parameter ([Py.Interpreter]). *)

From Stdlib Require Import ZArith NArith List String Ascii Bool Lia Floats.
From Stdlib Require Import DecimalPos.
From stdpp Require Import gmap list.

Local Open Scope Z_scope.

(* ===================================================================== *)
(** * Part I: definitions                                                   *)
(* ===================================================================== *)

Module Py.

(** ** Exceptions and results *)

Inductive exn : Set :=
| FileNotFoundError
| ValueError
| IndexError
| TypeError
| ZeroDivisionError
| OverflowError.

Inductive result (A : Type) : Type :=
| Ok (a : A)
| Raise (e : exn).

Arguments Ok {A} a.
Arguments Raise {A} e.

Definition bind {A B} (m : result A) (k : A -> result B) : result B :=
  match m with
  | Ok a => k a
  | Raise e => Raise e
  end.

Notation "'do' x <- m ; k" := (bind m (fun x => k))
  (at level 10, x name, m at level 100, k at level 200).

(** ** Strings as sequences of code points *)

Abbreviation pystr := (list N).

(** An ASCII literal as a Python string. *)
Definition py (s : string) : pystr :=
  List.map N_of_ascii (list_ascii_of_string s).

Definition NL : N := 10%N.        (* line feed *)
Definition QUOTE : N := 34%N.     (* ASCII double quote *)
Definition LDQUO : N := 8220%N.   (* left smart quote, U+201C *)
Definition RDQUO : N := 8221%N.   (* right smart quote, U+201D *)

Definition str_eqb (a b : pystr) : bool := bool_decide (a = b).

(** [str.isspace] on one code point: the code points CPython's
    [_PyUnicode_IsWhitespace] accepts.  The same set is what a bare
    [str.strip()] removes and what [\s] matches in a [str] pattern. *)
Definition is_space (c : N) : bool :=
  ((9 <=? c) && (c <=? 13) || (28 <=? c) && (c <=? 32)
   || (c =? 133) || (c =? 160) || (c =? 5760)
   || (8192 <=? c) && (c <=? 8202)
   || (c =? 8232) || (c =? 8233) || (c =? 8239) || (c =? 8287)
   || (c =? 12288))%N.

Fixpoint lstrip (p : N -> bool) (s : pystr) : pystr :=
  match s with
  | c :: s' => if p c then lstrip p s' else s
  | [] => []
  end.

Definition rstrip (p : N -> bool) (s : pystr) : pystr :=
  rev (lstrip p (rev s)).

(** [s.strip(chars)] removes, at both ends, code points of the given set. *)
Definition strip_with (p : N -> bool) (s : pystr) : pystr :=
  rstrip p (lstrip p s).

Definition mem_char (chars : pystr) (c : N) : bool :=
  existsb (N.eqb c) chars.

(** [s.strip()] *)
Definition strip (s : pystr) : pystr := strip_with is_space s.

(** [s.strip(chars)] *)
Definition strip_chars (chars s : pystr) : pystr :=
  strip_with (mem_char chars) s.

(** [sep.join(parts)] *)
Fixpoint join (sep : pystr) (parts : list pystr) : pystr :=
  match parts with
  | [] => []
  | [x] => x
  | x :: rest => x ++ sep ++ join sep rest
  end.

(** [s.lower()] on the ASCII letters.  The source lowers a file extension and
    compares it with [".csv"]; no code point outside ASCII lowers to one of
    the characters of that literal, so the comparison is not affected by
    leaving other code points unchanged. *)
Definition lower_char (c : N) : N :=
  if ((65 <=? c) && (c <=? 90))%N then (c + 32)%N else c.

Definition lower (s : pystr) : pystr := List.map lower_char s.

(** ** [str(n)] and [int(s)] for integers *)

Fixpoint chars_of_uint (d : Decimal.uint) : pystr :=
  match d with
  | Decimal.Nil => []
  | Decimal.D0 d => 48%N :: chars_of_uint d
  | Decimal.D1 d => 49%N :: chars_of_uint d
  | Decimal.D2 d => 50%N :: chars_of_uint d
  | Decimal.D3 d => 51%N :: chars_of_uint d
  | Decimal.D4 d => 52%N :: chars_of_uint d
  | Decimal.D5 d => 53%N :: chars_of_uint d
  | Decimal.D6 d => 54%N :: chars_of_uint d
  | Decimal.D7 d => 55%N :: chars_of_uint d
  | Decimal.D8 d => 56%N :: chars_of_uint d
  | Decimal.D9 d => 57%N :: chars_of_uint d
  end.

(** The number a digit sequence denotes, most significant digit first,
    continuing from [acc]. *)
Fixpoint uint_value (acc : Z) (d : Decimal.uint) : Z :=
  match d with
  | Decimal.Nil => acc
  | Decimal.D0 d => uint_value (10 * acc) d
  | Decimal.D1 d => uint_value (10 * acc + 1) d
  | Decimal.D2 d => uint_value (10 * acc + 2) d
  | Decimal.D3 d => uint_value (10 * acc + 3) d
  | Decimal.D4 d => uint_value (10 * acc + 4) d
  | Decimal.D5 d => uint_value (10 * acc + 5) d
  | Decimal.D6 d => uint_value (10 * acc + 6) d
  | Decimal.D7 d => uint_value (10 * acc + 7) d
  | Decimal.D8 d => uint_value (10 * acc + 8) d
  | Decimal.D9 d => uint_value (10 * acc + 9) d
  end.

(** [str(z)]: decimal digits, most significant first, [-] for negatives. *)
Definition py_str (z : Z) : pystr :=
  match z with
  | Z0 => [48%N]
  | Zpos p => chars_of_uint (Pos.to_uint p)
  | Zneg p => 45%N :: chars_of_uint (Pos.to_uint p)
  end.

Definition is_digit (c : N) : bool := ((48 <=? c) && (c <=? 57))%N.

(** The digits of an integer literal: at least one digit, single underscores
    allowed between digits.  [seen] tells whether the previous character was a
    digit. *)
Fixpoint digits_acc (acc : Z) (seen : bool) (s : pystr) : option Z :=
  match s with
  | [] => if seen then Some acc else None
  | c :: s' =>
      if is_digit c then digits_acc (10 * acc + (Z.of_N c - 48)) true s'
      else if (c =? 95)%N && seen then digits_acc acc false s'
      else None
  end.

(** What the interpreter brings along: [Py_UNICODE_TODECIMAL], the value
    of a code point that is a decimal digit of some script, as the Unicode
    tables of the interpreter have it. *)
Class Interpreter : Type := {
  unicode_decimal : N -> option N
}.

(** The white space that the parser of integer literals skips
    ([Py_ISSPACE]): tab, line feed, vertical tab, form feed, carriage
    return and space. *)
Definition is_c_space (c : N) : bool :=
  ((9 <=? c) && (c <=? 13) || (c =? 32))%N.

Section WithInterpreter.

Context `{interp : Interpreter}.

(** What [int] makes of a string before it parses
    ([_PyUnicode_TransformDecimalAndSpaceToASCII]): code points below 127
    stay, other white space becomes a space, the decimal digits of other
    scripts become ASCII digits, and at the first code point that is none
    of these the text ends with a question mark. *)
Fixpoint to_ascii (s : pystr) : pystr :=
  match s with
  | [] => []
  | c :: s' =>
      if (c <? 127)%N then c :: to_ascii s'
      else if is_space c then 32%N :: to_ascii s'
      else match unicode_decimal c with
           | Some d => (48 + d)%N :: to_ascii s'
           | None => [63%N]
           end
  end.

(** [int(s)] for a string: white space around is ignored, then an optional
    sign, then the digits, with single underscores allowed between them.
    The limit of newer interpreters on the number of digits of a numeral is
    not part of this definition: [int_of_str] adds it. *)
Definition py_int (s : pystr) : result Z :=
  let parsed :=
    match strip_with is_c_space (to_ascii s) with
    | 43%N :: ds => digits_acc 0 false ds
    | 45%N :: ds => option_map Z.opp (digits_acc 0 false ds)
    | ds => digits_acc 0 false ds
    end in
  match parsed with
  | Some z => Ok z
  | None => Raise ValueError
  end.

End WithInterpreter.

(** [s.split(c)] for a separator of one character. *)
Fixpoint split_on (c : N) (s : pystr) : list pystr :=
  match s with
  | [] => [[]]
  | x :: s' =>
      if (x =? c)%N then [] :: split_on c s'
      else match split_on c s' with
           | h :: t => (x :: h) :: t
           | [] => [[x]]
           end
  end.

(** ** Sequences *)

(** [len(l)] *)
Definition len {A} (l : list A) : Z := Z.of_nat (length l).

(** [l[i]]: a negative index counts from the end; out of range raises. *)
Definition getitem {A} (l : list A) (i : Z) : result A :=
  let j := if i <? 0 then i + len l else i in
  if (j <? 0) || (len l <=? j) then Raise IndexError
  else match nth_error l (Z.to_nat j) with
       | Some x => Ok x
       | None => Raise IndexError
       end.

(** ** The limit on the length of numerals *)

(** The default of [sys.get_int_max_str_digits()]: an interpreter that has
    the limit (3.11 and later, and the maintenance releases of the versions
    before) refuses to convert a numeral of more digits. *)
Definition INT_MAX_STR_DIGITS : Z := 4300.

(** The number of digits of a text that has been through [to_ascii].  In a
    text that [int] can parse every digit belongs to the numeral; the sign,
    the white space and the underscores do not count. *)
Definition count_digits (s : pystr) : Z := len (List.filter is_digit s).

Section WithInterpreter.

Context `{interp : Interpreter}.

(** [int(s)] for a string as such an interpreter does it: [py_int], and a
    [ValueError] as well for a numeral of more than 4300 digits. *)
Definition int_of_str (s : pystr) : result Z :=
  if INT_MAX_STR_DIGITS <? count_digits (to_ascii s) then Raise ValueError
  else py_int s.

End WithInterpreter.

End Py.

(* --------------------------------------------------------------------- *)
(** ** [RK_CSV.py]: [RK_Excel_File_State_Looper]

    The Excel variant of the node (same class name, [pandas] loader) has the
    same normalisation, mode selection, join and strip lines; it differs in
    the loader and in returning the chosen index as a second output. *)
(* --------------------------------------------------------------------- *)

Module Looper.
Import Py.

(** The state a call can see and change: the regular files (path to text, as
    [open(..., encoding="utf-8").read()] returns it) and the two class
    variables of the cache.  A path that is absent from [files] is one for
    which [os.path.isfile] is false.  Files that cannot be opened or decoded
    are not represented, and writing the position file is taken to
    succeed. *)
Record world : Type := World {
  files : gmap pystr pystr;
  file_path_cache : option pystr;
  file_data_cache : option (list (list pystr))
}.

(** [s.rfind(c)] for a single character: the last index, or -1. *)
Fixpoint rfind_from (c : N) (s : pystr) (i last : Z) : Z :=
  match s with
  | [] => last
  | x :: s' => rfind_from c s' (i + 1) (if (x =? c)%N then i else last)
  end.

Definition rfind (c : N) (s : pystr) : Z := rfind_from c s 0 (-1).

(** [s[i:j]] for [0 <= i]. *)
Definition slice (s : pystr) (i j : Z) : pystr :=
  firstn (Z.to_nat (j - i)) (skipn (Z.to_nat i) s).

(** [os.path.splitext] ([posixpath]: separator [/], extension separator [.]):
    the extension starts at the last dot of the last component, unless that
    component has only leading dots before it. *)
Definition splitext (p : pystr) : pystr * pystr :=
  let sepIndex := rfind 47 p in
  let dotIndex := rfind 46 p in
  if (sepIndex <? dotIndex)
     && existsb (fun c => negb (c =? 46)%N) (slice p (sepIndex + 1) dotIndex)
  then (firstn (Z.to_nat dotIndex) p, skipn (Z.to_nat dotIndex) p)
  else (p, []).

(** [random.randint(a, b)]: [rnd] is the generator's draw for this call; an
    empty range raises. *)
Definition randint (a b rnd : Z) : result Z :=
  if b <? a then Raise ValueError else Ok (a + rnd mod (b - a + 1)).

(** Lines 102-108 of [read_row]: "Adjust indices if out of range". *)
Definition normalize_range (total_rows start_index end_index : Z) : Z * Z :=
  let start_index := if start_index <? 0 then 0 else start_index in
  let end_index :=
    if total_rows <=? end_index then total_rows - 1 else end_index in
  if end_index <? start_index then (end_index, start_index)
  else (start_index, end_index).

Definition get_state_file_path
    (file_path : pystr) (start_index end_index step_size : Z)
    (loop_mode : pystr) : pystr :=
  let base := fst (splitext file_path) in
  base ++ py "_state_" ++ loop_mode ++ py "_" ++ py_str start_index
       ++ py "_" ++ py_str end_index ++ py "_" ++ py_str step_size
       ++ py ".txt".

Section WithInterpreter.

Context `{interp : Interpreter}.

(** The bare [except] makes every failure of the read fall through to
    [start_index].  The limit of newer interpreters on the length of
    numerals ([int_of_str]) is left out of the read: the positions the
    looper writes are far below it, and for a file written by somebody
    else such an interpreter falls back to [start_index] where this
    function returns the integer. *)
Definition read_current_index
    (state_file : pystr) (start_index : Z) (w : world) : Z :=
  match files w !! state_file with
  | Some text =>
      match py_int (strip text) with
      | Ok val => val
      | Raise _ => start_index
      end
  | None => start_index
  end.

Definition write_current_index
    (state_file : pystr) (index : Z) (w : world) : world :=
  {| files := <[state_file := py_str index]> (files w);
     file_path_cache := file_path_cache w;
     file_data_cache := file_data_cache w |}.

(** Lines 113-128 of [read_row]: the index for this call and the world after
    the position file has been rewritten (increment mode only). *)
Definition choose_index
    (rnd : Z) (loop_mode state_file : pystr)
    (start_index end_index step_size : Z) (w : world) : result Z * world :=
  if str_eqb loop_mode (py "disabled") then (Ok start_index, w)
  else if str_eqb loop_mode (py "random") then
    (randint start_index end_index rnd, w)
  else if str_eqb loop_mode (py "increment") then
    let current_index := read_current_index state_file start_index w in
    let chosen_index := current_index in
    let new_index := chosen_index + step_size in
    let new_index := if end_index <? new_index then start_index else new_index in
    (Ok chosen_index, write_current_index state_file new_index w)
  else (Ok start_index, w).

(** The characters of the literal given to [strip] at line 135: a space, the
    ASCII double quote and the two smart quotes. *)
Definition STRIP_CHARS : pystr := [32%N; QUOTE; LDQUO; RDQUO].

Definition get_row_count (data : option (list (list pystr))) : result Z :=
  match data with
  | Some rows => Ok (len rows)
  | None => Raise TypeError
  end.

(** The text [read_row] returns for the row at index [i]. *)
Definition row_text (delimiter : pystr) (data : list (list pystr)) (i : Z)
  : pystr :=
  strip_chars STRIP_CHARS (join delimiter (nth (Z.to_nat i) data [])).

(** The cycle as the specification words it: with range [[a, b]] and step
    [s] the period is [(b - a) / s + 1], and call number [k] (from 0) visits
    [a + (k mod period) * s]. *)
Definition period (a b s : Z) : Z := (b - a) / s + 1.

Definition visit (a b s : Z) (k : nat) : Z :=
  a + (Z.of_nat k mod period a b s) * s.

(** The position file is absent, unreadable as an integer, or holds an
    integer of the range. *)
Definition state_file_ok
    (state_file : pystr) (start_index end_index : Z) (w : world) : Prop :=
  match files w !! state_file with
  | None => True
  | Some text =>
      match py_int (strip text) with
      | Raise _ => True
      | Ok val => start_index <= val <= end_index
      end
  end.

Section WithReader.

(** [csv.reader(f, delimiter=delimiter)] read to the end: the rows of the
    text, or the exception the [csv] module raises (a delimiter that is not
    one character is a [TypeError]). *)
Variable csv_reader : pystr -> pystr -> result (list (list pystr)).

Definition load_file (file_path delimiter : pystr) (w : world)
  : result (option (list (list pystr))) * world :=
  if negb (bool_decide (file_path_cache w = Some file_path)) then
    match files w !! file_path with
    | None => (Raise FileNotFoundError, w)
    | Some text =>
        let ext := lower (snd (splitext file_path)) in
        if negb (str_eqb ext (py ".csv")) then (Raise ValueError, w)
        else
          match csv_reader delimiter text with
          | Raise e => (Raise e, w)
          | Ok data =>
              let w' := {| files := files w;
                           file_path_cache := Some file_path;
                           file_data_cache := Some data |} in
              (Ok (file_data_cache w'), w')
          end
    end
  else (Ok (file_data_cache w), w).

(** The body of the [try] in [read_row] (lines 98-141).  Besides the row text
    it returns the chosen index, which the source prints and the Excel
    variant returns as its second output. *)
Definition read_row_try
    (rnd : Z) (file_path loop_mode : pystr)
    (start_index end_index step_size : Z) (delimiter : pystr) (w : world)
  : result (Z * pystr) * world :=
  match load_file file_path delimiter w with
  | (Raise e, w1) => (Raise e, w1)
  | (Ok data, w1) =>
      match get_row_count data with
      | Raise e => (Raise e, w1)
      | Ok total_rows =>
          let '(start_index, end_index) :=
            normalize_range total_rows start_index end_index in
          let state_file :=
            get_state_file_path file_path start_index end_index step_size
                                loop_mode in
          match choose_index rnd loop_mode state_file
                             start_index end_index step_size w1 with
          | (Raise e, w2) => (Raise e, w2)
          | (Ok chosen_index, w2) =>
              match getitem (default [] data) chosen_index with
              | Raise e => (Raise e, w2)
              | Ok row_data =>
                  let row_text := join delimiter row_data in
                  let row_text := strip_chars STRIP_CHARS row_text in
                  (Ok (chosen_index, row_text), w2)
              end
          end
      end
  end.

(** [read_row]: the [except Exception] clause turns every failure into the
    empty string. *)
Definition read_row
    (rnd : Z) (file_path loop_mode : pystr)
    (start_index end_index step_size : Z) (delimiter : pystr) (w : world)
  : pystr * world :=
  match read_row_try rnd file_path loop_mode start_index end_index
                     step_size delimiter w with
  | (Ok (_, row_text), w') => (row_text, w')
  | (Raise _, w') => ([], w')
  end.

(** [n] successive increment-mode calls with the same arguments: the chosen
    index of each call (or the exception of its body), and the final world. *)
Fixpoint read_rows
    (n : nat) (file_path : pystr) (start_index end_index step_size : Z)
    (delimiter : pystr) (w : world)
  : list (result (Z * pystr)) * world :=
  match n with
  | O => ([], w)
  | S n' =>
      let '(r, w1) :=
        read_row_try 0 file_path (py "increment") start_index end_index
                     step_size delimiter w in
      let '(rs, w2) :=
        read_rows n' file_path start_index end_index step_size delimiter w1 in
      (r :: rs, w2)
  end.

End WithReader.

End WithInterpreter.

(** The strip as the specification words it: the three quote characters
    and nothing else.  To be compared with [strip_chars STRIP_CHARS], which
    is what the source does. *)
Definition spec_strip_quotes (s : pystr) : pystr :=
  strip_chars [QUOTE; LDQUO; RDQUO] s.

(** A stand-in for [csv.reader] used to run concrete examples: one row per
    line, fields split at the delimiter, an empty line giving an empty row.
    It agrees with the [csv] module on text without quotes and carriage
    returns. *)
Definition file_lines (text : pystr) : list pystr :=
  let parts := split_on NL text in
  match List.last parts [] with
  | [] => removelast parts
  | _ => parts
  end.

Definition plain_csv_reader (delimiter text : pystr)
  : result (list (list pystr)) :=
  match delimiter with
  | [d] =>
      Ok (List.map (fun l => match l with [] => [] | _ => split_on d l end)
                   (file_lines text))
  | _ => Raise TypeError
  end.

End Looper.

(* --------------------------------------------------------------------- *)
(** ** [RK_Read_Excel_Row.py]: [RK_Read_Excel_Row] *)
(* --------------------------------------------------------------------- *)

Module ReadExcelRow.
Import Py.

Section WithPandas.

(** A cell of the data frame and [str] on it. *)
Variable cell : Type.
Variable str_of_cell : cell -> pystr.

(** [pd.read_excel(file_path, header=None)] on the content of the file: the
    rows of the sheet, or the exception [pandas] raises. *)
Variable read_excel : pystr -> result (list (list cell)).

(** The body of the [try] (lines 35-51). *)
Definition read_excel_row_try
    (files : gmap pystr pystr) (file_path : pystr) (row_index : Z)
    (delimiter : pystr) : result pystr :=
  match files !! file_path with
  | None => Raise FileNotFoundError
  | Some content =>
      do df <- read_excel content;
      if (row_index <? 0) || (len df <=? row_index) then Raise IndexError
      else
        do row_data <- getitem df row_index;
        let row_text := join delimiter (List.map str_of_cell row_data) in
        Ok row_text
  end.

Definition read_excel_row
    (files : gmap pystr pystr) (file_path : pystr) (row_index : Z)
    (delimiter : pystr) : pystr :=
  match read_excel_row_try files file_path row_index delimiter with
  | Ok row_text => row_text
  | Raise _ => []
  end.

End WithPandas.

End ReadExcelRow.

(* --------------------------------------------------------------------- *)
(** ** [rk_seed.py]: [RK_seed] *)
(* --------------------------------------------------------------------- *)

Module Seed.
Import Py.

(** The attributes of the node instance. *)
Record seed_self : Type := SeedSelf {
  current_index : Z;
  current_value : float;
  values_list : list float
}.

(** The tuple [process_seed] returns; [seed_dict] holds [int(seed)]. *)
Record seed_out : Type := SeedOut {
  out_seed : Z;
  out_number : float;
  out_float : float;
  out_int : Z;
  out_string : pystr;
  out_loop_value : float;
  out_loop_index : Z;
  out_loop_value_string : pystr
}.

(** [float(n)] for an integer: the nearest binary64 value, ties to even; an
    integer beyond the range raises. *)
Definition float_of_int (n : Z) : result float :=
  match SpecFloat.binary_normalize prec emax n 0 false with
  | S754_infinity _ => Raise OverflowError
  | sf => Ok (SF2Prim sf)
  end.

(** [x / y] on floats. *)
Definition truediv (x y : float) : result float :=
  if PrimFloat.is_zero y then Raise ZeroDivisionError
  else Ok (PrimFloat.div x y).

(** [m / 2^k] rounded to the nearest integer, ties to even. *)
Definition round_half_even_shift (m k : Z) : Z :=
  let q := m / 2 ^ k in
  let r := m mod 2 ^ k in
  match (2 * r ?= 2 ^ k) with
  | Lt => q
  | Gt => q + 1
  | Eq => if Z.even q then q else q + 1
  end.

(** [int(round(x))]: [round] without digits rounds half to even and raises
    on a NaN or an infinity. *)
Definition round_int (x : float) : result Z :=
  match Prim2SF x with
  | S754_nan => Raise ValueError
  | S754_infinity _ => Raise OverflowError
  | S754_zero _ => Ok 0
  | S754_finite s m e =>
      let mag :=
        if 0 <=? e then Z.pos m * 2 ^ e
        else round_half_even_shift (Z.pos m) (- e) in
      Ok (if s then - mag else mag)
  end.

(** [a % b] on integers. *)
Definition py_mod (a b : Z) : result Z :=
  if b =? 0 then Raise ZeroDivisionError else Ok (a mod b).

Fixpoint mapM {A B} (f : A -> result B) (l : list A) : result (list B) :=
  match l with
  | [] => Ok []
  | x :: l' => do y <- f x; do ys <- mapM f l'; Ok (y :: ys)
  end.

Section WithFormatting.

(** [format(value, ".<d>f")] and [float(s)] of the runtime. *)
Variable format_fixed : float -> Z -> result pystr.
Variable float_of_str : pystr -> result float.

Definition format_float (value : float) (decimal_places : Z) : result float :=
  do s <- format_fixed value decimal_places;
  float_of_str s.

(** The [fixed] branch (lines 88-96): its own [try] falls back to
    [start_value] on any failure. *)
Definition fixed_branch
    (custom_values : pystr) (start_value : float) (decimal_places : Z)
    (self : seed_self) : float * seed_self :=
  match mapM (fun x => do v <- float_of_str (strip x);
                       format_float v decimal_places)
             (split_on 44 custom_values) with
  | Raise _ => (start_value, self)
  | Ok values =>
      let self := {| current_index := current_index self;
                     current_value := current_value self;
                     values_list := values |} in
      match (do i <- py_mod (current_index self) (len (values_list self));
             getitem (values_list self) i) with
      | Ok v => (v, self)
      | Raise _ => (start_value, self)
      end
  end.

(** The [increment] / [decrement] branch (lines 102-121). *)
Definition step_branch
    (increment : bool) (start_value end_value step_size : float)
    (decimal_places : Z) (self : seed_self) : result float * seed_self :=
  let total_range := PrimFloat.sub end_value start_value in
  match (do q <- truediv total_range step_size;
         do n <- round_int q;
         let n_steps := n + 1 in
         do adjusted_index <- py_mod (current_index self) n_steps;
         do k <- float_of_int adjusted_index;
         if increment
         then format_float (PrimFloat.add start_value (PrimFloat.mul k step_size))
                           decimal_places
         else format_float (PrimFloat.sub end_value (PrimFloat.mul k step_size))
                           decimal_places) with
  | Raise e => (Raise e, self)
  | Ok loop_value =>
      (Ok loop_value,
       {| current_index := current_index self + 1;
          current_value := current_value self;
          values_list := values_list self |})
  end.

(** The body of the [try] in [process_seed] (lines 76-146).  [u] is the draw
    of [random.random()] that [random.uniform] scales into the range. *)
Definition process_seed_try
    (u : float) (seed : Z) (loop_mode : pystr)
    (start_value end_value step_size : float)
    (loop_count decimal_places : Z) (custom_values : option pystr)
    (self : seed_self) : result seed_out * seed_self :=
  let '(start_value, end_value) :=
    if PrimFloat.ltb end_value start_value then (end_value, start_value)
    else (start_value, end_value) in
  let loop_value := start_value in
  let '(r, self) :=
    if negb (str_eqb loop_mode (py "disabled")) then
      let '(r, self) :=
        if str_eqb loop_mode (py "fixed")
           && match custom_values with Some (_ :: _) => true | _ => false end
        then
          let '(v, self) := fixed_branch (default [] custom_values)
                                         start_value decimal_places self in
          (Ok v, self)
        else if str_eqb loop_mode (py "random") then
          (format_float
             (PrimFloat.add start_value
                (PrimFloat.mul (PrimFloat.sub end_value start_value) u))
             decimal_places, self)
        else if str_eqb loop_mode (py "increment") then
          step_branch true start_value end_value step_size decimal_places self
        else if str_eqb loop_mode (py "decrement") then
          step_branch false start_value end_value step_size decimal_places self
        else (Ok loop_value, self) in
      match r with
      | Raise e => (Raise e, self)
      | Ok loop_value =>
          let loop_value :=
            if PrimFloat.ltb 100 loop_value then 100%float else loop_value in
          let self :=
            if loop_count <=? current_index self
            then {| current_index := 0;
                    current_value := current_value self;
                    values_list := values_list self |}
            else self in
          (Ok loop_value, self)
      end
    else (Ok loop_value, self) in
  match r with
  | Raise e => (Raise e, self)
  | Ok loop_value =>
      let self := {| current_index := current_index self;
                     current_value := loop_value;
                     values_list := values_list self |} in
      (do loop_value_string <- format_fixed loop_value decimal_places;
       do fseed <- float_of_int seed;
       Ok {| out_seed := seed;
             out_number := fseed;
             out_float := fseed;
             out_int := seed;
             out_string := py_str seed;
             out_loop_value := loop_value;
             out_loop_index := current_index self;
             out_loop_value_string := loop_value_string |},
       self)
  end.

(** [process_seed]: the [except] clause prints and raises the exception
    again. *)
Definition process_seed
    (u : float) (seed : Z) (loop_mode : pystr)
    (start_value end_value step_size : float)
    (loop_count decimal_places : Z) (custom_values : option pystr)
    (self : seed_self) : result seed_out * seed_self :=
  match process_seed_try u seed loop_mode start_value end_value step_size
                         loop_count decimal_places custom_values self with
  | (Ok out, self') => (Ok out, self')
  | (Raise e, self') => (Raise e, self')
  end.

End WithFormatting.

End Seed.

(* --------------------------------------------------------------------- *)
(** ** The regular expressions of [parse_ollama_output]

    A backtracking matcher for the fragment of [re] the three patterns use,
    under the flags [(?im)]: [^] and [$] match at line boundaries, [.] does
    not match a line feed, literals ignore case.  Alternatives are tried in
    the order [re] tries them: a greedy quantifier takes the longest run
    first, a lazy one the shortest, and [re.search] takes the first start
    position that matches. *)
(* --------------------------------------------------------------------- *)

Module Re.
Import Py.

Inductive atom : Type :=
| Any                  (* .   *)
| Space                (* \s  *)
| Lit (c : N)          (* a literal character *)
| OneOf (cs : pystr).  (* [...] *)

Inductive quant : Set := One | Opt | Star | Plus | PlusLazy.

Inductive node : Type :=
| Q (a : atom) (q : quant)
| Bol                  (* ^ *)
| Eol                  (* $ *)
| GroupOpen
| GroupClose.

(** The simple lower-case mapping [re] applies to the subject, on the code
    points that lower into ASCII: the capital letters, U+0130 and U+212A. *)
Definition sre_lower (c : N) : N :=
  if ((65 <=? c) && (c <=? 90))%N then (c + 32)%N
  else if (c =? 304)%N then 105%N
  else if (c =? 8490)%N then 107%N
  else c.

(** A literal under [(?i)]: equal after lowering, or one of the two extra
    equivalences of [re] that concern ASCII letters (i with dotless i, s with
    long s). *)
Definition lit_matches (c x : N) : bool :=
  let lo := sre_lower c in
  ((sre_lower x =? lo)
   || (lo =? 105) && (x =? 305)
   || (lo =? 115) && (x =? 383))%N.

Definition atom_matches (a : atom) (x : N) : bool :=
  match a with
  | Any => negb (x =? NL)%N
  | Space => is_space x
  | Lit c => lit_matches c x
  | OneOf cs => mem_char cs x
  end.

(** The text of group 1 is kept as the remaining subject at its two ends. *)
Definition caps : Type := pystr * pystr.

(** A continuation: the captures so far, the character before the cursor
    (if any) and the remaining subject. *)
Definition cont : Type := caps -> option N -> pystr -> option caps.

Definition one (p : N -> bool) (k : option N -> pystr -> option caps)
    (prev : option N) (s : pystr) : option caps :=
  match s with
  | c :: s' => if p c then k (Some c) s' else None
  | [] => None
  end.

Fixpoint star (p : N -> bool) (k : option N -> pystr -> option caps)
    (prev : option N) (s : pystr) : option caps :=
  match s with
  | c :: s' =>
      if p c then
        match star p k (Some c) s' with
        | Some r => Some r
        | None => k prev s
        end
      else k prev s
  | [] => k prev s
  end.

Fixpoint lazy_star (p : N -> bool) (k : option N -> pystr -> option caps)
    (prev : option N) (s : pystr) : option caps :=
  match k prev s with
  | Some r => Some r
  | None =>
      match s with
      | c :: s' => if p c then lazy_star p k (Some c) s' else None
      | [] => None
      end
  end.

Definition at_bol (prev : option N) : bool :=
  match prev with
  | None => true
  | Some c => (c =? NL)%N
  end.

Definition at_eol (s : pystr) : bool :=
  match s with
  | [] => true
  | c :: _ => (c =? NL)%N
  end.

Fixpoint run (re : list node) (k : cont) : cont :=
  match re with
  | [] => k
  | Q a q :: re' =>
      fun g prev s =>
        let p := atom_matches a in
        let k' := run re' k g in
        match q with
        | One => one p k' prev s
        | Opt =>
            match one p k' prev s with
            | Some r => Some r
            | None => k' prev s
            end
        | Star => star p k' prev s
        | Plus => one p (star p k') prev s
        | PlusLazy => one p (lazy_star p k') prev s
        end
  | Bol :: re' => fun g prev s => if at_bol prev then run re' k g prev s else None
  | Eol :: re' => fun g prev s => if at_eol s then run re' k g prev s else None
  | GroupOpen :: re' => fun g prev s => run re' k (s, snd g) prev s
  | GroupClose :: re' => fun g prev s => run re' k (fst g, s) prev s
  end.

Definition accept : cont := fun g _ _ => Some g.

(** [re.search]: the first start position, left to right, with a match. *)
Fixpoint search_from (re : list node) (prev : option N) (s : pystr)
  : option caps :=
  match run re accept ([], []) prev s with
  | Some g => Some g
  | None =>
      match s with
      | c :: s' => search_from re (Some c) s'
      | [] => None
      end
  end.

Definition group1 (g : caps) : pystr :=
  firstn (length (fst g) - length (snd g)) (fst g).

(** [m = re.search(pattern, subject)] followed by [m.group(1)]. *)
Definition search (re : list node) (subject : pystr) : option pystr :=
  option_map group1 (search_from re None subject).

Definition lits (s : string) : list node :=
  List.map (fun c => Q (Lit c) One) (py s).

(** [(?im)^\s*Title:\s*[Q L]?(.+?)[Q R]?\s*$] where Q, L and R are the ASCII
    quote and the left and right smart quotes. *)
Definition title_re : list node :=
  [Bol; Q Space Star] ++ lits "Title:"
  ++ [Q Space Star; Q (OneOf [QUOTE; LDQUO]) Opt;
      GroupOpen; Q Any PlusLazy; GroupClose;
      Q (OneOf [QUOTE; RDQUO]) Opt; Q Space Star; Eol].

(** [(?im)^\s*Description:\s*(.+)$] *)
Definition desc_re : list node :=
  [Bol; Q Space Star] ++ lits "Description:"
  ++ [Q Space Star; GroupOpen; Q Any Plus; GroupClose; Eol].

(** [(?im)^\s*Style:\s*(.+)$] *)
Definition style_re : list node :=
  [Bol; Q Space Star] ++ lits "Style:"
  ++ [Q Space Star; GroupOpen; Q Any Plus; GroupClose; Eol].

(** The subject holds, somewhere, a run of characters that matches the
    label letter by letter under [(?i)]. *)
Definition has_label (label subject : pystr) : Prop :=
  exists pre mid post,
    subject = pre ++ mid ++ post
    /\ Forall2 (fun c x => lit_matches c x = true) label mid.

(** *** Notions used to state what the patterns extract *)

(** A label as [(?i)] lets it be written: letter by letter. *)
Definition written_as (label written : pystr) : Prop :=
  Forall2 (fun c x => lit_matches c x = true) label written.

(** White space within a line. *)
Definition blanks (b : pystr) : Prop :=
  Forall (fun c => is_space c = true /\ c <> NL) b.

(** A value after a label: a text within one line that is not empty and
    neither begins nor ends with white space. *)
Definition line_value (v : pystr) : Prop :=
  v <> [] /\ ~ In NL v
  /\ (forall c, head v = Some c -> is_space c = false)
  /\ (forall c, last v = Some c -> is_space c = false).

(** The quote that may stand before the title, and the one after it. *)
Definition opening_quote (oq : pystr) : Prop :=
  oq = [] \/ oq = [QUOTE] \/ oq = [LDQUO].

Definition closing_quote (cq : pystr) : Prop :=
  cq = [] \/ cq = [QUOTE] \/ cq = [RDQUO].

(** A title that does not itself begin or end with such a quote. *)
Definition unquoted (t : pystr) : Prop :=
  (forall c, head t = Some c -> c <> QUOTE /\ c <> LDQUO)
  /\ (forall c, last t = Some c -> c <> QUOTE /\ c <> RDQUO).

(** The line of the title: the label, blanks, the title with or without
    quotes around it.  The line of another field: the label, blanks, the
    value. *)
Definition title_line (tl b oq t cq : pystr) : pystr :=
  tl ++ b ++ oq ++ t ++ cq.

Definition value_line (l b v : pystr) : pystr := l ++ b ++ v.

(** The end of a line: the end of the text, or a line feed. *)
Definition line_end (tail : pystr) : Prop :=
  tail = [] \/ exists rest, tail = NL :: rest.

(** *** The patterns by their parts *)

(** The character before the cursor once [l] has been read. *)
Fixpoint after (prev : option N) (l : pystr) : option N :=
  match l with
  | [] => prev
  | c :: l' => after (Some c) l'
  end.

(** The continuation of [$] at the end of a pattern. *)
Definition eol_cont (g : caps) : option N -> pystr -> option caps :=
  fun _ s => if at_eol s then Some g else None.

(** [^\s*LABEL\s*(.+)$], the pattern of the description and of the
    style. *)
Definition greedy_re (label : pystr) : list node :=
  [Bol; Q Space Star] ++ List.map (fun c => Q (Lit c) One) label
  ++ [Q Space Star; GroupOpen; Q Any Plus; GroupClose; Eol].

(** What stands after the group of the title pattern, and the title
    pattern for a label. *)
Definition closing : list node :=
  [GroupClose; Q (OneOf [QUOTE; RDQUO]) Opt; Q Space Star; Eol].

Definition lazy_re (label : pystr) : list node :=
  [Bol; Q Space Star] ++ List.map (fun c => Q (Lit c) One) label
  ++ [Q Space Star; Q (OneOf [QUOTE; LDQUO]) Opt; GroupOpen; Q Any PlusLazy]
  ++ closing.

End Re.

(* --------------------------------------------------------------------- *)
(** ** [prompt_gen_v03.py]: parsing and the generation loop *)
(* --------------------------------------------------------------------- *)

Module PromptGen.
Import Py.

(** A generated record: the dictionary with the keys [title], [description]
    and [style]. *)
Record prompt : Type := Prompt {
  title : pystr;
  description : pystr;
  style : pystr
}.

(** The comparison of the duplicate check: all three fields equal. *)
Definition prompt_eqb (p q : prompt) : bool :=
  str_eqb (title p) (title q)
  && str_eqb (description p) (description q)
  && str_eqb (style p) (style q).

Definition is_empty (s : pystr) : bool :=
  match s with
  | [] => true
  | _ => false
  end.

Definition parse_ollama_output (response : pystr) : option prompt :=
  let title_match := Re.search Re.title_re response in
  let desc_match := Re.search Re.desc_re response in
  let style_match := Re.search Re.style_re response in
  match title_match, desc_match, style_match with
  | None, None, None => None
  | _, _, _ =>
      let title := match title_match with Some g => strip g | None => [] end in
      let desc := match desc_match with Some g => strip g | None => [] end in
      let style := match style_match with Some g => strip g | None => [] end in
      if is_empty title && is_empty desc && is_empty style then None
      else Some {| title := title; description := desc; style := style |}
  end.

(** The record substituted when parsing yields nothing (lines 268-273). *)
Definition unparsed (response_text : pystr) : prompt :=
  {| title := py "UNPARSED"; description := response_text; style := [] |}.

(** The arguments of [generate_prompts_for_model] that steer the loop.  The
    others ([output_csv], [reference_text], [save_mode], the widgets) only
    shape the request text, the log and the file that is written. *)
Record config : Type := Config {
  model_name : pystr;
  num_prompts : Z;
  use_memory : bool;
  auto_save_every : Z
}.

(** What one iteration gets from outside: the value of the global flag
    [stop_generation] when the iteration polls it, and what
    [subprocess.run] gives (the standard output, or the exception raised).
    The request text is not modelled: it only influences the reply, and the
    replies are arbitrary here. *)
Record event : Type := Event {
  stop_generation : bool;
  reply : result pystr
}.

(** The variables of the loop, the global memory, and the batches handed to
    the CSV writer (each non-empty call of [save_prompts_to_csv]). *)
Record gen_state : Type := GenState {
  ALL_PROMPTS_MEMORY : gmap pystr (list prompt);
  new_prompts_this_run : list prompt;
  prompt_index : Z;
  attempts : Z;
  csv_batches : list (list prompt)
}.

(** [ALL_PROMPTS_MEMORY[model_name]]; the key is present once line 217 has
    run. *)
Definition memory_of (m : gmap pystr (list prompt)) (model : pystr)
  : list prompt :=
  default [] (m !! model).

(** [save_prompts_to_csv]: nothing for an empty list; otherwise the list is
    written (a failed write is logged) and then cleared in place.  Creating
    the folder of the file, which happens outside the [try], is taken to
    succeed. *)
Definition save_prompts_to_csv (st : gen_state) : gen_state :=
  match new_prompts_this_run st with
  | [] => st
  | batch =>
      {| ALL_PROMPTS_MEMORY := ALL_PROMPTS_MEMORY st;
         new_prompts_this_run := [];
         prompt_index := prompt_index st;
         attempts := attempts st;
         csv_batches := csv_batches st ++ [batch] |}
  end.

Definition with_attempts (st : gen_state) (n : Z) : gen_state :=
  {| ALL_PROMPTS_MEMORY := ALL_PROMPTS_MEMORY st;
     new_prompts_this_run := new_prompts_this_run st;
     prompt_index := prompt_index st;
     attempts := n;
     csv_batches := csv_batches st |}.

(** The record an attempt works with: the parsed reply or the fallback. *)
Definition record_of (stdout : pystr) : prompt :=
  let response_text := strip stdout in
  match parse_ollama_output response_text with
  | Some parsed => parsed
  | None => unparsed response_text
  end.

Definition is_duplicate (cfg : config) (st : gen_state) (parsed : prompt)
  : bool :=
  if use_memory cfg
  then existsb (fun p => prompt_eqb p parsed)
               (memory_of (ALL_PROMPTS_MEMORY st) (model_name cfg))
  else existsb (fun p => prompt_eqb p parsed) (new_prompts_this_run st).

(** Lines 297-330: the record is new. *)
Definition accept_record (cfg : config) (st : gen_state) (parsed : prompt)
  : gen_state :=
  let st :=
    {| ALL_PROMPTS_MEMORY :=
         if use_memory cfg
         then <[model_name cfg :=
                  memory_of (ALL_PROMPTS_MEMORY st) (model_name cfg)
                  ++ [parsed]]> (ALL_PROMPTS_MEMORY st)
         else ALL_PROMPTS_MEMORY st;
       new_prompts_this_run := new_prompts_this_run st ++ [parsed];
       prompt_index := prompt_index st + 1;
       attempts := attempts st;
       csv_batches := csv_batches st |} in
  if (0 <? auto_save_every cfg)
     && (prompt_index st mod auto_save_every cfg =? 0)
  then save_prompts_to_csv st
  else st.

(** One pass through the body of the [while] (lines 229-330): [true] when
    the loop goes on, [false] on a [break].  It is meant for states in which
    the model has its key in the memory, as in every state of a run; without
    the key the source would fail with [KeyError] at the duplicate check. *)
Definition iteration (cfg : config) (ev : event) (st : gen_state)
  : bool * gen_state :=
  if stop_generation ev then (false, st)
  else
    let st := with_attempts st (attempts st + 1) in
    match reply ev with
    | Raise _ => (false, st)
    | Ok stdout =>
        let parsed := record_of stdout in
        if is_duplicate cfg st parsed then (true, st)
        else (true, accept_record cfg st parsed)
    end.

Definition loop_condition (cfg : config) (st : gen_state) : bool :=
  (prompt_index st <? num_prompts cfg)
  && (attempts st <? num_prompts cfg * 3).

Inductive outcome : Type :=
| Finished (st : gen_state)
| OutOfFuel (st : gen_state).

Definition state_of (o : outcome) : gen_state :=
  match o with
  | Finished st => st
  | OutOfFuel st => st
  end.

(** The [while] loop, run for at most [fuel] iterations.  The iteration that
    starts with [attempts = k] receives the event [env k]. *)
Fixpoint while_loop (fuel : nat) (cfg : config) (env : nat -> event)
    (st : gen_state) : outcome :=
  if loop_condition cfg st then
    match fuel with
    | O => OutOfFuel st
    | S fuel' =>
        match iteration cfg (env (Z.to_nat (attempts st))) st with
        | (true, st') => while_loop fuel' cfg env st'
        | (false, st') => Finished st'
        end
    end
  else Finished st.

(** Lines 216-226: the state in which the loop starts. *)
Definition initial_state (cfg : config) (memory : gmap pystr (list prompt))
  : gen_state :=
  {| ALL_PROMPTS_MEMORY :=
       match memory !! model_name cfg with
       | Some _ => memory
       | None => <[model_name cfg := []]> memory
       end;
     new_prompts_this_run := [];
     prompt_index := 0;
     attempts := 0;
     csv_batches := [] |}.

(** [generate_prompts_for_model]: the loop, then the final save of what is
    left in the list. *)
Definition generate_prompts_for_model (fuel : nat) (cfg : config)
    (env : nat -> event) (memory : gmap pystr (list prompt)) : outcome :=
  match while_loop fuel cfg env (initial_state cfg memory) with
  | Finished st => Finished (save_prompts_to_csv st)
  | OutOfFuel st => OutOfFuel st
  end.

(** [reset_memory_func] *)
Definition reset_memory_func (memory : gmap pystr (list prompt))
  : gmap pystr (list prompt) := ∅.

(** *** Notions used to state the properties of the loop *)

(** The field a pattern extracts: group 1 trimmed, or the empty string
    without a match (lines 35-37). *)
Definition extracted (re : list Re.node) (response : pystr) : pystr :=
  match Re.search re response with
  | Some g => strip g
  | None => []
  end.

(** The records accepted by the run so far, in the order of acceptance: the
    batches already written, then the list that is still unsaved. *)
Definition accepted (st : gen_state) : list prompt :=
  concat (csv_batches st) ++ new_prompts_this_run st.

(** The sequence the duplicate check goes through (lines 276-289). *)
Definition checked_list (cfg : config) (st : gen_state) : list prompt :=
  if use_memory cfg
  then memory_of (ALL_PROMPTS_MEMORY st) (model_name cfg)
  else new_prompts_this_run st.

(** No sequence of the memory holds two equal records. *)
Definition memory_nodup (m : gmap pystr (list prompt)) : Prop :=
  forall key l, m !! key = Some l -> NoDup l.

(** The memories the process can hold: empty at start, emptied by a reset,
    given the key of the model when a run begins, and changed by one
    iteration of a run in whatever state its loop is (so that the
    iterations of several runs may follow one another in any order). *)
Inductive reachable : gmap pystr (list prompt) -> Prop :=
| reach_start : reachable ∅
| reach_reset m : reachable m -> reachable (reset_memory_func m)
| reach_enter cfg m :
    reachable m -> reachable (ALL_PROMPTS_MEMORY (initial_state cfg m))
| reach_iteration cfg ev st :
    reachable (ALL_PROMPTS_MEMORY st) ->
    is_Some (ALL_PROMPTS_MEMORY st !! model_name cfg) ->
    reachable (ALL_PROMPTS_MEMORY (snd (iteration cfg ev st))).

Definition counters_ok (cfg : config) (st : gen_state) : Prop :=
  0 <= attempts st <= num_prompts cfg * 3
  /\ 0 <= prompt_index st <= num_prompts cfg
  /\ prompt_index st <= attempts st.

(** The loop invariant of a run that started with memory [m0]: no
    repetition in any sequence, the other keys as they were, and the model's
    sequence grown at its end by exactly the records accepted so far (when
    memory is in use). *)
Definition memory_inv (cfg : config) (m0 : gmap pystr (list prompt))
    (st : gen_state) : Prop :=
  memory_nodup (ALL_PROMPTS_MEMORY st)
  /\ (forall key, key <> model_name cfg ->
                  ALL_PROMPTS_MEMORY st !! key = m0 !! key)
  /\ memory_of (ALL_PROMPTS_MEMORY st) (model_name cfg)
     = memory_of m0 (model_name cfg)
       ++ (if use_memory cfg then accepted st else []).

End PromptGen.

(* --------------------------------------------------------------------- *)
(** ** Concrete inputs used by the examples below *)
(* --------------------------------------------------------------------- *)

Module Examples.
Import Py.

(** A CSV file of five rows; the third row starts with a space. *)
Definition csv_path : pystr := py "/data/rows.csv".

Definition csv_text : pystr :=
  py "r0,a" ++ [NL] ++ py "r1,b" ++ [NL] ++ py " r2,c" ++ [NL]
  ++ py "r3,d" ++ [NL] ++ py "r4,e" ++ [NL].

Definition rows5 : list (list pystr) :=
  [[py "r0"; py "a"]; [py "r1"; py "b"]; [py " r2"; py "c"];
   [py "r3"; py "d"]; [py "r4"; py "e"]].

(** An interpreter for the examples.  Of the table of decimal digits it
    has the Arabic-Indic digits (U+0660 to U+0669), the Devanagari digits
    (U+0966 to U+096F) and the fullwidth digits (U+FF10 to U+FF19). *)
Definition sample_decimal (c : N) : option N :=
  if ((1632 <=? c) && (c <=? 1641))%N then Some (c - 1632)%N
  else if ((2406 <=? c) && (c <=? 2415))%N then Some (c - 2406)%N
  else if ((65296 <=? c) && (c <=? 65305))%N then Some (c - 65296)%N
  else None.

Definition sample_interpreter : Interpreter :=
  {| unicode_decimal := sample_decimal |}.

(** Nothing cached, no position file. *)
Definition w_fresh : Looper.world :=
  {| Looper.files := {[csv_path := csv_text]};
     Looper.file_path_cache := None;
     Looper.file_data_cache := None |}.

(** [w_fresh] once the file has been loaded. *)
Definition w_loaded : Looper.world :=
  {| Looper.files := {[csv_path := csv_text]};
     Looper.file_path_cache := Some csv_path;
     Looper.file_data_cache := Some rows5 |}.

(** The position file of the configuration (1, 3, 1, increment). *)
Definition state_path : pystr := py "/data/rows_state_increment_1_3_1.txt".

(** The same files with a position file that somebody else wrote: it holds
    the integer 4, outside the range [1, 3]. *)
Definition w_stale : Looper.world :=
  {| Looper.files := <[state_path := py "4"]> {[csv_path := csv_text]};
     Looper.file_path_cache := None;
     Looper.file_data_cache := None |}.

(** The same files with a position file that holds the Arabic-Indic digit
    two (U+0662), which [int] reads as 2. *)
Definition w_script : Looper.world :=
  {| Looper.files := <[state_path := [1634%N]]> {[csv_path := csv_text]};
     Looper.file_path_cache := None;
     Looper.file_data_cache := None |}.

(** A file whose only line reads differently with [,] and with [;]. *)
Definition mixed_path : pystr := py "/data/mixed.csv".

Definition w_mixed : Looper.world :=
  {| Looper.files := {[mixed_path := py "a;b,c" ++ [NL]]};
     Looper.file_path_cache := None;
     Looper.file_data_cache := None |}.

(** Replies of the collaborator. *)
Definition sample_response : pystr :=
  py "Title: Foo" ++ [NL] ++ py "Description: Bar" ++ [NL] ++ py "Style: Baz".

Definition sample_response_mixed_case : pystr :=
  py "TITLE: Foo" ++ [NL] ++ py "description: Bar" ++ [NL] ++ py "sTyLe: Baz".

Definition reply_a : pystr := py "Title: A" ++ [NL].
Definition reply_b : pystr := py "Title: B" ++ [NL].

(** Three attempts of which the first and the third reply the same, and no
    cancellation. *)
Definition env_aba (k : nat) : PromptGen.event :=
  match k with
  | 1%nat => PromptGen.Event false (Ok reply_b)
  | _ => PromptGen.Event false (Ok reply_a)
  end.

(** Three attempts that all reply the same. *)
Definition env_aaa (k : nat) : PromptGen.event :=
  PromptGen.Event false (Ok reply_a).

(** The operator presses Stop before the second attempt. *)
Definition env_stop (k : nat) : PromptGen.event :=
  match k with
  | O => PromptGen.Event false (Ok reply_a)
  | _ => PromptGen.Event true (Ok reply_b)
  end.

Definition cfg_memory : PromptGen.config :=
  {| PromptGen.model_name := py "llama3";
     PromptGen.num_prompts := 3;
     PromptGen.use_memory := true;
     PromptGen.auto_save_every := 1 |}.

(** Memory on, no periodic flush. *)
Definition cfg_plain : PromptGen.config :=
  {| PromptGen.model_name := py "llama3";
     PromptGen.num_prompts := 3;
     PromptGen.use_memory := true;
     PromptGen.auto_save_every := 0 |}.

(** The memory an earlier run of the same model has left: it holds the
    record of [reply_b]. *)
Definition memory_b : gmap pystr (list PromptGen.prompt) :=
  {[py "llama3" := [PromptGen.record_of reply_b]]}.

(** Memory off, a flush after every accepted record. *)
Definition cfg_flush : PromptGen.config :=
  {| PromptGen.model_name := py "llama3";
     PromptGen.num_prompts := 3;
     PromptGen.use_memory := false;
     PromptGen.auto_save_every := 1 |}.

(** Stand-ins for the two formatting functions of the seed node; the example
    that uses them fails before either is called. *)
Definition no_format (x : float) (d : Z) : result pystr := Ok [].
Definition no_float (s : pystr) : result float := Ok 0%float.

Definition seed_self0 : Seed.seed_self :=
  {| Seed.current_index := 0;
     Seed.current_value := 0%float;
     Seed.values_list := [] |}.

End Examples.

(** Case analysis on every comparison of the goal. *)
Ltac case_compare :=
  repeat match goal with
         | |- context [?a <? ?b] => destruct (Z.ltb_spec a b)
         | |- context [?a <=? ?b] => destruct (Z.leb_spec a b)
         end.

(* --------------------------------------------------------------------- *)
(** ** More of Python's strings: prefixes and suffixes *)
(* --------------------------------------------------------------------- *)

Module PyMore.
Import Py.

(** [s.startswith(prefix)] and [s.endswith(suffix)] *)
Definition startswith (prefix s : pystr) : bool :=
  bool_decide (firstn (length prefix) s = prefix).

Definition endswith (suffix s : pystr) : bool :=
  bool_decide (skipn (length s - length suffix) s = suffix).

End PyMore.

(* --------------------------------------------------------------------- *)
(** ** [RK_CSV.py]: notions used to state further properties of the looper *)
(* --------------------------------------------------------------------- *)

Module LooperMore.
Import Py Looper.

(** The characters [str] of an integer is made of: the digits and the
    minus sign. *)
Definition is_int_char (c : N) : bool := is_digit c || (c =? 45)%N.

(** The position file of a call of [read_row] on a table of [total_rows]
    rows: lines 102-110 normalise the range before the name is built. *)
Definition state_file_of
    (file_path loop_mode : pystr)
    (total_rows start_index end_index step_size : Z) : pystr :=
  let '(start_index, end_index) :=
    normalize_range total_rows start_index end_index in
  get_state_file_path file_path start_index end_index step_size loop_mode.

Section WithInterpreter.

Context `{interp : Interpreter}.

(** What [read_row_try] does once [load_file] has returned the rows
    (lines 99-141). *)
Definition after_load
    (rnd : Z) (file_path loop_mode : pystr)
    (start_index end_index step_size : Z) (delimiter : pystr)
    (data : list (list pystr)) (wl : world) : result (Z * pystr) * world :=
  let a := fst (normalize_range (len data) start_index end_index) in
  let b := snd (normalize_range (len data) start_index end_index) in
  let sf := get_state_file_path file_path a b step_size loop_mode in
  match choose_index rnd loop_mode sf a b step_size wl with
  | (Raise e, w2) => (Raise e, w2)
  | (Ok i, w2) =>
      match getitem data i with
      | Raise e => (Raise e, w2)
      | Ok row => (Ok (i, strip_chars STRIP_CHARS (join delimiter row)), w2)
      end
  end.

End WithInterpreter.

End LooperMore.

(* --------------------------------------------------------------------- *)
(** ** The Excel variant of the looper ([RK Excel Row Loope.py])

    Same class name as the CSV looper; the loader is [pandas], the cache is
    the pair [df_path] / [df_cache], and [read_row] has a second output,
    the chosen index as text.  The normalisation of the range, the choice
    of the index and the position file are, line for line, those of the
    CSV looper, whose definitions are used here. *)
(* --------------------------------------------------------------------- *)

Module ExcelLooper.
Import Py.

Section WithPandas.

Context `{interp : Interpreter}.

(** A cell of the data frame, [str] on it, and
    [pd.read_excel(file_path, header=None)] on the content of the file. *)
Variable cell : Type.
Variable str_of_cell : cell -> pystr.
Variable read_excel : pystr -> result (list (list cell)).

(** The regular files and the two class variables. *)
Record world : Type := World {
  files : gmap pystr pystr;
  df_path : option pystr;
  df_cache : option (list (list cell))
}.

Definition load_excel (file_path : pystr) (w : world)
  : result (option (list (list cell))) * world :=
  if negb (bool_decide (df_path w = Some file_path)) then
    match files w !! file_path with
    | None => (Raise FileNotFoundError, w)
    | Some content =>
        match read_excel content with
        | Raise e => (Raise e, w)
        | Ok df =>
            let w' := {| files := files w;
                         df_path := Some file_path;
                         df_cache := Some df |} in
            (Ok (df_cache w'), w')
        end
    end
  else (Ok (df_cache w), w).

Definition get_row_count (df : option (list (list cell))) : result Z :=
  match df with
  | Some rows => Ok (len rows)
  | None => Raise TypeError
  end.

(** Lines 99-114, which read and write the position file only: the
    selection of the CSV looper, run on the files of this world. *)
Definition choose_index
    (rnd : Z) (loop_mode state_file : pystr)
    (start_index end_index step_size : Z) (w : world) : result Z * world :=
  let '(r, lw) :=
    Looper.choose_index rnd loop_mode state_file start_index end_index
      step_size
      {| Looper.files := files w;
         Looper.file_path_cache := None;
         Looper.file_data_cache := None |} in
  (r, {| files := Looper.files lw;
         df_path := df_path w;
         df_cache := df_cache w |}).

(** The body of the [try] in [read_row] (lines 84-127): the chosen index
    and the row text. *)
Definition read_row_try
    (rnd : Z) (file_path loop_mode : pystr)
    (start_index end_index step_size : Z) (delimiter : pystr) (w : world)
  : result (Z * pystr) * world :=
  match load_excel file_path w with
  | (Raise e, w1) => (Raise e, w1)
  | (Ok df, w1) =>
      match get_row_count df with
      | Raise e => (Raise e, w1)
      | Ok total_rows =>
          let '(start_index, end_index) :=
            Looper.normalize_range total_rows start_index end_index in
          let state_file :=
            Looper.get_state_file_path file_path start_index end_index
                                       step_size loop_mode in
          match choose_index rnd loop_mode state_file
                             start_index end_index step_size w1 with
          | (Raise e, w2) => (Raise e, w2)
          | (Ok chosen_index, w2) =>
              match getitem (default [] df) chosen_index with
              | Raise e => (Raise e, w2)
              | Ok row_data =>
                  let row_text :=
                    join delimiter (List.map str_of_cell row_data) in
                  let row_text := strip_chars Looper.STRIP_CHARS row_text in
                  (Ok (chosen_index, row_text), w2)
              end
          end
      end
  end.

(** [read_row]: the row text and [chosen_index_str], or two empty strings
    when the body raised. *)
Definition read_row
    (rnd : Z) (file_path loop_mode : pystr)
    (start_index end_index step_size : Z) (delimiter : pystr) (w : world)
  : pystr * pystr * world :=
  match read_row_try rnd file_path loop_mode start_index end_index
                     step_size delimiter w with
  | (Ok (chosen_index, row_text), w') =>
      (row_text, py "Current Row Index: " ++ py_str chosen_index, w')
  | (Raise _, w') => ([], [], w')
  end.

End WithPandas.

Arguments files {cell} _.
Arguments df_path {cell} _.
Arguments df_cache {cell} _.

End ExcelLooper.

(* --------------------------------------------------------------------- *)
(** ** [rk_seed.py]: the stages of [process_seed]

    [Seed.process_seed_try] cut at its comments, to state what each stage
    does to the loop value and to the instance. *)
(* --------------------------------------------------------------------- *)

Module SeedMore.
Import Py Seed.

(** Lines 76-78: "Ensure start_value is not greater than end_value". *)
Definition ordered (start_value end_value : float) : float * float :=
  if PrimFloat.ltb end_value start_value then (end_value, start_value)
  else (start_value, end_value).

(** Lines 123-129: the limit of 100 and the reset of the counter. *)
Definition cap_and_reset (loop_count : Z) (loop_value : float)
    (self : seed_self) : float * seed_self :=
  (if PrimFloat.ltb 100 loop_value then 100%float else loop_value,
   if loop_count <=? current_index self
   then {| current_index := 0;
           current_value := current_value self;
           values_list := values_list self |}
   else self).

Section WithFormatting.

Variable format_fixed : float -> Z -> result pystr.
Variable float_of_str : pystr -> result float.

(** Lines 87-121: the branch of the mode, for a mode other than
    "disabled". *)
Definition mode_branch
    (u : float) (loop_mode : pystr) (start_value end_value step_size : float)
    (decimal_places : Z) (custom_values : option pystr) (self : seed_self)
  : result float * seed_self :=
  if str_eqb loop_mode (py "fixed")
     && match custom_values with Some (_ :: _) => true | _ => false end
  then
    let '(v, self) :=
      fixed_branch format_fixed float_of_str (default [] custom_values)
                   start_value decimal_places self in
    (Ok v, self)
  else if str_eqb loop_mode (py "random") then
    (format_float format_fixed float_of_str
       (PrimFloat.add start_value
          (PrimFloat.mul (PrimFloat.sub end_value start_value) u))
       decimal_places, self)
  else if str_eqb loop_mode (py "increment") then
    step_branch format_fixed float_of_str true start_value end_value
                step_size decimal_places self
  else if str_eqb loop_mode (py "decrement") then
    step_branch format_fixed float_of_str false start_value end_value
                step_size decimal_places self
  else (Ok start_value, self).

(** Lines 131-146: the value is stored and the tuple is built. *)
Definition outputs (seed decimal_places : Z) (loop_value : float)
    (self : seed_self) : result seed_out * seed_self :=
  let self := {| current_index := current_index self;
                 current_value := loop_value;
                 values_list := values_list self |} in
  (do loop_value_string <- format_fixed loop_value decimal_places;
   do fseed <- float_of_int seed;
   Ok {| out_seed := seed;
         out_number := fseed;
         out_float := fseed;
         out_int := seed;
         out_string := py_str seed;
         out_loop_value := loop_value;
         out_loop_index := current_index self;
         out_loop_value_string := loop_value_string |},
   self).

(** [process_seed_try] as the sequence of its stages. *)
Definition staged
    (u : float) (seed : Z) (loop_mode : pystr)
    (start_value end_value step_size : float)
    (loop_count decimal_places : Z) (custom_values : option pystr)
    (self : seed_self) : result seed_out * seed_self :=
  let '(start_value, end_value) := ordered start_value end_value in
  if negb (str_eqb loop_mode (py "disabled")) then
    match mode_branch u loop_mode start_value end_value step_size
                      decimal_places custom_values self with
    | (Raise e, self) => (Raise e, self)
    | (Ok loop_value, self) =>
        let '(loop_value, self) := cap_and_reset loop_count loop_value self in
        outputs seed decimal_places loop_value self
    end
  else outputs seed decimal_places start_value self.

End WithFormatting.

End SeedMore.

(* --------------------------------------------------------------------- *)
(** ** [prompt_gen_v03.py], [prompt_gen1.py]: the CSV file

    What [save_prompts_to_csv] (and the final save of [prompt_gen1.py],
    which has the same lines) does to the output file.  The content of a
    file is its text as [open(..., newline="")] writes it, so that a line
    ends with a carriage return and a line feed; [None] is a path at which
    nothing exists.  Opening and writing are taken to succeed. *)
(* --------------------------------------------------------------------- *)

Module CsvSink.
Import Py PromptGen.

Definition CR : N := 13%N.
Definition COMMA : N := 44%N.

(** [csv.writer] with the default dialect: a field is put in quotes when it
    holds the delimiter, the quote character or a character of the line
    terminator, and the quotes inside it are doubled. *)
Definition needs_quote (field : pystr) : bool :=
  existsb (fun c => (c =? COMMA) || (c =? QUOTE) || (c =? CR) || (c =? NL))%N
          field.

Definition double_quotes (field : pystr) : pystr :=
  flat_map (fun c => if (c =? QUOTE)%N then [QUOTE; QUOTE] else [c]) field.

Definition csv_field (field : pystr) : pystr :=
  if needs_quote field then [QUOTE] ++ double_quotes field ++ [QUOTE]
  else field.

(** [writer.writerow] for the three columns. *)
Definition writerow (a b c : pystr) : pystr :=
  csv_field a ++ [COMMA] ++ csv_field b ++ [COMMA] ++ csv_field c
  ++ [CR; NL].

(** [writer.writeheader()] with [fieldnames = ["Title", "Description",
    "Style"]]. *)
Definition HEADER : pystr :=
  writerow (py "Title") (py "Description") (py "Style").

Definition row_of (p : prompt) : pystr :=
  writerow (title p) (description p) (style p).

Definition rows_of (prompts_list : list prompt) : pystr :=
  concat (List.map row_of prompts_list).

(** Lines 162-178: the file after the list has been written.  The mode is
    "a" for the save mode "append" and "w" otherwise; the header is left
    out only when appending to a file that exists. *)
Definition write_csv (save_mode : pystr) (prompts_list : list prompt)
    (file : option pystr) : option pystr :=
  let append := str_eqb save_mode (py "append") in
  let write_header :=
    match file with
    | Some _ => negb append
    | None => true
    end in
  let kept := if append then default [] file else [] in
  Some (kept ++ (if write_header then HEADER else [])
        ++ rows_of prompts_list).

(** [save_prompts_to_csv] on the file: nothing happens for an empty
    list. *)
Definition save_to_file (save_mode : pystr) (prompts_list : list prompt)
    (file : option pystr) : option pystr :=
  match prompts_list with
  | [] => file
  | _ => write_csv save_mode prompts_list file
  end.

(** The file after the calls of [save_prompts_to_csv] of a run, given the
    lists they were handed, in order. *)
Definition file_after (save_mode : pystr) (batches : list (list prompt))
    (file : option pystr) : option pystr :=
  fold_left (fun f batch => save_to_file save_mode batch f) batches file.

End CsvSink.

(* --------------------------------------------------------------------- *)
(** ** [prompt_gen1.py]: the generation loop without periodic saving

    The earlier script.  Its [parse_ollama_output] is the one of
    [prompt_gen_v03.py]; its loop counts the accepted records by the length
    of the list of the run, and writes that list once, after the loop. *)
(* --------------------------------------------------------------------- *)

Module PromptGen1.
Import Py.

(** The variables of the loop and the global memory. *)
Record gen_state : Type := GenState {
  ALL_PROMPTS_MEMORY : gmap pystr (list PromptGen.prompt);
  new_prompts_this_run : list PromptGen.prompt;
  attempts : Z
}.

Definition with_attempts (st : gen_state) (n : Z) : gen_state :=
  {| ALL_PROMPTS_MEMORY := ALL_PROMPTS_MEMORY st;
     new_prompts_this_run := new_prompts_this_run st;
     attempts := n |}.

(** Lines 182-195. *)
Definition is_duplicate (cfg : PromptGen.config) (st : gen_state)
    (parsed : PromptGen.prompt) : bool :=
  if PromptGen.use_memory cfg
  then existsb (fun p => PromptGen.prompt_eqb p parsed)
               (PromptGen.memory_of (ALL_PROMPTS_MEMORY st)
                                    (PromptGen.model_name cfg))
  else existsb (fun p => PromptGen.prompt_eqb p parsed)
               (new_prompts_this_run st).

(** Lines 201-204: the record is new. *)
Definition accept_record (cfg : PromptGen.config) (st : gen_state)
    (parsed : PromptGen.prompt) : gen_state :=
  {| ALL_PROMPTS_MEMORY :=
       if PromptGen.use_memory cfg
       then <[PromptGen.model_name cfg :=
                PromptGen.memory_of (ALL_PROMPTS_MEMORY st)
                                    (PromptGen.model_name cfg)
                ++ [parsed]]> (ALL_PROMPTS_MEMORY st)
       else ALL_PROMPTS_MEMORY st;
     new_prompts_this_run := new_prompts_this_run st ++ [parsed];
     attempts := attempts st |}.

(** One pass through the body of the [while] (lines 137-217): [true] when
    the loop goes on, [false] on a [break]. *)
Definition iteration (cfg : PromptGen.config) (ev : PromptGen.event)
    (st : gen_state) : bool * gen_state :=
  if PromptGen.stop_generation ev then (false, st)
  else
    let st := with_attempts st (attempts st + 1) in
    match PromptGen.reply ev with
    | Raise _ => (false, st)
    | Ok stdout =>
        let parsed := PromptGen.record_of stdout in
        if is_duplicate cfg st parsed then (true, st)
        else (true, accept_record cfg st parsed)
    end.

(** Line 136; [total_prompts] is [num_prompts]. *)
Definition loop_condition (cfg : PromptGen.config) (st : gen_state) : bool :=
  (len (new_prompts_this_run st) <? PromptGen.num_prompts cfg)
  && (attempts st <? PromptGen.num_prompts cfg * 3).

(** The [while] loop, run for at most [fuel] iterations; the iteration that
    starts with [attempts = k] receives the event [env k].  [None] when the
    fuel runs out. *)
Fixpoint while_loop (fuel : nat) (cfg : PromptGen.config)
    (env : nat -> PromptGen.event) (st : gen_state) : option gen_state :=
  if loop_condition cfg st then
    match fuel with
    | O => None
    | S fuel' =>
        match iteration cfg (env (Z.to_nat (attempts st))) st with
        | (true, st') => while_loop fuel' cfg env st'
        | (false, st') => Some st'
        end
    end
  else Some st.

(** Lines 120-130. *)
Definition initial_state (cfg : PromptGen.config)
    (memory : gmap pystr (list PromptGen.prompt)) : gen_state :=
  {| ALL_PROMPTS_MEMORY :=
       match memory !! PromptGen.model_name cfg with
       | Some _ => memory
       | None => <[PromptGen.model_name cfg := []]> memory
       end;
     new_prompts_this_run := [];
     attempts := 0 |}.

(** [generate_prompts_for_model]: the loop, then the list of the run is
    written to [output_csv] (lines 219-251), whose content before the run
    is [file].  The result is the final state with the file, or [None]
    when the fuel runs out. *)
Definition generate_prompts_for_model (fuel : nat) (cfg : PromptGen.config)
    (save_mode : pystr) (env : nat -> PromptGen.event)
    (memory : gmap pystr (list PromptGen.prompt)) (file : option pystr)
  : option (gen_state * option pystr) :=
  match while_loop fuel cfg env (initial_state cfg memory) with
  | Some st =>
      Some (st, CsvSink.save_to_file save_mode (new_prompts_this_run st) file)
  | None => None
  end.

End PromptGen1.

(* --------------------------------------------------------------------- *)
(** ** [prompt_gen_v03.py]: notions used to state further properties of
    the generation loop *)
(* --------------------------------------------------------------------- *)

Module PromptGenMore.
Import Py PromptGen.

(** What the counters and the written batches of a run satisfy at every
    turn of the loop: the counter is the number of accepted records; no
    batch is empty; with a periodic save every [k > 0] records each batch
    written so far has [k] records and the unsaved list has
    [prompt_index mod k]; without one nothing has been written. *)
Definition flush_inv (cfg : config) (st : gen_state) : Prop :=
  prompt_index st = len (accepted st)
  /\ Forall (fun batch => batch <> []) (csv_batches st)
  /\ (0 < auto_save_every cfg ->
      Forall (fun batch => len batch = auto_save_every cfg) (csv_batches st)
      /\ len (new_prompts_this_run st)
         = prompt_index st mod auto_save_every cfg)
  /\ (auto_save_every cfg <= 0 -> csv_batches st = []).

(** The accepted records are pairwise different and the duplicate check
    sees all of them. *)
Definition distinct_inv (cfg : config) (st : gen_state) : Prop :=
  NoDup (accepted st)
  /\ incl (accepted st) (checked_list cfg st).

(** The replies of the first [n] attempts: no cancellation, and the
    standard output [stdout k] at attempt [k]. *)
Definition replies (env : nat -> event) (stdout : nat -> pystr) (n : nat)
  : Prop :=
  forall k, (k < n)%nat -> env k = Event false (Ok (stdout k)).

(** The records of the first [n] replies, in order. *)
Definition records (stdout : nat -> pystr) (n : nat) : list prompt :=
  List.map (fun k => record_of (stdout k)) (seq 0 n).

(** The state of the earlier script and the state of this one hold the
    same memory, list and attempt counter, and this one has written
    nothing yet. *)
Definition same_run (st1 : PromptGen1.gen_state) (st : gen_state) : Prop :=
  PromptGen1.ALL_PROMPTS_MEMORY st1 = ALL_PROMPTS_MEMORY st
  /\ PromptGen1.new_prompts_this_run st1 = new_prompts_this_run st
  /\ PromptGen1.attempts st1 = attempts st
  /\ prompt_index st = len (new_prompts_this_run st)
  /\ csv_batches st = [].

End PromptGenMore.

(* --------------------------------------------------------------------- *)
(** ** [rk_save_image.py]: the numbering of the saved files

    Of [save_images] the part that decides the file names: the scan of the
    output directory for the highest number in use, and the names given to
    the images of the batch.  The pixels and the metadata do not influence
    the names. *)
(* --------------------------------------------------------------------- *)

Module SaveImage.
Import Py PyMore.

(** [format(n, "05")]: the sign, then the digits padded with zeros to a
    width of five characters in all. *)
Definition pad_zeros (width : nat) (digits : pystr) : pystr :=
  repeat 48%N (width - length digits) ++ digits.

Definition format_05 (n : Z) : pystr :=
  match n with
  | Zneg p => 45%N :: pad_zeros 4 (chars_of_uint (Pos.to_uint p))
  | _ => pad_zeros 5 (py_str n)
  end.

Section WithInterpreter.

Context `{interp : Interpreter}.

(** Line 35: [int(file.split('_')[-1].split('.')[0])]. *)
Definition file_number (file : pystr) : result Z :=
  int_of_str (hd [] (split_on 46 (List.last (split_on 95 file) []))).

(** Lines 29-39: the highest number among the files of the directory whose
    names start with the prefix and end with [.png]; a name without a
    number is passed over. *)
Definition highest_num (listing : list pystr) (filename_prefix : pystr) : Z :=
  let existing_files :=
    List.filter (fun f => startswith filename_prefix f
                          && endswith (py ".png") f) listing in
  fold_left (fun highest_num file =>
               match file_number file with
               | Ok num => Z.max highest_num num
               | Raise _ => highest_num
               end)
            existing_files 0.

(** Line 57: the name of the file with number [counter]. *)
Definition file_name (filename_prefix : pystr) (counter : Z) : pystr :=
  filename_prefix ++ py "_" ++ format_05 counter ++ py ".png".

(** Lines 44-68: the names of the files of the batch, from [counter] on. *)
Fixpoint file_names (filename_prefix : pystr) (counter : Z) (images : nat)
  : list pystr :=
  match images with
  | O => []
  | S images' =>
      file_name filename_prefix counter
      :: file_names filename_prefix (counter + 1) images'
  end.

(** [save_images]: the [filename] entries of the result, for a directory
    that lists [listing] and a batch of [images] images. *)
Definition save_images (listing : list pystr) (images : nat)
    (filename_prefix : pystr) : list pystr :=
  let highest_num := highest_num listing filename_prefix in
  let counter := highest_num + 1 in
  file_names filename_prefix counter images.

End WithInterpreter.

End SaveImage.

(* --------------------------------------------------------------------- *)
(** ** [RK_Accumulate_Text.py], [RK_Accumulate_Text_Multiline_Numbered.py]

    The two nodes keep the text accumulated so far (and, for the second,
    the number of the next line) in class variables; the state is passed
    explicitly here.  What a call returns is the accumulated text it
    leaves. *)
(* --------------------------------------------------------------------- *)

Module Accumulate.
Import Py.

(** [s.strip()] as a condition: true when something is left. *)
Definition has_text (s : pystr) : bool :=
  match strip s with
  | [] => false
  | _ => true
  end.

(** Lines 38-44: "Combine inputs into a new block of text". *)
Definition new_block (input_text_1 input_text_2 : pystr) : pystr :=
  if has_text input_text_1 && has_text input_text_2
  then input_text_1 ++ [NL] ++ input_text_2
  else if has_text input_text_1 then input_text_1
  else input_text_2.

(** [accumulate_text] of [RK_Accumulate_Text_Multiline]: the class
    variable [accumulated_text] after the call. *)
Definition accumulate_text
    (input_text_1 input_text_2 separator reset_accumulation : pystr)
    (accumulated_text : pystr) : pystr :=
  let accumulated_text :=
    if str_eqb reset_accumulation (py "yes") then [] else accumulated_text in
  let new_block := new_block input_text_1 input_text_2 in
  if has_text accumulated_text && has_text new_block
  then accumulated_text ++ separator ++ new_block
  else if has_text new_block then accumulated_text ++ new_block
  else accumulated_text.

(** A sequence of calls without reset and with one separator, given the
    two input texts of each call. *)
Definition accumulate_all (separator : pystr) (calls : list (pystr * pystr))
    (accumulated_text : pystr) : pystr :=
  fold_left (fun acc c =>
               accumulate_text (fst c) (snd c) separator (py "no") acc)
            calls accumulated_text.

End Accumulate.

Module AccumulateNumbered.
Import Py.

(** The two class variables. *)
Record state : Type := State {
  accumulated_text : pystr;
  line_count : Z
}.

Definition is_nl (c : N) : bool := (c =? NL)%N.

(** Lines 42-47. *)
Definition new_block (input_text_1 input_text_2 : pystr) : pystr :=
  if Accumulate.has_text input_text_1 && Accumulate.has_text input_text_2
  then rstrip is_nl input_text_1 ++ [NL] ++ lstrip is_nl input_text_2
  else if Accumulate.has_text input_text_1 then input_text_1
  else input_text_2.

(** Lines 60-67: the loop over the lines when the numbering is on; the
    formatted lines and the line count after the loop. *)
Fixpoint number_lines (line_count : Z) (new_lines : list pystr)
  : list pystr * Z :=
  match new_lines with
  | [] => ([], line_count)
  | line :: rest =>
      if Accumulate.has_text line then
        let '(formatted_block, c) := number_lines (line_count + 1) rest in
        ((py_str line_count ++ py ". " ++ line) :: formatted_block, c)
      else
        let '(formatted_block, c) := number_lines line_count rest in
        (line :: formatted_block, c)
  end.

(** [accumulate_text] of [RK_Accumulate_Text_Multiline_Numbered]: the text
    returned and the class variables after the call. *)
Definition accumulate_text
    (input_text_1 input_text_2 separator reset_accumulation
     line_numbering : pystr) (st : state) : pystr * state :=
  let st :=
    if str_eqb reset_accumulation (py "yes")
    then {| accumulated_text := []; line_count := 1 |}
    else st in
  let new_block := new_block input_text_1 input_text_2 in
  if negb (Accumulate.has_text new_block) then (accumulated_text st, st)
  else
    let new_lines := split_on NL new_block in
    let '(formatted_block, count) :=
      if str_eqb line_numbering (py "yes")
      then number_lines (line_count st) new_lines
      else (new_lines, line_count st) in
    let new_block_formatted := join [NL] formatted_block in
    let text :=
      if Accumulate.has_text (accumulated_text st)
         && Accumulate.has_text new_block_formatted
      then accumulated_text st ++ separator ++ new_block_formatted
      else if negb (Accumulate.has_text (accumulated_text st))
      then new_block_formatted
      else accumulated_text st ++ new_block_formatted in
    (text, {| accumulated_text := text; line_count := count |}).

End AccumulateNumbered.

(* --------------------------------------------------------------------- *)
(** ** [parse_ollama_output]: notions used to state what a parsed field
    is *)
(* --------------------------------------------------------------------- *)

Module ParseMore.
Import Py Re.

(** A pattern node that is not a group parenthesis. *)
Definition groupfree (n : node) : bool :=
  match n with
  | GroupOpen | GroupClose => false
  | _ => true
  end.

(** A field as [parse_ollama_output] can return it: a piece of the
    response that lies within one line and neither starts nor ends with
    white space. *)
Definition clean_piece (response field : pystr) : Prop :=
  (exists before after, response = before ++ field ++ after)
  /\ ~ In NL field
  /\ (forall c, head field = Some c -> is_space c = false)
  /\ (forall c, last field = Some c -> is_space c = false).

End ParseMore.

(* --------------------------------------------------------------------- *)
(** ** [prompt_gen_v03.py]: the auto-save setting

    [generate_prompts_threaded] reads the text of the field
    [auto_save_every_var] and turns it into the number that the loop
    uses. *)
(* --------------------------------------------------------------------- *)

Module PromptGenSettings.
Import Py PyMore.

Section WithInterpreter.

Context `{interp : Interpreter}.

(** Lines 360-367:
    [try: auto_save_every = int(auto_save_every_str);
          if auto_save_every < 0: auto_save_every = 0
     except ValueError: auto_save_every = 50]. *)
Definition auto_save_every_setting (auto_save_every_str : pystr) : result Z :=
  match int_of_str auto_save_every_str with
  | Ok auto_save_every =>
      if auto_save_every <? 0 then Ok 0 else Ok auto_save_every
  | Raise ValueError => Ok 50
  | Raise e => Raise e
  end.

End WithInterpreter.

End PromptGenSettings.

(* --------------------------------------------------------------------- *)
(** ** Further concrete inputs *)
(* --------------------------------------------------------------------- *)

Module MoreExamples.
Import Py.

(** A CSV file without any row. *)
Definition empty_path : pystr := py "/data/empty.csv".

Definition w_empty : Looper.world :=
  {| Looper.files := {[empty_path := []]};
     Looper.file_path_cache := None;
     Looper.file_data_cache := None |}.

(** An instance of the seed node whose counter stands at 9. *)
Definition seed_self9 : Seed.seed_self :=
  {| Seed.current_index := 9;
     Seed.current_value := 0%float;
     Seed.values_list := [] |}.

(** What a call with seed 7 returns under the stand-ins [no_format] and
    [no_float] when the counter has gone back to 0. *)
Definition seed_out7 : Seed.seed_out :=
  {| Seed.out_seed := 7;
     Seed.out_number := 7%float;
     Seed.out_float := 7%float;
     Seed.out_int := 7;
     Seed.out_string := py "7";
     Seed.out_loop_value := 0%float;
     Seed.out_loop_index := 0;
     Seed.out_loop_value_string := [] |}.

(** The records of [reply_a] and [reply_b]. *)
Definition record_a : PromptGen.prompt :=
  {| PromptGen.title := py "A";
     PromptGen.description := [];
     PromptGen.style := [] |}.

Definition record_b : PromptGen.prompt :=
  {| PromptGen.title := py "B";
     PromptGen.description := [];
     PromptGen.style := [] |}.

(** Replies that carry the number of the attempt in the title. *)
Definition stdout_numbered (k : nat) : pystr :=
  py "Title: T" ++ py_str (Z.of_nat k).

Definition env_numbered (k : nat) : PromptGen.event :=
  PromptGen.Event false (Ok (stdout_numbered k)).

(** What [prompt_gen1.py] ends with on the replies A, B, A, A, ... for a
    target of three without the memory. *)
Definition gen1_final : PromptGen1.gen_state :=
  {| PromptGen1.ALL_PROMPTS_MEMORY := {[py "llama3" := []]};
     PromptGen1.new_prompts_this_run := [record_a; record_b];
     PromptGen1.attempts := 9 |}.

End MoreExamples.


(* ===================================================================== *)
(** * Part II: properties                                                   *)
(* ===================================================================== *)

(* --------------------------------------------------------------------- *)
(** ** Strings and integers *)
(* --------------------------------------------------------------------- *)

Module PyFacts.
Import Py.

Lemma str_eqb_true (a b : pystr) : str_eqb a b = true -> a = b.
Proof. unfold str_eqb. apply bool_decide_eq_true_1. Qed.

Lemma mem_char_In (cs : pystr) (c : N) : mem_char cs c = true <-> In c cs.
Proof.
  unfold mem_char. rewrite existsb_exists. split.
  - intros (x & Hin & Heq). apply N.eqb_eq in Heq. subst. exact Hin.
  - intros Hin. exists c. split; [exact Hin | apply N.eqb_refl].
Qed.

(** *** What [strip] removes *)

Lemma lstrip_split (p : N -> bool) (s : pystr) :
  exists pre, s = pre ++ lstrip p s /\ Forall (fun c => p c = true) pre.
Proof.
  induction s as [|c s IH]; simpl.
  - exists []. split; [reflexivity | constructor].
  - destruct (p c) eqn:Hc.
    + destruct IH as (pre & Heq & Hall).
      exists (c :: pre). split.
      * simpl. f_equal. exact Heq.
      * constructor; assumption.
    + exists []. split; [reflexivity | constructor].
Qed.

Lemma lstrip_head (p : N -> bool) (s : pystr) (c : N) :
  head (lstrip p s) = Some c -> p c = false.
Proof.
  induction s as [|x s IH]; simpl; [discriminate|].
  destruct (p x) eqn:Hx; [exact IH|].
  simpl. intros [= <-]. exact Hx.
Qed.

Lemma lstrip_fixed (p : N -> bool) (s : pystr) :
  (forall c, head s = Some c -> p c = false) -> lstrip p s = s.
Proof.
  destruct s as [|x s]; simpl; [reflexivity|].
  intros H. rewrite (H x eq_refl). reflexivity.
Qed.

Lemma rstrip_split (p : N -> bool) (s : pystr) :
  exists post, s = rstrip p s ++ post /\ Forall (fun c => p c = true) post.
Proof.
  unfold rstrip.
  destruct (lstrip_split p (rev s)) as (pre & Heq & Hall).
  exists (rev pre). split.
  - rewrite <- rev_app_distr, <- Heq, rev_involutive. reflexivity.
  - apply Forall_rev. exact Hall.
Qed.

Lemma last_rev_head {A} (l : list A) : last (rev l) = head l.
Proof.
  destruct l as [|x l]; [reflexivity|].
  simpl. apply last_snoc.
Qed.

Lemma rstrip_last (p : N -> bool) (s : pystr) (c : N) :
  last (rstrip p s) = Some c -> p c = false.
Proof.
  unfold rstrip. rewrite last_rev_head. apply lstrip_head.
Qed.

(** The stripped string is the original without a prefix and a suffix made
    of characters of the set, and it neither starts nor ends with one. *)
Lemma strip_with_split (p : N -> bool) (s : pystr) :
  exists pre post,
    s = pre ++ strip_with p s ++ post
    /\ Forall (fun c => p c = true) pre
    /\ Forall (fun c => p c = true) post
    /\ (forall c, head (strip_with p s) = Some c -> p c = false)
    /\ (forall c, last (strip_with p s) = Some c -> p c = false).
Proof.
  unfold strip_with.
  destruct (lstrip_split p s) as (pre & Hpre & Hall1).
  destruct (rstrip_split p (lstrip p s)) as (post & Hpost & Hall2).
  exists pre, post. repeat split; try assumption.
  - rewrite <- Hpost. exact Hpre.
  - intros c Hc. apply (lstrip_head p s).
    rewrite Hpost. destruct (rstrip p (lstrip p s)); [discriminate|exact Hc].
  - apply rstrip_last.
Qed.

Lemma strip_with_fixed (p : N -> bool) (s : pystr) :
  Forall (fun c => p c = false) s -> strip_with p s = s.
Proof.
  intros Hall. unfold strip_with, rstrip.
  assert (H1 : lstrip p s = s).
  { apply lstrip_fixed. intros c Hc. destruct s; [discriminate|].
    injection Hc as <-. inversion Hall; assumption. }
  rewrite H1.
  assert (H2 : lstrip p (rev s) = rev s).
  { apply lstrip_fixed. intros c Hc.
    apply Forall_rev in Hall. destruct (rev s); [discriminate|].
    injection Hc as <-. inversion Hall; assumption. }
  rewrite H2. apply rev_involutive.
Qed.

(** *** [int(str(z)) = z] *)

Lemma digits_acc_chars (d : Decimal.uint) :
  forall acc seen,
    digits_acc acc seen (chars_of_uint d) =
    match d with
    | Decimal.Nil => if seen then Some acc else None
    | _ => Some (uint_value acc d)
    end.
Proof.
  induction d; intros acc seen; simpl chars_of_uint; [reflexivity|..];
    cbn [digits_acc is_digit N.leb N.compare Pos.compare Pos.compare_cont
         andb Z.of_N]; rewrite IHd; destruct d; cbn [uint_value];
    try reflexivity; f_equal; f_equal; lia.
Qed.

Lemma uint_value_lu (d : Decimal.uint) :
  forall acc : N,
    uint_value (Z.of_N acc) d
    = Z.of_N (Unsigned.of_lu (Decimal.rev d) + acc * 10 ^ Unsigned.usize d).
Proof.
  induction d; intros acc; cbn [uint_value Unsigned.usize];
    [ unfold Decimal.rev; simpl; lia | .. ];
    unfold Decimal.rev; cbn [Decimal.revapp];
    rewrite Unsigned.of_lu_revapp; fold (Decimal.rev d);
    [ replace (10 * Z.of_N acc) with (Z.of_N (10 * acc)) by lia
    | replace (10 * Z.of_N acc + 1) with (Z.of_N (10 * acc + 1)) by lia
    | replace (10 * Z.of_N acc + 2) with (Z.of_N (10 * acc + 2)) by lia
    | replace (10 * Z.of_N acc + 3) with (Z.of_N (10 * acc + 3)) by lia
    | replace (10 * Z.of_N acc + 4) with (Z.of_N (10 * acc + 4)) by lia
    | replace (10 * Z.of_N acc + 5) with (Z.of_N (10 * acc + 5)) by lia
    | replace (10 * Z.of_N acc + 6) with (Z.of_N (10 * acc + 6)) by lia
    | replace (10 * Z.of_N acc + 7) with (Z.of_N (10 * acc + 7)) by lia
    | replace (10 * Z.of_N acc + 8) with (Z.of_N (10 * acc + 8)) by lia
    | replace (10 * Z.of_N acc + 9) with (Z.of_N (10 * acc + 9)) by lia ];
    rewrite IHd; f_equal; rewrite N.pow_succ_r'; cbn [Unsigned.of_lu]; lia.
Qed.

Lemma uint_value_to_uint (p : positive) :
  uint_value 0 (Pos.to_uint p) = Z.pos p.
Proof.
  change 0 with (Z.of_N 0). rewrite uint_value_lu.
  rewrite N.mul_0_l, N.add_0_r, <- Unsigned.of_uint_alt, Unsigned.of_to.
  reflexivity.
Qed.

Lemma chars_of_uint_digits (d : Decimal.uint) :
  Forall (fun c => is_digit c = true) (chars_of_uint d).
Proof. induction d; simpl; constructor; auto. Qed.

Lemma digit_not_space (c : N) : is_digit c = true -> is_space c = false.
Proof.
  unfold is_digit, is_space. intros H.
  apply andb_true_iff in H as [H1 H2].
  apply N.leb_le in H1. apply N.leb_le in H2.
  repeat match goal with
         | |- context [(?a <=? ?b)%N] => destruct (N.leb_spec a b); try lia
         | |- context [(?a =? ?b)%N] => destruct (N.eqb_spec a b); try lia
         end; reflexivity.
Qed.

Lemma strip_py_str (z : Z) : strip (py_str z) = py_str z.
Proof.
  unfold strip. apply strip_with_fixed.
  destruct z as [|p|p]; simpl.
  - repeat constructor.
  - eapply Forall_impl; [apply chars_of_uint_digits|].
    intros c; apply digit_not_space.
  - constructor; [reflexivity|].
    eapply Forall_impl; [apply chars_of_uint_digits|].
    intros c; apply digit_not_space.
Qed.

Lemma digit_not_c_space (c : N) : is_digit c = true -> is_c_space c = false.
Proof.
  unfold is_digit, is_c_space. intros H.
  apply andb_true_iff in H as [H1 H2].
  apply N.leb_le in H1. apply N.leb_le in H2.
  repeat match goal with
         | |- context [(?a <=? ?b)%N] => destruct (N.leb_spec a b); try lia
         | |- context [(?a =? ?b)%N] => destruct (N.eqb_spec a b); try lia
         end; reflexivity.
Qed.

Lemma digit_ascii (c : N) : is_digit c = true -> (c <? 127)%N = true.
Proof.
  unfold is_digit. intros H. apply andb_true_iff in H as [_ H].
  apply N.leb_le in H. apply N.ltb_lt. lia.
Qed.

Lemma py_str_ascii (z : Z) :
  Forall (fun c => (c <? 127)%N = true) (py_str z).
Proof.
  destruct z as [|p|p]; simpl.
  - repeat constructor.
  - eapply Forall_impl; [apply chars_of_uint_digits|].
    intros c; apply digit_ascii.
  - constructor; [reflexivity|].
    eapply Forall_impl; [apply chars_of_uint_digits|].
    intros c; apply digit_ascii.
Qed.

Lemma py_str_no_c_space (z : Z) :
  Forall (fun c => is_c_space c = false) (py_str z).
Proof.
  destruct z as [|p|p]; simpl.
  - repeat constructor.
  - eapply Forall_impl; [apply chars_of_uint_digits|].
    intros c; apply digit_not_c_space.
  - constructor; [reflexivity|].
    eapply Forall_impl; [apply chars_of_uint_digits|].
    intros c; apply digit_not_c_space.
Qed.

Section WithInterpreter.

Context `{interp : Interpreter}.

(** Text of code points below 127 goes to [int] as it is. *)
Lemma to_ascii_fixed (s : pystr) :
  Forall (fun c => (c <? 127)%N = true) s -> to_ascii s = s.
Proof.
  induction 1 as [|c s Hc _ IH]; [reflexivity|].
  cbn [to_ascii]. rewrite Hc, IH. reflexivity.
Qed.

(** What [write_current_index] writes, [read_current_index] reads back. *)
Lemma py_int_py_str (z : Z) : py_int (py_str z) = Ok z.
Proof.
  unfold py_int.
  rewrite (to_ascii_fixed _ (py_str_ascii z)).
  rewrite (strip_with_fixed _ _ (py_str_no_c_space z)).
  destruct z as [|p|p]; [reflexivity|..]; cbn [py_str];
    pose proof (digits_acc_chars (Pos.to_uint p) 0 false) as Hv;
    pose proof (Unsigned.to_uint_nonnil p) as Hn.
  - destruct (Pos.to_uint p) eqn:E; [contradiction|..];
      cbn [chars_of_uint] in *; rewrite Hv, <- E, uint_value_to_uint;
      reflexivity.
  - rewrite Hv.
    destruct (Pos.to_uint p) eqn:E; [contradiction|..];
      rewrite <- E, uint_value_to_uint; reflexivity.
Qed.

(** What [int] reads under the limit on the length of numerals, it reads
    without the limit. *)
Lemma int_of_str_py_int (s : pystr) (v : Z) :
  int_of_str s = Ok v -> py_int s = Ok v.
Proof.
  unfold int_of_str. destruct (_ <? _); [discriminate|auto].
Qed.

End WithInterpreter.

Lemma getitem_in_range {A} (l : list A) (i : Z) (d : A) :
  0 <= i < len l -> getitem l i = Ok (nth (Z.to_nat i) l d).
Proof.
  unfold getitem, len. intros Hi.
  destruct (Z.ltb_spec i 0); [lia|].
  destruct (Z.ltb_spec i 0); [lia|].
  destruct (Z.leb_spec (Z.of_nat (length l)) i); [lia|]. simpl.
  destruct (nth_error l (Z.to_nat i)) eqn:E.
  - rewrite (nth_error_nth _ _ _ E). reflexivity.
  - apply nth_error_None in E. lia.
Qed.

Lemma getitem_out_of_range {A} (l : list A) (i : Z) :
  ~ (- len l <= i < len l) -> getitem l i = Raise IndexError.
Proof.
  unfold getitem. intros H.
  destruct (Z.ltb_spec i 0).
  - destruct (Z.ltb_spec (i + len l) 0); [reflexivity|].
    destruct (Z.leb_spec (len l) (i + len l)); [reflexivity|lia].
  - destruct (Z.ltb_spec i 0); [lia|].
    destruct (Z.leb_spec (len l) i); [reflexivity|lia].
Qed.

End PyFacts.

(* --------------------------------------------------------------------- *)
(** ** The looper: range, position file, cache *)
(* --------------------------------------------------------------------- *)

Module LooperFacts.
Import Py Looper PyFacts.

(** *** Range normalisation *)

Lemma normalize_range_ordered (total s e : Z) :
  fst (normalize_range total s e) <= snd (normalize_range total s e).
Proof. unfold normalize_range. case_compare; simpl; lia. Qed.

(** The three steps bring the range inside the data when the raw start is
    not beyond the last row and the raw end is not negative. *)
Lemma normalize_range_in_bounds (total s e : Z) :
  1 <= total -> s <= total - 1 -> 0 <= e ->
  0 <= fst (normalize_range total s e)
  /\ fst (normalize_range total s e) <= snd (normalize_range total s e)
  /\ snd (normalize_range total s e) <= total - 1.
Proof.
  intros Ht Hs He. unfold normalize_range. case_compare; simpl; lia.
Qed.

Lemma normalize_range_fixed (total a b : Z) :
  0 <= a -> a <= b -> b <= total - 1 -> normalize_range total a b = (a, b).
Proof.
  intros Ha Hab Hb. unfold normalize_range.
  case_compare; try lia; reflexivity.
Qed.

Section WithInterpreter.

Context `{interp : Interpreter}.

(** *** The position file *)

Lemma read_current_index_written sf a v w :
  read_current_index sf a (write_current_index sf v w) = v.
Proof.
  unfold read_current_index, write_current_index. simpl.
  rewrite lookup_insert_eq, strip_py_str, py_int_py_str. reflexivity.
Qed.

Lemma read_current_index_ok sf a b w :
  a <= b -> state_file_ok sf a b w -> a <= read_current_index sf a w <= b.
Proof.
  unfold state_file_ok, read_current_index. intros Hab.
  destruct (files w !! sf) as [text|]; [|lia].
  destruct (py_int (strip text)); lia.
Qed.

(** With the limit on the length of numerals the position read is the
    integer the file holds, or the start index. *)
Lemma limited_position_ok (a b : Z) (text : pystr) :
  a <= b ->
  (forall v, int_of_str (strip text) = Ok v -> a <= v <= b) ->
  a <= match int_of_str (strip text) with
       | Ok val => val
       | Raise _ => a
       end <= b.
Proof.
  intros Hab Hok.
  destruct (int_of_str (strip text)) as [v|e]; [apply Hok; reflexivity|lia].
Qed.

Lemma read_current_index_limited sf a w text v :
  files w !! sf = Some text -> int_of_str (strip text) = Ok v ->
  read_current_index sf a w = v.
Proof.
  intros Hf Hint. unfold read_current_index.
  rewrite Hf, (int_of_str_py_int _ _ Hint). reflexivity.
Qed.

Lemma state_file_ok_written sf a b v w :
  a <= v <= b -> state_file_ok sf a b (write_current_index sf v w).
Proof.
  intros Hv. unfold state_file_ok, write_current_index. simpl.
  rewrite lookup_insert_eq, strip_py_str, py_int_py_str. exact Hv.
Qed.

Lemma state_file_ok_files sf a b w1 w2 :
  files w1 = files w2 -> state_file_ok sf a b w1 -> state_file_ok sf a b w2.
Proof. unfold state_file_ok. intros ->. tauto. Qed.

(** *** Mode selection *)

Lemma choose_index_increment rnd sf a b s w :
  choose_index rnd (py "increment") sf a b s w
  = (Ok (read_current_index sf a w),
     write_current_index sf
       (if b <? read_current_index sf a w + s then a
        else read_current_index sf a w + s) w).
Proof. reflexivity. Qed.

Lemma choose_index_cache rnd mode sf a b s w r w' :
  choose_index rnd mode sf a b s w = (r, w') ->
  file_path_cache w' = file_path_cache w
  /\ file_data_cache w' = file_data_cache w.
Proof.
  unfold choose_index.
  repeat match goal with |- context [if ?c then _ else _] => destruct c end;
    intros [= <- <-]; auto.
Qed.

Lemma choose_index_in_range rnd mode sf a b step w :
  a <= b ->
  (mode = py "increment" -> state_file_ok sf a b w) ->
  exists i w',
    choose_index rnd mode sf a b step w = (Ok i, w')
    /\ a <= i <= b
    /\ (mode = py "increment" -> 0 < step -> state_file_ok sf a b w').
Proof.
  intros Hab Hok. unfold choose_index.
  destruct (str_eqb mode (py "disabled")) eqn:E1.
  { apply str_eqb_true in E1. exists a, w. repeat split; try lia.
    intros ->. discriminate. }
  destruct (str_eqb mode (py "random")) eqn:E2.
  { apply str_eqb_true in E2. unfold randint.
    destruct (Z.ltb_spec b a); [lia|].
    pose proof (Z.mod_pos_bound rnd (b - a + 1) ltac:(lia)).
    eexists _, w. repeat split; try lia.
    intros ->. discriminate. }
  destruct (str_eqb mode (py "increment")) eqn:E3.
  { apply str_eqb_true in E3. specialize (Hok E3).
    pose proof (read_current_index_ok sf a b w Hab Hok) as Hi.
    eexists _, _. split; [reflexivity|]. split; [exact Hi|].
    intros _ Hstep. apply state_file_ok_written.
    destruct (Z.ltb_spec b (read_current_index sf a w + step)); lia. }
  exists a, w. repeat split; try lia.
  intros ->. discriminate.
Qed.

(** *** The arithmetic of the cycle *)

Lemma period_pos a b s : a <= b -> 0 < s -> 1 <= period a b s.
Proof.
  intros Hab Hs. unfold period.
  assert (0 <= (b - a) / s) by (apply Z.div_pos; lia). lia.
Qed.

Lemma visit_zero a b s : a <= b -> 0 < s -> visit a b s 0 = a.
Proof.
  intros Hab Hs. unfold visit. rewrite Z.mod_0_l; [lia|].
  pose proof (period_pos a b s Hab Hs). lia.
Qed.

Lemma visit_bounds a b s k :
  a <= b -> 0 < s -> a <= visit a b s k <= b.
Proof.
  intros Hab Hs. unfold visit.
  pose proof (period_pos a b s Hab Hs) as Hp.
  pose proof (Z.mod_pos_bound (Z.of_nat k) (period a b s) ltac:(lia)) as Hm.
  assert (Hq : (Z.of_nat k mod period a b s) <= (b - a) / s)
    by (unfold period in *; lia).
  assert (Hd : s * ((b - a) / s) <= b - a)
    by (apply Z.mul_div_le; lia).
  nia.
Qed.

Lemma visit_succ a b s k :
  a <= b -> 0 < s ->
  visit a b s (S k)
  = if b <? visit a b s k + s then a else visit a b s k + s.
Proof.
  intros Hab Hs. unfold visit.
  pose proof (period_pos a b s Hab Hs) as Hp.
  set (p := period a b s) in *.
  pose proof (Z.mod_pos_bound (Z.of_nat k) p ltac:(lia)) as Hm.
  set (m := Z.of_nat k mod p) in *.
  assert (Hd1 : s * ((b - a) / s) <= b - a) by (apply Z.mul_div_le; lia).
  assert (Hd2 : b - a < s * ((b - a) / s + 1)).
  { pose proof (Z.mod_pos_bound (b - a) s Hs).
    pose proof (Z.div_mod (b - a) s ltac:(lia)). lia. }
  assert (Hp' : p = (b - a) / s + 1) by reflexivity.
  replace (Z.of_nat (S k)) with (Z.of_nat k + 1) by lia.
  rewrite Zplus_mod.
  fold m.
  destruct (Z.eq_dec (m + 1) p) as [E|E].
  - (* the last position of the period: wrap *)
    assert (H1 : (m + 1 mod p) mod p = 0).
    { destruct (Z.eq_dec p 1) as [P1|P1].
      - rewrite P1. rewrite Z.mod_1_r. reflexivity.
      - rewrite (Z.mod_small 1 p) by lia. rewrite E. apply Z.mod_same. lia. }
    rewrite H1.
    destruct (Z.ltb_spec b (a + m * s + s)); [lia|]. nia.
  - assert (H1 : (m + 1 mod p) mod p = m + 1).
    { rewrite (Z.mod_small 1 p) by lia. apply Z.mod_small. lia. }
    rewrite H1.
    destruct (Z.ltb_spec b (a + m * s + s)); [nia|lia].
Qed.

Lemma visit_periodic a b s k :
  a <= b -> 0 < s ->
  visit a b s (k + Z.to_nat (period a b s)) = visit a b s k.
Proof.
  intros Hab Hs. unfold visit.
  pose proof (period_pos a b s Hab Hs) as Hp.
  rewrite Nat2Z.inj_add, Z2Nat.id by lia.
  rewrite <- (Z.mul_1_l (period a b s)) at 1.
  rewrite Z.mod_add by lia. reflexivity.
Qed.

Lemma visit_injective a b s j k :
  a <= b -> 0 < s ->
  Z.of_nat j < period a b s -> Z.of_nat k < period a b s ->
  visit a b s j = visit a b s k -> j = k.
Proof.
  intros Hab Hs Hj Hk. unfold visit.
  rewrite !Z.mod_small by lia. nia.
Qed.

Section Reader.

Variable csv_reader : pystr -> pystr -> result (list (list pystr)).

(** *** The cache *)

Lemma load_file_cached (p d : pystr) (w : world) :
  file_path_cache w = Some p ->
  load_file csv_reader p d w = (Ok (file_data_cache w), w).
Proof.
  intros H. unfold load_file. rewrite bool_decide_eq_true_2 by exact H.
  reflexivity.
Qed.

Lemma load_file_ok (p d : pystr) (w w1 : world) data :
  load_file csv_reader p d w = (Ok data, w1) ->
  file_path_cache w1 = Some p /\ file_data_cache w1 = data
  /\ files w1 = files w.
Proof.
  unfold load_file.
  destruct (bool_decide_reflect (file_path_cache w = Some p)) as [Hc|Hc];
    simpl.
  - intros [= <- <-]. auto.
  - destruct (files w !! p) as [text|]; [|discriminate].
    destruct (negb _); [discriminate|].
    destruct (csv_reader d text) as [rows|e]; [|discriminate].
    intros [= <- <-]. simpl. auto.
Qed.

(** *** One call *)

(** What a successful call went through. *)
Lemma read_row_try_ok rnd p mode s e st d w i text w' :
  read_row_try csv_reader rnd p mode s e st d w = (Ok (i, text), w') ->
  exists data wl row,
    load_file csv_reader p d w = (Ok (Some data), wl)
    /\ choose_index rnd mode
         (get_state_file_path p
            (fst (normalize_range (len data) s e))
            (snd (normalize_range (len data) s e)) st mode)
         (fst (normalize_range (len data) s e))
         (snd (normalize_range (len data) s e)) st wl = (Ok i, w')
    /\ getitem data i = Ok row
    /\ text = strip_chars STRIP_CHARS (join d row).
Proof.
  unfold read_row_try.
  destruct (load_file csv_reader p d w) as [[data|e0] wl] eqn:Hload;
    [|discriminate].
  destruct data as [data|]; cbn [get_row_count]; [|discriminate].
  destruct (normalize_range (len data) s e) as [a b] eqn:Hn. cbn [fst snd].
  destruct (choose_index rnd mode _ a b st wl) as [[j|e1] w2] eqn:Hc;
    [|discriminate].
  change (default [] (Some data)) with data.
  destruct (getitem data j) as [row|e2] eqn:Hg; [|discriminate].
  intros [= <- <- <-].
  exists data, wl, row. rewrite Hn. cbn [fst snd].
  repeat split; try assumption; reflexivity.
Qed.

Lemma read_row_try_cache rnd p mode s e st d w r w' data wl :
  load_file csv_reader p d w = (Ok data, wl) ->
  read_row_try csv_reader rnd p mode s e st d w = (r, w') ->
  file_path_cache w' = file_path_cache wl
  /\ file_data_cache w' = file_data_cache wl.
Proof.
  intros Hload. unfold read_row_try. rewrite Hload.
  destruct (get_row_count data) as [total|e0]; [|intros [= <- <-]; auto].
  destruct (normalize_range total s e) as [a b].
  destruct (choose_index rnd mode _ a b st wl) as [[j|e1] w2] eqn:Hc;
    apply choose_index_cache in Hc.
  - destruct (getitem (default [] data) j); intros [= <- <-]; exact Hc.
  - intros [= <- <-]. exact Hc.
Qed.

Lemma read_row_raise rnd p mode s e st d w x w' :
  read_row_try csv_reader rnd p mode s e st d w = (Raise x, w') ->
  read_row csv_reader rnd p mode s e st d w = ([], w').
Proof. intros H. unfold read_row. rewrite H. reflexivity. Qed.

(** One increment-mode call from a position of the range. *)
Lemma read_row_try_increment
    (file_path delimiter : pystr) (a b s : Z)
    (data : list (list pystr)) (w wl : world) :
  let sf := get_state_file_path file_path a b s (py "increment") in
  load_file csv_reader file_path delimiter w = (Ok (Some data), wl) ->
  0 <= a -> a <= b -> b <= len data - 1 ->
  a <= read_current_index sf a w <= b ->
  read_row_try csv_reader 0 file_path (py "increment") a b s delimiter w
  = (Ok (read_current_index sf a w,
         row_text delimiter data (read_current_index sf a w)),
     write_current_index sf
       (if b <? read_current_index sf a w + s then a
        else read_current_index sf a w + s) wl).
Proof.
  intros sf Hload Ha Hab Hb Hi.
  unfold read_row_try. rewrite Hload. cbn [get_row_count].
  rewrite (normalize_range_fixed _ _ _ Ha Hab Hb).
  rewrite choose_index_increment. fold sf.
  destruct (load_file_ok _ _ _ _ _ Hload) as (_ & _ & Hfiles).
  assert (Hcur : read_current_index sf a wl = read_current_index sf a w).
  { unfold read_current_index. rewrite Hfiles. reflexivity. }
  rewrite Hcur. change (default [] (Some data)) with data.
  rewrite (getitem_in_range data _ []) by lia.
  reflexivity.
Qed.

(** [n] calls starting at position number [k] of the cycle. *)
Lemma read_rows_from
    (file_path delimiter : pystr) (a b s : Z) (data : list (list pystr)) :
  let sf := get_state_file_path file_path a b s (py "increment") in
  0 <= a -> a <= b -> b <= len data - 1 -> 0 < s ->
  forall (n k : nat) (w wl : world),
    load_file csv_reader file_path delimiter w = (Ok (Some data), wl) ->
    read_current_index sf a w = visit a b s k ->
    fst (read_rows csv_reader n file_path a b s delimiter w)
    = List.map (fun j => Ok (visit a b s j,
                             row_text delimiter data (visit a b s j)))
               (seq k n)
    /\ (n <> O ->
        files (snd (read_rows csv_reader n file_path a b s delimiter w))
          !! sf = Some (py_str (visit a b s (k + n)))).
Proof.
  intros sf Ha Hab Hb Hs n.
  induction n as [|n IH]; intros k w wl Hload Hcur.
  - split; [reflexivity | congruence].
  - cbn [read_rows].
    pose proof (visit_bounds a b s k Hab Hs) as Hvk.
    rewrite (read_row_try_increment file_path delimiter a b s data w wl)
      by (try assumption; fold sf; rewrite Hcur; exact Hvk).
    fold sf. rewrite Hcur, <- (visit_succ a b s k Hab Hs).
    set (w1 := write_current_index sf (visit a b s (S k)) wl).
    destruct (load_file_ok _ _ _ _ _ Hload) as (Hp & Hd & _).
    assert (Hload1 :
      load_file csv_reader file_path delimiter w1 = (Ok (Some data), w1)).
    { rewrite load_file_cached by exact Hp.
      unfold w1. simpl. rewrite Hd. reflexivity. }
    assert (Hcur1 : read_current_index sf a w1 = visit a b s (S k))
      by apply read_current_index_written.
    specialize (IH (S k) w1 w1 Hload1 Hcur1).
    destruct (read_rows csv_reader n file_path a b s delimiter w1)
      as [rs w2] eqn:E.
    simpl in IH. destruct IH as [IH1 IH2]. simpl. split.
    + rewrite IH1. reflexivity.
    + intros _. destruct n as [|n].
      * simpl in E. injection E as <- <-.
        unfold w1. simpl. rewrite lookup_insert_eq.
        replace (k + 1)%nat with (S k) by lia. reflexivity.
      * rewrite IH2 by discriminate.
        do 3 f_equal. lia.
Qed.

End Reader.

End WithInterpreter.

End LooperFacts.

Module LooperSpec.
Import Py Looper PyFacts LooperFacts Examples.

Section WithInterpreter.

Context `{interp : Interpreter}.

(** C1 (the code at the failing input).  With five rows, a raw start of 10
    and a raw end of 2, the three normalisation steps of [read_row] leave the
    start alone, keep the end, and swap: the resulting range is [2, 10],
    whose end lies beyond the last row (index 4).  The "disabled" mode then
    serves row 2, and the increment cycle runs into rows that do not exist,
    where the call returns the empty string. *)
Theorem normalize_range_start_beyond_rows :
  normalize_range 5 10 2 = (2, 10)
  /\ ~ (snd (normalize_range 5 10 2) <= 5 - 1)
  /\ fst (read_row_try plain_csv_reader 0 csv_path (py "disabled") 10 2 1
                       (py ",") w_fresh)
     = Ok (2, py "r2,c")
  /\ List.map (fun r => match r with Ok (i, _) => Some i | Raise _ => None end)
       (fst (read_rows plain_csv_reader 5 csv_path 10 2 1 (py ",") w_fresh))
     = [Some 2; Some 3; Some 4; None; None].
Proof.
  split; [reflexivity|]. split; [vm_compute; intros H; apply H; reflexivity|].
  split; vm_compute; reflexivity.
Qed.

Section Reader.

Variable csv_reader : pystr -> pystr -> result (list (list pystr)).

(** C2.  Increment mode, starting without a position file, on a range
    [a, b] that normalisation leaves as it is ([0 <= a <= b <= rows - 1])
    and with a step [s > 0]: the [n] calls return, in order, the rows at
    [visit a b s k = a + (k mod period) * s] for [k = 0 .. n-1], where
    [period = (b - a) / s + 1]; after the calls the position file holds the
    next position.  The sequence starts at [a], each position is the
    previous one plus [s], wrapped to [a] exactly when that sum exceeds [b];
    it repeats after [period] calls and not earlier. *)
Theorem increment_mode_cycles
    (file_path delimiter : pystr) (a b s : Z)
    (data : list (list pystr)) (w wl : world) (n : nat) :
  let sf := get_state_file_path file_path a b s (py "increment") in
  load_file csv_reader file_path delimiter w = (Ok (Some data), wl) ->
  0 <= a -> a <= b -> b <= len data - 1 -> 0 < s ->
  files w !! sf = None ->
  fst (read_rows csv_reader n file_path a b s delimiter w)
  = List.map (fun k => Ok (visit a b s k,
                           row_text delimiter data (visit a b s k)))
             (seq 0 n)
  /\ (n <> O ->
      files (snd (read_rows csv_reader n file_path a b s delimiter w)) !! sf
      = Some (py_str (visit a b s n)))
  /\ visit a b s 0 = a
  /\ (forall k, visit a b s (S k)
                = if b <? visit a b s k + s then a else visit a b s k + s)
  /\ (forall k, visit a b s (k + Z.to_nat (period a b s)) = visit a b s k)
  /\ (forall j k, Z.of_nat j < period a b s -> Z.of_nat k < period a b s ->
                  visit a b s j = visit a b s k -> j = k).
Proof.
  intros sf Hload Ha Hab Hb Hs Hnone.
  pose proof (visit_zero a b s Hab Hs) as H0.
  assert (Hcur : read_current_index sf a w = visit a b s 0).
  { unfold read_current_index. rewrite Hnone. symmetry. exact H0. }
  destruct (read_rows_from csv_reader file_path delimiter a b s data
              Ha Hab Hb Hs n 0%nat w wl Hload Hcur) as [H1 H2].
  repeat split.
  - exact H1.
  - exact H2.
  - exact H0.
  - intros k. apply visit_succ; assumption.
  - intros k. apply visit_periodic; assumption.
  - intros j k. apply visit_injective; assumption.
Qed.

(** C3, as amended.  Once the file is loaded, the index [read_row] selects
    lies within the normalised range [start_index, end_index] in the
    "disabled" and "random" modes (and for any other mode string), and in
    the "increment" mode provided the position file is absent, unreadable as
    an integer, or holds an integer of that range; the position written back
    is then again in the range.  A call that returns a row returns the row
    of that index.  On an interpreter that limits the length of numerals
    the position read is the integer the file holds, as it is read here, or
    the start index when the numeral is longer than the limit: it lies in
    the range whenever the integer does. *)
Theorem selected_index_in_range
    (rnd : Z) (file_path mode delimiter : pystr) (raw_start raw_end step : Z)
    (data : list (list pystr)) (w wl : world) :
  let start_index := fst (normalize_range (len data) raw_start raw_end) in
  let end_index := snd (normalize_range (len data) raw_start raw_end) in
  let state_file :=
    get_state_file_path file_path start_index end_index step mode in
  load_file csv_reader file_path delimiter w = (Ok (Some data), wl) ->
  (mode = py "increment" -> state_file_ok state_file start_index end_index w) ->
  exists i w',
    choose_index rnd mode state_file start_index end_index step wl
    = (Ok i, w')
    /\ start_index <= i <= end_index
    /\ (mode = py "increment" -> 0 < step ->
        state_file_ok state_file start_index end_index w')
    /\ (forall j text w2,
          read_row_try csv_reader rnd file_path mode raw_start raw_end step
                       delimiter w = (Ok (j, text), w2) ->
          j = i /\ w2 = w')
    /\ (forall text,
          files w !! state_file = Some text ->
          (forall v, int_of_str (strip text) = Ok v ->
                     read_current_index state_file start_index w = v)
          /\ ((forall v, int_of_str (strip text) = Ok v ->
                         start_index <= v <= end_index) ->
              start_index <= match int_of_str (strip text) with
                             | Ok val => val
                             | Raise _ => start_index
                             end <= end_index)).
Proof.
  intros a b sf Hload Hok.
  pose proof (normalize_range_ordered (len data) raw_start raw_end) as Hab.
  fold a b in Hab.
  destruct (load_file_ok csv_reader _ _ _ _ _ Hload) as (_ & _ & Hfiles).
  assert (Hok' : mode = py "increment" -> state_file_ok sf a b wl).
  { intros Hm. apply (state_file_ok_files sf a b w wl); auto. }
  destruct (choose_index_in_range rnd mode sf a b step wl Hab Hok')
    as (i & w' & Hc & Hi & Hnext).
  exists i, w'. split; [exact Hc|]. split; [exact Hi|].
  split; [exact Hnext|]. split.
  - intros j text w2 Hrun.
    destruct (read_row_try_ok csv_reader _ _ _ _ _ _ _ _ _ _ _ Hrun)
      as (data' & wl' & row & Hload' & Hc' & _ & _).
    rewrite Hload in Hload'. injection Hload' as <- <-.
    fold a b sf in Hc'. split; congruence.
  - intros text Hf. split.
    + intros v Hint. apply (read_current_index_limited sf a w text v Hf Hint).
    + apply limited_position_ok. exact Hab.
Qed.

(** C8, as amended.  For every row that [read_row] returns, the text is the
    cells of that row joined by the caller's delimiter, from which a prefix
    and a suffix made only of the four characters space, ASCII double quote,
    left smart quote and right smart quote have been removed; what remains
    neither starts nor ends with one of the four. *)
Theorem row_text_is_stripped_join
    (rnd : Z) (file_path mode delimiter : pystr) (raw_start raw_end step : Z)
    (w w' : world) (i : Z) (text : pystr) :
  read_row_try csv_reader rnd file_path mode raw_start raw_end step
               delimiter w = (Ok (i, text), w') ->
  read_row csv_reader rnd file_path mode raw_start raw_end step delimiter w
  = (text, w')
  /\ exists data wl row pre post,
      load_file csv_reader file_path delimiter w = (Ok (Some data), wl)
      /\ getitem data i = Ok row
      /\ join delimiter row = pre ++ text ++ post
      /\ Forall (fun c => In c [32%N; QUOTE; LDQUO; RDQUO]) pre
      /\ Forall (fun c => In c [32%N; QUOTE; LDQUO; RDQUO]) post
      /\ (forall c, head text = Some c -> ~ In c [32%N; QUOTE; LDQUO; RDQUO])
      /\ (forall c, last text = Some c -> ~ In c [32%N; QUOTE; LDQUO; RDQUO]).
Proof.
  intros Hrun. split.
  - unfold read_row. rewrite Hrun. reflexivity.
  - destruct (read_row_try_ok csv_reader _ _ _ _ _ _ _ _ _ _ _ Hrun)
      as (data & wl & row & Hload & _ & Hg & ->).
    destruct (strip_with_split (mem_char STRIP_CHARS) (join delimiter row))
      as (pre & post & Heq & Hpre & Hpost & Hhd & Hlast).
    exists data, wl, row, pre, post. unfold strip_chars.
    change [32%N; QUOTE; LDQUO; RDQUO] with STRIP_CHARS.
    repeat split; try assumption.
    + eapply Forall_impl; [exact Hpre|]. intros c. apply mem_char_In.
    + eapply Forall_impl; [exact Hpost|]. intros c. apply mem_char_In.
    + intros c Hc Hin. apply mem_char_In in Hin.
      rewrite (Hhd c Hc) in Hin. discriminate.
    + intros c Hc Hin. apply mem_char_In in Hin.
      rewrite (Hlast c Hc) in Hin. discriminate.
Qed.

(** C10.  The cache is keyed by the path alone.  When a call of [read_row]
    with delimiter [d1] has loaded the file, the load of the next call with
    the same path returns the very same rows and leaves the world as it is,
    whatever delimiter [d2] that call passes; and when the first call read
    the file (nothing was cached for the path), those rows are the text of
    the file parsed with [d1]. *)
Theorem cache_ignores_delimiter
    (rnd : Z) (file_path mode d1 d2 : pystr) (raw_start raw_end step : Z)
    (w wl w1 : world) (data : option (list (list pystr)))
    (r1 : result (Z * pystr)) :
  load_file csv_reader file_path d1 w = (Ok data, wl) ->
  read_row_try csv_reader rnd file_path mode raw_start raw_end step d1 w
  = (r1, w1) ->
  load_file csv_reader file_path d2 w1 = (Ok data, w1)
  /\ (file_path_cache w <> Some file_path ->
      exists text rows,
        files w !! file_path = Some text
        /\ csv_reader d1 text = Ok rows
        /\ data = Some rows).
Proof.
  intros Hload Hrun.
  destruct (load_file_ok csv_reader _ _ _ _ _ Hload) as (Hp & Hd & _).
  destruct (read_row_try_cache csv_reader _ _ _ _ _ _ _ _ _ _ _ _ Hload Hrun)
    as [Hp1 Hd1].
  split.
  - rewrite load_file_cached by congruence. congruence.
  - intros Hcold. revert Hload. unfold load_file.
    rewrite bool_decide_eq_false_2 by exact Hcold. simpl.
    destruct (files w !! file_path) as [text|]; [|discriminate].
    destruct (negb _); [discriminate|].
    destruct (csv_reader d1 text) as [rows|e] eqn:Hr; [|discriminate].
    intros [= <- _]. exists text, rows. auto.
Qed.

End Reader.

End WithInterpreter.

(** The examples run on the interpreter of [Examples]. *)
#[local] Existing Instance sample_interpreter.

(** C2 at the example of the specification: five rows, range [1, 3], step 1,
    five calls. *)
Lemma increment_mode_cycles_witness :
  List.map (fun r => match r with Ok (i, _) => Some i | Raise _ => None end)
    (fst (read_rows plain_csv_reader 5 csv_path 1 3 1 (py ",") w_fresh))
  = [Some 1; Some 2; Some 3; Some 1; Some 2].
Proof.
  destruct (increment_mode_cycles plain_csv_reader csv_path (py ",") 1 3 1
              rows5 w_fresh w_loaded 5%nat) as [H _].
  - vm_compute. reflexivity.
  - lia.
  - lia.
  - unfold len. simpl. lia.
  - lia.
  - vm_compute. reflexivity.
  - rewrite H. vm_compute. reflexivity.
Defined.

(** C3 as stated fails: a position file that holds 4 makes the increment
    mode select index 4, outside the normalised range [1, 3], and the call
    returns that row. *)
Lemma stale_position_escapes_range :
  normalize_range 5 1 3 = (1, 3)
  /\ get_state_file_path csv_path 1 3 1 (py "increment") = state_path
  /\ files w_stale !! state_path = Some (py "4")
  /\ fst (read_row_try plain_csv_reader 0 csv_path (py "increment") 1 3 1
                       (py ",") w_stale)
     = Ok (4, py "r4,e")
  /\ ~ (1 <= 4 <= 3).
Proof.
  split; [reflexivity|]. split; [vm_compute; reflexivity|].
  split; [vm_compute; reflexivity|].
  split; [vm_compute; reflexivity|]. lia.
Qed.

(** C3 on the example with a position file that holds the digit two of
    another script: [int] reads 2, and the increment-mode call selects
    index 2 of the range [1, 3]. *)
Lemma selected_index_in_range_witness :
  exists w',
    choose_index 0 (py "increment") state_path 1 3 1
      (snd (load_file plain_csv_reader csv_path (py ",") w_script))
    = (Ok 2, w').
Proof.
  destruct (selected_index_in_range plain_csv_reader 0 csv_path
              (py "increment") (py ",") 1 3 1 rows5 w_script
              (snd (load_file plain_csv_reader csv_path (py ",") w_script)))
    as (i & w' & Hc & Hi & _).
  - vm_compute. reflexivity.
  - intros _. vm_compute. split; discriminate.
  - exists w'.
    assert (Hi2 : i = 2).
    { revert Hc. vm_compute. intros [= <- _]. reflexivity. }
    rewrite <- Hi2. exact Hc.
Defined.

(** C8 as stated fails: the third row of the example starts with a space,
    which is no quote character, and the returned text has lost it. *)
Lemma strip_removes_spaces :
  fst (read_row plain_csv_reader 0 csv_path (py "disabled") 2 2 1 (py ",")
                w_fresh)
  = py "r2,c"
  /\ spec_strip_quotes (join (py ",") (nth 2 rows5 [])) = py " r2,c"
  /\ fst (read_row plain_csv_reader 0 csv_path (py "disabled") 2 2 1 (py ",")
                   w_fresh)
     <> spec_strip_quotes (join (py ",") (nth 2 rows5 [])).
Proof.
  split; [vm_compute; reflexivity|]. split; [vm_compute; reflexivity|].
  vm_compute. discriminate.
Qed.

(** C8 on the third row of the example. *)
Lemma row_text_is_stripped_join_witness :
  read_row plain_csv_reader 0 csv_path (py "disabled") 2 2 1 (py ",") w_fresh
  = (py "r2,c", w_loaded).
Proof.
  apply (row_text_is_stripped_join plain_csv_reader 0 csv_path
           (py "disabled") (py ",") 2 2 1 w_fresh w_loaded 2 (py "r2,c")).
  vm_compute. reflexivity.
Defined.

(** C10 on a file whose line splits differently at a comma and at a
    semicolon: after a call with the comma, a load with the semicolon still
    gives the rows of the comma. *)
Lemma cache_ignores_delimiter_witness :
  plain_csv_reader (py ";") (py "a;b,c" ++ [NL]) = Ok [[py "a"; py "b,c"]]
  /\ load_file plain_csv_reader mixed_path (py ";")
       (snd (read_row_try plain_csv_reader 0 mixed_path (py "disabled") 0 0 1
                          (py ",") w_mixed))
     = (Ok (Some [[py "a;b"; py "c"]]),
        snd (read_row_try plain_csv_reader 0 mixed_path (py "disabled") 0 0 1
                          (py ",") w_mixed)).
Proof.
  split; [vm_compute; reflexivity|].
  apply (cache_ignores_delimiter plain_csv_reader 0 mixed_path
           (py "disabled") (py ",") (py ";") 0 0 1 w_mixed
           (snd (load_file plain_csv_reader mixed_path (py ",") w_mixed))
           (snd (read_row_try plain_csv_reader 0 mixed_path (py "disabled")
                              0 0 1 (py ",") w_mixed))
           (Some [[py "a;b"; py "c"]])
           (fst (read_row_try plain_csv_reader 0 mixed_path (py "disabled")
                              0 0 1 (py ",") w_mixed))).
  - vm_compute. reflexivity.
  - apply surjective_pairing.
Defined.

End LooperSpec.

(* --------------------------------------------------------------------- *)
(** ** The patterns match only where their label stands *)
(* --------------------------------------------------------------------- *)

Module ReFacts.
Import Py Re PyFacts.

Lemma star_reaches p k prev s r :
  star p k prev s = Some r ->
  exists pre prev' s', s = pre ++ s' /\ k prev' s' = Some r.
Proof.
  revert prev. induction s as [|c s IH]; intros prev; simpl.
  - intros H. exists [], prev, []. auto.
  - destruct (p c).
    + destruct (star p k (Some c) s) as [r'|] eqn:E.
      * intros [= <-]. destruct (IH _ E) as (pre & prev' & s' & -> & Hk).
        exists (c :: pre), prev', s'. auto.
      * intros H. exists [], prev, (c :: s). auto.
    + intros H. exists [], prev, (c :: s). auto.
Qed.

Lemma run_lits (label : pystr) (re : list node) k g :
  forall prev s r,
    run (List.map (fun c => Q (Lit c) One) label ++ re) k g prev s = Some r ->
    exists mid prev' s',
      s = mid ++ s'
      /\ Forall2 (fun c x => lit_matches c x = true) label mid
      /\ run re k g prev' s' = Some r.
Proof.
  induction label as [|c label IH]; intros prev s r; cbn [List.map app run].
  - intros H. exists [], prev, s. repeat split; [constructor|exact H].
  - unfold one. destruct s as [|x s]; [discriminate|].
    cbn [atom_matches].
    destruct (lit_matches c x) eqn:Hm; [|discriminate].
    intros H. destruct (IH _ _ _ H) as (mid & prev' & s' & -> & Hall & Hrun).
    exists (x :: mid), prev', s'. repeat split; [constructor|]; assumption.
Qed.

Lemma search_from_reaches re :
  forall s prev g,
    search_from re prev s = Some g ->
    exists pre prev' s',
      s = pre ++ s' /\ run re accept ([], []) prev' s' = Some g.
Proof.
  induction s as [|c s IH]; intros prev g; simpl.
  - destruct (run re accept ([], []) prev []) eqn:E; [|discriminate].
    intros [= <-]. exists [], prev, []. auto.
  - destruct (run re accept ([], []) prev (c :: s)) eqn:E.
    + intros [= <-]. exists [], prev, (c :: s). auto.
    + intros H. destruct (IH _ _ H) as (pre & prev' & s' & -> & Hrun).
      exists (c :: pre), prev', s'. auto.
Qed.

(** A pattern that begins [^\s*LABEL] matches only where the label stands. *)
Lemma search_label (label : string) (rest : list node) (subject : pystr) g :
  search ([Bol; Q Space Star] ++ lits label ++ rest) subject = Some g ->
  has_label (py label) subject.
Proof.
  unfold search. intros H.
  destruct (search_from _ None subject) as [caps0|] eqn:E; [|discriminate].
  destruct (search_from_reaches _ _ _ _ E) as (pre1 & prev1 & s1 & -> & Hrun).
  cbn [app run] in Hrun.
  destruct (at_bol prev1); [|discriminate].
  apply star_reaches in Hrun as (pre2 & prev2 & s2 & -> & Hrun).
  unfold lits in Hrun.
  apply run_lits in Hrun as (mid & prev3 & s3 & -> & Hall & _).
  exists (pre1 ++ pre2), mid, s3. split; [|exact Hall].
  rewrite <- app_assoc. reflexivity.
Qed.

Lemma no_label_no_match (subject : pystr) :
  ~ has_label (py "Title:") subject ->
  ~ has_label (py "Description:") subject ->
  ~ has_label (py "Style:") subject ->
  search title_re subject = None
  /\ search desc_re subject = None
  /\ search style_re subject = None.
Proof.
  intros Ht Hd Hs. repeat split.
  - destruct (search title_re subject) eqn:E; [|reflexivity].
    exfalso. apply Ht. eapply search_label. exact E.
  - destruct (search desc_re subject) eqn:E; [|reflexivity].
    exfalso. apply Hd. eapply search_label. exact E.
  - destruct (search style_re subject) eqn:E; [|reflexivity].
    exfalso. apply Hs. eapply search_label. exact E.
Qed.

(** *** Following the matcher forwards *)

Lemma after_app prev l1 l2 : after prev (l1 ++ l2) = after (after prev l1) l2.
Proof. revert prev. induction l1; intros prev; simpl; auto. Qed.

Lemma after_no_nl (c : N) (l : pystr) :
  c <> NL -> ~ In NL l -> exists x, after (Some c) l = Some x /\ x <> NL.
Proof.
  revert c. induction l as [|y l IH]; intros c Hc Hl; simpl.
  - eauto.
  - apply IH; [|intros H; apply Hl; right; exact H].
    intros ->. apply Hl. left. reflexivity.
Qed.

Lemma run_lits_fwd (label mid : pystr) (re : list node) k g :
  Forall2 (fun c x => lit_matches c x = true) label mid ->
  forall prev s,
    run (List.map (fun c => Q (Lit c) One) label ++ re) k g prev (mid ++ s)
    = run re k g (after prev mid) s.
Proof.
  induction 1 as [|c x label mid Hm _ IH]; intros prev s; [reflexivity|].
  cbn [List.map app run one atom_matches after]. rewrite Hm. apply IH.
Qed.

Lemma star_fwd p k (l s : pystr) r :
  Forall (fun c => p c = true) l ->
  match s with c :: _ => p c = false | [] => True end ->
  forall prev,
    k (after prev l) s = Some r -> star p k prev (l ++ s) = Some r.
Proof.
  intros Hl Hs. induction Hl as [|c l Hc _ IH]; intros prev Hk.
  - simpl in *. destruct s as [|x s]; [exact Hk|]. simpl. rewrite Hs. exact Hk.
  - cbn [app star]. rewrite Hc. rewrite (IH (Some c) Hk). reflexivity.
Qed.

(** Where [star] has succeeded at once it succeeds. *)
Lemma star_succeeds p k s :
  forall prev r, k prev s = Some r -> exists r', star p k prev s = Some r'.
Proof.
  induction s as [|c s IH]; intros prev r Hk; simpl; [eauto|].
  destruct (p c); [|eauto].
  destruct (star p k (Some c) s); eauto.
Qed.

Lemma lazy_star_fwd p k (l s : pystr) r :
  Forall (fun c => p c = true) l ->
  forall prev,
    (forall l1 l2, l = l1 ++ l2 -> l2 <> [] ->
                   k (after prev l1) (l2 ++ s) = None) ->
    k (after prev l) s = Some r ->
    lazy_star p k prev (l ++ s) = Some r.
Proof.
  intros Hl. induction Hl as [|c l Hc _ IH]; intros prev Hfail Hk.
  - simpl in *. destruct s; simpl; rewrite Hk; reflexivity.
  - cbn [app]. 
    assert (H0 : k prev (c :: l ++ s) = None).
    { apply (Hfail [] (c :: l)); [reflexivity|discriminate]. }
    simpl. rewrite H0, Hc. apply IH; [|exact Hk].
    intros l1 l2 -> Hne. apply (Hfail (c :: l1) l2); [reflexivity|exact Hne].
Qed.

(** A pattern that begins with [^] does not match inside a line. *)
Lemma search_from_inside (re : list node) (line rest : pystr) :
  ~ In NL line ->
  forall c, c <> NL ->
    search_from (Bol :: re) (Some c) (line ++ NL :: rest)
    = search_from (Bol :: re) (Some NL) rest.
Proof.
  induction line as [|x line IH]; intros Hl c Hc.
  - cbn [app search_from run at_bol].
    destruct (N.eqb_spec c NL); [contradiction|]. reflexivity.
  - cbn [app search_from run at_bol].
    destruct (N.eqb_spec c NL); [contradiction|].
    apply IH; [intros H; apply Hl; right; exact H|].
    intros ->. apply Hl. left. reflexivity.
Qed.

(** A line on which the pattern fails at the start is passed over. *)
Lemma search_from_skip_line (re : list node) (line rest : pystr) prev :
  line <> [] -> ~ In NL line ->
  run (Bol :: re) accept ([], []) prev (line ++ NL :: rest) = None ->
  search_from (Bol :: re) prev (line ++ NL :: rest)
  = search_from (Bol :: re) (Some NL) rest.
Proof.
  intros Hne Hl Hfail. destruct line as [|x line]; [contradiction|].
  cbn [app] in *. cbn [search_from]. rewrite Hfail.
  apply search_from_inside.
  - intros H. apply Hl. right. exact H.
  - intros ->. apply Hl. left. reflexivity.
Qed.


(** *** What a label can be written with *)

Lemma sre_lower_cases (c : N) :
  ((65 <= c <= 90)%N /\ sre_lower c = (c + 32)%N)
  \/ (c = 304%N /\ sre_lower c = 105%N)
  \/ (c = 8490%N /\ sre_lower c = 107%N)
  \/ (~ (65 <= c <= 90)%N /\ c <> 304%N /\ c <> 8490%N /\ sre_lower c = c).
Proof.
  unfold sre_lower.
  destruct (N.leb_spec 65 c); destruct (N.leb_spec c 90); cbn [andb];
    try (left; split; [lia|reflexivity]);
    (destruct (N.eqb_spec c 304);
     [right; left; split; [assumption|reflexivity]|]);
    (destruct (N.eqb_spec c 8490);
     [right; right; left; split; [assumption|reflexivity]|]);
    right; right; right; repeat split; try assumption; lia.
Qed.

Ltac lit_cases c x :=
  unfold lit_matches;
  destruct (sre_lower_cases c) as [[? ->]|[[? ->]|[[? ->]|(? & ? & ? & ->)]]];
  destruct (sre_lower_cases x) as [[? ->]|[[? ->]|[[? ->]|(? & ? & ? & ->)]]];
  repeat match goal with
         | |- context [(?a =? ?b)%N] => destruct (N.eqb_spec a b)
         end; cbn [andb orb]; try discriminate; intros _; try lia.

Lemma lit_matches_nl (c : N) : lit_matches c NL = true -> c = NL.
Proof. unfold NL. lit_cases c 10%N. Qed.

Lemma lit_matches_letter (c x : N) :
  (65 <= c <= 90)%N -> lit_matches c x = true ->
  x = c \/ x = (c + 32)%N \/ (c = 73%N /\ (x = 304 \/ x = 305)%N)
  \/ (c = 75%N /\ x = 8490%N) \/ (c = 83%N /\ x = 383%N).
Proof. intros Hc. lit_cases c x. Qed.


Lemma written_as_no_nl (label written : pystr) :
  ~ In NL label -> written_as label written -> ~ In NL written.
Proof.
  intros Hl H. induction H as [|c x label written Hm _ IH]; [intros []|].
  intros [->|Hin].
  - apply Hl. left. apply lit_matches_nl. exact Hm.
  - apply IH; [|exact Hin]. intros Hc. apply Hl. right. exact Hc.
Qed.

Lemma blanks_no_nl (b : pystr) : blanks b -> ~ In NL b.
Proof.
  intros H Hin. unfold blanks in H. rewrite Forall_forall in H.
  apply list_elem_of_In in Hin. destruct (H _ Hin) as [_ Hne]. congruence.
Qed.

Lemma blanks_space (b : pystr) :
  blanks b -> Forall (fun c => is_space c = true) b.
Proof. intros H. eapply Forall_impl; [exact H|]. intros c [Hc _]. exact Hc. Qed.

Lemma line_end_at_eol tail : line_end tail -> at_eol tail = true.
Proof. intros [->|[rest ->]]; reflexivity. Qed.

Lemma line_end_not_any tail :
  line_end tail ->
  match tail with c :: _ => atom_matches Any c = false | [] => True end.
Proof. intros [->|[rest ->]]; [exact I|reflexivity]. Qed.

(** *** The greedy patterns: [^\s*LABEL\s*(.+)$] *)

Lemma run_greedy_line (label wl b v tail : pystr) (g : caps) prev :
  at_bol prev = true ->
  written_as label wl ->
  (forall x, head wl = Some x -> is_space x = false) -> wl <> [] ->
  blanks b -> v <> [] -> ~ In NL v ->
  (forall c, head v = Some c -> is_space c = false) ->
  line_end tail ->
  run (greedy_re label) accept g prev (wl ++ b ++ v ++ tail)
  = Some (v ++ tail, tail).
Proof.
  intros Hbol Hw Hhead Hwl Hb Hv Hnl Hvh Htail.
  unfold greedy_re. cbn [app run]. rewrite Hbol.
  destruct wl as [|x wl']; [contradiction|].
  cbn [app star atom_matches]. rewrite (Hhead x eq_refl).
  change (x :: wl' ++ b ++ v ++ tail) with ((x :: wl') ++ b ++ v ++ tail).
  rewrite (run_lits_fwd label (x :: wl') _ accept g Hw).
  cbn [run]. destruct v as [|y v']; [contradiction|].
  apply star_fwd.
  - apply blanks_space. exact Hb.
  - cbn [app atom_matches]. apply Hvh. reflexivity.
  - cbn [app one atom_matches].
    assert (Hy : (y =? NL)%N = false).
    { apply N.eqb_neq. intros ->. apply Hnl. left. reflexivity. }
    rewrite Hy. cbn [negb].
    apply star_fwd.
    + apply Forall_forall. intros c Hc. apply list_elem_of_In in Hc.
      cbn [atom_matches]. apply negb_true_iff, N.eqb_neq. intros ->.
      apply Hnl. right. exact Hc.
    + apply line_end_not_any. exact Htail.
    + cbn [fst snd]. rewrite (line_end_at_eol _ Htail). reflexivity.
Qed.

Lemma run_greedy_mismatch (c0 : N) (label s : pystr) (x : N) g prev :
  is_space x = false -> lit_matches c0 x = false ->
  run (greedy_re (c0 :: label)) accept g prev (x :: s) = None.
Proof.
  intros Hs Hm. unfold greedy_re. cbn [app List.map run].
  destruct (at_bol prev); [|reflexivity].
  cbn [star atom_matches one]. rewrite Hs. cbn [atom_matches].
  rewrite Hm. reflexivity.
Qed.


(** *** The title pattern: [^\s*Title:\s*[Q L]?(.+?)[Q R]?\s*$] *)

Lemma star_reaches_all p k prev s r :
  star p k prev s = Some r ->
  exists pre prev' s',
    s = pre ++ s' /\ Forall (fun c => p c = true) pre
    /\ k prev' s' = Some r.
Proof.
  revert prev. induction s as [|c s IH]; intros prev; simpl.
  - intros H. exists [], prev, []. auto.
  - destruct (p c) eqn:Hp.
    + destruct (star p k (Some c) s) as [r'|] eqn:E.
      * intros [= <-].
        destruct (IH _ E) as (pre & prev' & s' & -> & Hall & Hk).
        exists (c :: pre), prev', s'. auto.
      * intros H. exists [], prev, (c :: s). auto.
    + intros H. exists [], prev, (c :: s). auto.
Qed.

Lemma star_eol_succeeds p g s prev :
  at_eol s = true -> star p (eol_cont g) prev s = Some g.
Proof.
  intros He.
  destruct (star_succeeds p (eol_cont g) s prev g) as [r Hr].
  { unfold eol_cont. rewrite He. reflexivity. }
  rewrite Hr. f_equal.
  apply star_reaches_all in Hr as (pre & prev' & s' & _ & _ & Hk).
  unfold eol_cont in Hk. destruct (at_eol s'); congruence.
Qed.

Lemma star_eol_reaches p g s prev r :
  star p (eol_cont g) prev s = Some r ->
  exists pre s', s = pre ++ s' /\ Forall (fun c => p c = true) pre
                 /\ at_eol s' = true.
Proof.
  intros H. apply star_reaches_all in H as (pre & prev' & s' & -> & Hall & Hk).
  exists pre, s'. repeat split; [exact Hall|].
  unfold eol_cont in Hk. destruct (at_eol s'); [reflexivity|discriminate].
Qed.

Lemma run_closing (g : caps) prev (s : pystr) :
  run closing accept g prev s
  = match one (mem_char [QUOTE; RDQUO]) (star is_space (eol_cont (fst g, s)))
              prev s with
    | Some r => Some r
    | None => star is_space (eol_cont (fst g, s)) prev s
    end.
Proof. reflexivity. Qed.

Lemma closing_at_end (g : caps) prev (cq tail : pystr) :
  closing_quote cq -> line_end tail ->
  run closing accept g prev (cq ++ tail) = Some (fst g, cq ++ tail).
Proof.
  intros Hcq Htail. rewrite run_closing.
  pose proof (line_end_at_eol _ Htail) as He.
  destruct Hcq as [-> | [-> | ->]]; cbn [app one].
  - destruct tail as [|c tail].
    + reflexivity.
    + destruct Htail as [Hn|[rest Hn]]; [discriminate|].
      injection Hn as -> ->. change (mem_char [QUOTE; RDQUO] NL) with false.
      cbv iota. apply star_eol_succeeds. reflexivity.
  - change (mem_char [QUOTE; RDQUO] QUOTE) with true. cbv iota.
    rewrite (star_eol_succeeds is_space _ tail (Some QUOTE) He). reflexivity.
  - change (mem_char [QUOTE; RDQUO] RDQUO) with true. cbv iota.
    rewrite (star_eol_succeeds is_space _ tail (Some RDQUO) He). reflexivity.
Qed.

Lemma at_eol_inside (l rest : pystr) :
  l <> [] -> ~ In NL l -> at_eol (l ++ rest) = false.
Proof.
  intros Hne Hl. destruct l as [|c l]; [contradiction|].
  cbn [app at_eol]. apply N.eqb_neq. intros ->. apply Hl. left. reflexivity.
Qed.

(** All of [l2], whose last character is [z], has been read by [consumed]. *)
Lemma consumed_last (consumed s2 l2' rest : pystr) (z : N) :
  consumed ++ s2 = (l2' ++ [z]) ++ rest ->
  ~ In NL (l2' ++ [z]) -> at_eol s2 = true ->
  exists a b, consumed = a ++ z :: b /\ length a = length l2'.
Proof.
  intros Heq Hnl He.
  apply app_eq_app in Heq. destruct Heq as (l' & Heq).
  destruct Heq as [(-> & Hr)|(Hl & ->)].
  - exists l2', l'. rewrite <- app_assoc. auto.
  - destruct l' as [|y l'].
    + rewrite app_nil_r in Hl. subst consumed.
      exists l2', []. auto.
    + exfalso. rewrite at_eol_inside in He; [discriminate|discriminate|].
      intros Hin. apply Hnl. rewrite Hl. apply in_or_app. right. exact Hin.
Qed.

Lemma closing_inside (g : caps) prev (l2 cq tail : pystr) :
  l2 <> [] -> ~ In NL l2 ->
  (forall c, last l2 = Some c ->
             is_space c = false /\ c <> QUOTE /\ c <> RDQUO) ->
  run closing accept g prev (l2 ++ cq ++ tail) = None.
Proof.
  intros Hne Hnl Hlast.
  destruct (exists_last Hne) as (l2' & z & ->).
  destruct (Hlast z) as (Hz1 & Hz2 & Hz3).
  { clear. induction l2' as [|a l IH]; [reflexivity|].
    simpl. destruct (l ++ [z]) eqn:E; [destruct l; discriminate|exact IH]. }
  rewrite run_closing.
  destruct (one _ _ prev _) as [r|] eqn:E1.
  - exfalso. unfold one in E1.
    destruct ((l2' ++ [z]) ++ cq ++ tail) as [|c s1] eqn:Es; [discriminate|].
    destruct (mem_char [QUOTE; RDQUO] c) eqn:Hc; [|discriminate].
    apply star_eol_reaches in E1 as (pre & s2 & -> & Hpre & He).
    destruct (consumed_last (c :: pre) s2 l2' (cq ++ tail) z) as (a & b & Hab & Hlen).
    { cbn [app]. rewrite <- Es. reflexivity. }
    { exact Hnl. }
    { exact He. }
    destruct a as [|a0 a].
    + cbn [app] in Hab. injection Hab as -> ->.
      apply PyFacts.mem_char_In in Hc. simpl in Hc.
      destruct Hc as [Hc|[Hc|[]]]; congruence.
    + cbn [app] in Hab. injection Hab as -> ->.
      rewrite Forall_forall in Hpre.
      assert (Hin : z ∈ a ++ z :: b).
      { apply list_elem_of_In, in_or_app. right. left. reflexivity. }
      rewrite (Hpre z Hin) in Hz1. discriminate.
  - destruct (star is_space _ prev _) as [r|] eqn:E2; [|reflexivity].
    exfalso.
    apply star_eol_reaches in E2 as (pre & s2 & Heq & Hpre & He).
    destruct (consumed_last pre s2 l2' (cq ++ tail) z) as (a & b & Hab & Hlen).
    { symmetry. exact Heq. }
    { exact Hnl. }
    { exact He. }
    rewrite Forall_forall in Hpre.
    assert (Hin : z ∈ pre).
    { rewrite Hab. apply list_elem_of_In, in_or_app. right. left. reflexivity. }
    rewrite (Hpre z Hin) in Hz1. discriminate.
Qed.


Lemma run_star (a : atom) (re : list node) k g prev s :
  run (Q a Star :: re) k g prev s = star (atom_matches a) (run re k g) prev s.
Proof. reflexivity. Qed.

Lemma run_opt (a : atom) (re : list node) k g prev s :
  run (Q a Opt :: re) k g prev s
  = match one (atom_matches a) (run re k g) prev s with
    | Some r => Some r
    | None => run re k g prev s
    end.
Proof. reflexivity. Qed.

Lemma last_suffix (y : N) (l1 l2 : pystr) (c : N) :
  l2 <> [] -> last l2 = Some c -> last (y :: l1 ++ l2) = Some c.
Proof.
  intros Hne Hl. change (y :: l1 ++ l2) with ((y :: l1) ++ l2).
  rewrite last_app, Hl. reflexivity.
Qed.

(** The group of the title pattern on [t] followed by a closing quote, or
    none, and the end of the line. *)
Lemma run_title_group (g : caps) prev (t cq tail : pystr) :
  t <> [] -> ~ In NL t ->
  (forall c, last t = Some c ->
             is_space c = false /\ c <> QUOTE /\ c <> RDQUO) ->
  closing_quote cq -> line_end tail ->
  run (GroupOpen :: Q Any PlusLazy :: closing) accept g prev
      (t ++ cq ++ tail)
  = Some (t ++ cq ++ tail, cq ++ tail).
Proof.
  intros Hne Hnl Hlast Hcq Htail.
  destruct t as [|y t']; [contradiction|].
  cbn [run app one atom_matches fst snd].
  assert (Hy : (y =? NL)%N = false).
  { apply N.eqb_neq. intros ->. apply Hnl. left. reflexivity. }
  rewrite Hy. cbn [negb].
  apply lazy_star_fwd.
  - apply Forall_forall. intros c Hc. apply list_elem_of_In in Hc.
    cbn [atom_matches]. apply negb_true_iff, N.eqb_neq. intros ->.
    apply Hnl. right. exact Hc.
  - intros l1 l2 -> Hl2. apply closing_inside; [exact Hl2| |].
    + intros Hin. apply Hnl. right. apply in_or_app. right. exact Hin.
    + intros c Hc. apply Hlast. apply last_suffix; assumption.
  - rewrite (closing_at_end _ _ cq tail Hcq Htail). reflexivity.
Qed.

Lemma run_lazy_line (label wl b oq t cq tail : pystr) (g : caps) prev :
  at_bol prev = true ->
  written_as label wl ->
  (forall x, head wl = Some x -> is_space x = false) -> wl <> [] ->
  blanks b -> opening_quote oq -> closing_quote cq ->
  t <> [] -> ~ In NL t ->
  (forall c, head t = Some c ->
             is_space c = false /\ c <> QUOTE /\ c <> LDQUO) ->
  (forall c, last t = Some c ->
             is_space c = false /\ c <> QUOTE /\ c <> RDQUO) ->
  line_end tail ->
  run (lazy_re label) accept g prev (wl ++ b ++ oq ++ t ++ cq ++ tail)
  = Some (t ++ cq ++ tail, cq ++ tail).
Proof.
  intros Hbol Hw Hhead Hwl Hb Hoq Hcq Hne Hnl Hth Htl Htail.
  unfold lazy_re. cbn [app]. cbn [run]. rewrite Hbol.
  destruct wl as [|x wl']; [contradiction|].
  cbn [app star atom_matches]. rewrite (Hhead x eq_refl).
  change (x :: wl' ++ b ++ oq ++ t ++ cq ++ tail)
    with ((x :: wl') ++ b ++ oq ++ t ++ cq ++ tail).
  rewrite (run_lits_fwd label (x :: wl') _ accept g Hw).
  rewrite run_star.
  pose proof (fun p => run_title_group g p t cq tail Hne Hnl Htl Hcq Htail)
    as Hgroup.
  destruct t as [|y t'] eqn:Et; [contradiction|]. rewrite <- Et in *.
  destruct (Hth y) as (Hy1 & Hy2 & Hy3); [rewrite Et; reflexivity|].
  apply star_fwd.
  - apply blanks_space. exact Hb.
  - destruct Hoq as [-> | [-> | ->]]; cbn [app atom_matches];
      [rewrite Et; cbn [app]; exact Hy1|reflexivity|reflexivity].
  - rewrite run_opt.
    destruct Hoq as [-> | [-> | ->]]; cbn [app].
    + rewrite Hgroup.
      assert (Hq : forall k p,
                one (atom_matches (OneOf [QUOTE; LDQUO])) k p
                    (t ++ cq ++ tail) = None).
      { intros k p. rewrite Et. cbn [app one atom_matches].
        destruct (mem_char [QUOTE; LDQUO] y) eqn:Hm; [|reflexivity].
        apply PyFacts.mem_char_In in Hm. simpl in Hm.
        destruct Hm as [Hm|[Hm|[]]]; congruence. }
      rewrite Hq. reflexivity.
    + cbn [one atom_matches].
      change (mem_char [QUOTE; LDQUO] QUOTE) with true. cbv iota.
      rewrite Hgroup. reflexivity.
    + cbn [one atom_matches].
      change (mem_char [QUOTE; LDQUO] LDQUO) with true. cbv iota.
      rewrite Hgroup. reflexivity.
Qed.


(** *** The three patterns on three labelled lines *)

Lemma search_from_here (re : list node) prev (s : pystr) (g : caps) :
  run re accept ([], []) prev s = Some g -> search_from re prev s = Some g.
Proof. intros H. destruct s; simpl; rewrite H; reflexivity. Qed.

Lemma group1_piece (m b : pystr) : group1 (m ++ b, b) = m.
Proof.
  unfold group1. cbn [fst snd]. rewrite length_app.
  replace (length m + length b - length b)%nat with (length m) by lia.
  rewrite firstn_app, Nat.sub_diag, firstn_all. simpl. apply app_nil_r.
Qed.

Lemma strip_with_ends (p : N -> bool) (s : pystr) :
  (forall c, head s = Some c -> p c = false) ->
  (forall c, last s = Some c -> p c = false) ->
  strip_with p s = s.
Proof.
  intros Hh Hl. unfold strip_with, rstrip.
  rewrite (lstrip_fixed p s Hh). rewrite lstrip_fixed.
  - apply rev_involutive.
  - intros c Hc. apply Hl. rewrite <- (rev_involutive s).
    rewrite last_rev_head. exact Hc.
Qed.

Lemma title_label_head (tl : pystr) :
  written_as (py "Title:") tl ->
  exists x tl', tl = x :: tl' /\ (x = 84%N \/ x = 116%N).
Proof.
  intros H. change (py "Title:") with (84%N :: py "itle:") in H.
  inversion H as [|c x l l' Hm _]; subst. exists x, l'. split; [reflexivity|].
  apply lit_matches_letter in Hm; [|lia]. lia.
Qed.

Lemma desc_label_head (dl : pystr) :
  written_as (py "Description:") dl ->
  exists x dl', dl = x :: dl' /\ (x = 68%N \/ x = 100%N).
Proof.
  intros H. change (py "Description:") with (68%N :: py "escription:") in H.
  inversion H as [|c x l l' Hm _]; subst. exists x, l'. split; [reflexivity|].
  apply lit_matches_letter in Hm; [|lia]. lia.
Qed.

Lemma style_label_head (sl : pystr) :
  written_as (py "Style:") sl ->
  exists x sl', sl = x :: sl' /\ (x = 83%N \/ x = 115%N \/ x = 383%N).
Proof.
  intros H. change (py "Style:") with (83%N :: py "tyle:") in H.
  inversion H as [|c x l l' Hm _]; subst. exists x, l'. split; [reflexivity|].
  apply lit_matches_letter in Hm; [|lia]. lia.
Qed.

Lemma not_in_app3 (x : N) (a b c : pystr) :
  ~ In x a -> ~ In x b -> ~ In x c -> ~ In x (a ++ b ++ c).
Proof.
  intros Ha Hb Hc Hin. apply in_app_or in Hin as [H|H]; [auto|].
  apply in_app_or in H as [H|H]; auto.
Qed.

Section ThreeLines.

Variables tl dl sl b1 b2 b3 oq cq t d s : pystr.

Hypothesis Htl : written_as (py "Title:") tl.
Hypothesis Hdl : written_as (py "Description:") dl.
Hypothesis Hsl : written_as (py "Style:") sl.
Hypothesis Hb1 : blanks b1.
Hypothesis Hb2 : blanks b2.
Hypothesis Hb3 : blanks b3.
Hypothesis Hoq : opening_quote oq.
Hypothesis Hcq : closing_quote cq.
Hypothesis Ht : line_value t.
Hypothesis Hd : line_value d.
Hypothesis Hs : line_value s.
Hypothesis Htq : unquoted t.

Let line1 : pystr := title_line tl b1 oq t cq.
Let line2 : pystr := value_line dl b2 d.
Let line3 : pystr := value_line sl b3 s.

Lemma line1_no_nl : ~ In NL line1.
Proof.
  unfold line1, title_line. destruct Ht as (_ & Hn & _).
  intros Hin. apply in_app_or in Hin as [H|H].
  { revert H. apply (written_as_no_nl (py "Title:")); [|exact Htl].
    vm_compute. intuition discriminate. }
  apply in_app_or in H as [H|H]; [exact (blanks_no_nl _ Hb1 H)|].
  apply in_app_or in H as [H|H].
  { destruct Hoq as [-> | [-> | ->]]; simpl in H; intuition discriminate. }
  apply in_app_or in H as [H|H]; [exact (Hn H)|].
  destruct Hcq as [-> | [-> | ->]]; simpl in H; intuition discriminate.
Qed.

Lemma line2_no_nl : ~ In NL line2.
Proof.
  unfold line2, value_line. destruct Hd as (_ & Hn & _).
  apply not_in_app3; [|exact (blanks_no_nl _ Hb2)|exact Hn].
  apply (written_as_no_nl (py "Description:")); [|exact Hdl].
  vm_compute. intuition discriminate.
Qed.

Lemma search_title : search title_re (line1 ++ NL :: line2 ++ NL :: line3) = Some t.
Proof.
  unfold search, line1, title_line.
  destruct (title_label_head tl Htl) as (x & tl' & Etl & Hx).
  destruct Ht as (Hne & Hn & Hh & Hz).
  rewrite (search_from_here title_re None _
             (t ++ cq ++ NL :: line2 ++ NL :: line3,
              cq ++ NL :: line2 ++ NL :: line3)).
  - cbn [option_map]. rewrite group1_piece. reflexivity.
  - change title_re with (lazy_re (py "Title:")).
    rewrite <- !app_assoc.
    apply run_lazy_line;
      [reflexivity|exact Htl| | |exact Hb1|exact Hoq|exact Hcq|exact Hne
      |exact Hn| | |right; eauto].
    + rewrite Etl. intros c [= <-]. destruct Hx as [-> | ->]; reflexivity.
    + rewrite Etl. discriminate.
    + intros c Hc. destruct (proj1 Htq c Hc). auto.
    + intros c Hc. destruct (proj2 Htq c Hc). auto.
Qed.

Lemma search_desc : search desc_re (line1 ++ NL :: line2 ++ NL :: line3) = Some d.
Proof.
  unfold search.
  destruct (title_label_head tl Htl) as (x & tl' & Etl & Hx).
  destruct (desc_label_head dl Hdl) as (y & dl' & Edl & Hy).
  destruct Hd as (Hne & Hn & Hh & Hz).
  change desc_re with (greedy_re (py "Description:")).
  unfold greedy_re at 1. cbn [app].
  rewrite search_from_skip_line.
  - fold (greedy_re (py "Description:")).
    rewrite (search_from_here _ (Some NL) _
               (d ++ NL :: line3, NL :: line3)).
    + cbn [option_map]. rewrite group1_piece. reflexivity.
    + unfold line2, value_line. rewrite <- !app_assoc.
      apply (run_greedy_line (py "Description:"));
        [reflexivity|exact Hdl| | |exact Hb2|exact Hne|exact Hn|exact Hh
        |right; eauto].
      * rewrite Edl. intros c [= <-]. destruct Hy as [-> | ->]; reflexivity.
      * rewrite Edl. discriminate.
  - unfold line1, title_line. rewrite Etl. discriminate.
  - exact line1_no_nl.
  - unfold line1, title_line. rewrite Etl. cbn [app].
    change (py "Description:") with (68%N :: py "escription:").
    apply (run_greedy_mismatch 68 (py "escription:"));
      destruct Hx as [-> | ->]; reflexivity.
Qed.

Lemma search_style : search style_re (line1 ++ NL :: line2 ++ NL :: line3) = Some s.
Proof.
  unfold search.
  destruct (title_label_head tl Htl) as (x & tl' & Etl & Hx).
  destruct (desc_label_head dl Hdl) as (y & dl' & Edl & Hy).
  destruct (style_label_head sl Hsl) as (z & sl' & Esl & Hz0).
  destruct Hs as (Hne & Hn & Hh & Hz).
  change style_re with (greedy_re (py "Style:")).
  unfold greedy_re at 1. cbn [app].
  rewrite search_from_skip_line.
  2:{ unfold line1, title_line. rewrite Etl. discriminate. }
  2:{ exact line1_no_nl. }
  2:{ unfold line1, title_line. rewrite Etl. cbn [app].
      change (py "Style:") with (83%N :: py "tyle:").
      apply (run_greedy_mismatch 83 (py "tyle:"));
        destruct Hx as [-> | ->]; reflexivity. }
  rewrite search_from_skip_line.
  2:{ unfold line2, value_line. rewrite Edl. discriminate. }
  2:{ exact line2_no_nl. }
  2:{ unfold line2, value_line. rewrite Edl. cbn [app].
      change (py "Style:") with (83%N :: py "tyle:").
      apply (run_greedy_mismatch 83 (py "tyle:"));
        destruct Hy as [-> | ->]; reflexivity. }
  fold (greedy_re (py "Style:")).
  rewrite (search_from_here _ (Some NL) _ (s ++ [], [])).
  - cbn [option_map]. rewrite group1_piece. reflexivity.
  - unfold line3, value_line.
    replace (sl ++ b3 ++ s) with (sl ++ b3 ++ s ++ [])
      by (rewrite app_nil_r; reflexivity).
    apply (run_greedy_line (py "Style:"));
      [reflexivity|exact Hsl| | |exact Hb3|exact Hne|exact Hn|exact Hh
      |left; reflexivity].
    + rewrite Esl. intros c [= <-].
      destruct Hz0 as [-> | [-> | ->]]; reflexivity.
    + rewrite Esl. discriminate.
Qed.

End ThreeLines.

End ReFacts.

(* --------------------------------------------------------------------- *)
(** ** The generation loop: duplicates, memory, termination *)
(* --------------------------------------------------------------------- *)

Module PromptGenFacts.
Import Py PromptGen.

(** *** The duplicate check *)

Lemma prompt_eqb_eq (p q : prompt) : prompt_eqb p q = true <-> p = q.
Proof.
  unfold prompt_eqb, str_eqb. destruct p as [t d s], q as [t' d' s']. simpl.
  rewrite !andb_true_iff, !bool_decide_eq_true. split.
  - intros [[-> ->] ->]. reflexivity.
  - intros [= -> -> ->]. auto.
Qed.

Lemma existsb_prompt_In (r : prompt) (l : list prompt) :
  existsb (fun p => prompt_eqb p r) l = true <-> In r l.
Proof.
  rewrite existsb_exists. split.
  - intros (x & Hin & Heq). apply prompt_eqb_eq in Heq. subst. exact Hin.
  - intros Hin. exists r. split; [exact Hin | apply prompt_eqb_eq; reflexivity].
Qed.

Lemma is_duplicate_In cfg st r :
  is_duplicate cfg st r = true <-> In r (checked_list cfg st).
Proof.
  unfold is_duplicate, checked_list. destruct (use_memory cfg);
    apply existsb_prompt_In.
Qed.

Lemma is_duplicate_not_In cfg st r :
  is_duplicate cfg st r = false <-> ~ In r (checked_list cfg st).
Proof.
  rewrite <- is_duplicate_In. destruct (is_duplicate cfg st r); split;
    congruence.
Qed.

(** *** Projections of the state changes *)

Lemma checked_list_attempts cfg st n :
  checked_list cfg (with_attempts st n) = checked_list cfg st.
Proof. reflexivity. Qed.

Lemma memory_with_attempts st n :
  ALL_PROMPTS_MEMORY (with_attempts st n) = ALL_PROMPTS_MEMORY st.
Proof. reflexivity. Qed.

Lemma run_with_attempts st n :
  new_prompts_this_run (with_attempts st n) = new_prompts_this_run st.
Proof. reflexivity. Qed.

Lemma save_memory st :
  ALL_PROMPTS_MEMORY (save_prompts_to_csv st) = ALL_PROMPTS_MEMORY st.
Proof.
  unfold save_prompts_to_csv. destruct (new_prompts_this_run st); reflexivity.
Qed.

Lemma save_prompt_index st :
  prompt_index (save_prompts_to_csv st) = prompt_index st.
Proof.
  unfold save_prompts_to_csv. destruct (new_prompts_this_run st); reflexivity.
Qed.

Lemma save_attempts st :
  attempts (save_prompts_to_csv st) = attempts st.
Proof.
  unfold save_prompts_to_csv. destruct (new_prompts_this_run st); reflexivity.
Qed.

Lemma save_accepted st : accepted (save_prompts_to_csv st) = accepted st.
Proof.
  unfold save_prompts_to_csv, accepted.
  destruct (new_prompts_this_run st) as [|p l] eqn:E; [rewrite E; reflexivity|].
  cbn [csv_batches new_prompts_this_run].
  rewrite concat_app. simpl. rewrite !app_nil_r. reflexivity.
Qed.

Lemma accept_memory cfg st r :
  ALL_PROMPTS_MEMORY (accept_record cfg st r)
  = if use_memory cfg
    then <[model_name cfg :=
             memory_of (ALL_PROMPTS_MEMORY st) (model_name cfg) ++ [r]]>
           (ALL_PROMPTS_MEMORY st)
    else ALL_PROMPTS_MEMORY st.
Proof.
  unfold accept_record.
  destruct ((0 <? auto_save_every cfg) && _); [rewrite save_memory|];
    reflexivity.
Qed.

Lemma accept_prompt_index cfg st r :
  prompt_index (accept_record cfg st r) = prompt_index st + 1.
Proof.
  unfold accept_record.
  destruct ((0 <? auto_save_every cfg) && _); [rewrite save_prompt_index|];
    reflexivity.
Qed.

Lemma accept_attempts cfg st r :
  attempts (accept_record cfg st r) = attempts st.
Proof.
  unfold accept_record.
  destruct ((0 <? auto_save_every cfg) && _); [rewrite save_attempts|];
    reflexivity.
Qed.

Lemma accept_accepted cfg st r :
  accepted (accept_record cfg st r) = accepted st ++ [r].
Proof.
  unfold accept_record.
  destruct ((0 <? auto_save_every cfg) && _); [rewrite save_accepted|];
    unfold accepted; simpl; rewrite app_assoc; reflexivity.
Qed.

(** Without a flush the new record joins the unsaved list. *)
Lemma accept_run_noflush cfg st r :
  ~ (0 < auto_save_every cfg
     /\ (prompt_index st + 1) mod auto_save_every cfg = 0) ->
  new_prompts_this_run (accept_record cfg st r)
  = new_prompts_this_run st ++ [r].
Proof.
  intros H. unfold accept_record. cbn [prompt_index].
  destruct (Z.ltb_spec 0 (auto_save_every cfg)); simpl; [|reflexivity].
  destruct (Z.eqb_spec ((prompt_index st + 1) mod auto_save_every cfg) 0);
    [tauto | reflexivity].
Qed.

(** With a flush the unsaved list is empty afterwards. *)
Lemma accept_run_cases cfg st r :
  new_prompts_this_run (accept_record cfg st r) = new_prompts_this_run st ++ [r]
  \/ new_prompts_this_run (accept_record cfg st r) = [].
Proof.
  unfold accept_record.
  destruct ((0 <? auto_save_every cfg) && _); [|left; reflexivity].
  unfold save_prompts_to_csv. cbn [new_prompts_this_run].
  destruct (new_prompts_this_run st ++ [r]) eqn:E; [left|right]; reflexivity.
Qed.

Lemma no_flush_small (every i : Z) :
  ~ (1 <= every <= 2) -> 1 <= i <= 2 ->
  ~ (0 < every /\ i mod every = 0).
Proof.
  intros He Hi [Hpos Hmod].
  assert (3 <= every) by lia.
  rewrite Z.mod_small in Hmod by lia. lia.
Qed.

(** *** One iteration *)

Lemma iteration_stop cfg ev st :
  stop_generation ev = true -> iteration cfg ev st = (false, st).
Proof. intros H. unfold iteration. rewrite H. reflexivity. Qed.

(** A record that the check finds costs the attempt and changes nothing
    else. *)
Lemma iteration_duplicate cfg ev st stdout :
  stop_generation ev = false -> reply ev = Ok stdout ->
  In (record_of stdout) (checked_list cfg st) ->
  iteration cfg ev st = (true, with_attempts st (attempts st + 1)).
Proof.
  intros Hs Hr Hin. unfold iteration. rewrite Hs, Hr.
  rewrite (proj2 (is_duplicate_In cfg _ _)); [reflexivity|].
  rewrite checked_list_attempts. exact Hin.
Qed.

Lemma iteration_new cfg ev st stdout :
  stop_generation ev = false -> reply ev = Ok stdout ->
  ~ In (record_of stdout) (checked_list cfg st) ->
  iteration cfg ev st
  = (true, accept_record cfg (with_attempts st (attempts st + 1))
                         (record_of stdout)).
Proof.
  intros Hs Hr Hin. unfold iteration. rewrite Hs, Hr.
  rewrite (proj2 (is_duplicate_not_In cfg _ _)); [reflexivity|].
  rewrite checked_list_attempts. exact Hin.
Qed.

Lemma iteration_counters cfg ev st st' :
  iteration cfg ev st = (true, st') ->
  attempts st' = attempts st + 1
  /\ (prompt_index st' = prompt_index st
      \/ prompt_index st' = prompt_index st + 1).
Proof.
  unfold iteration. destruct (stop_generation ev); [discriminate|].
  destruct (reply ev) as [stdout|e]; [|discriminate].
  destruct (is_duplicate _ _ _); intros [= <-].
  - simpl. auto.
  - rewrite accept_attempts, accept_prompt_index. simpl. auto.
Qed.

Lemma iteration_break cfg ev st st' :
  iteration cfg ev st = (false, st') ->
  prompt_index st' = prompt_index st
  /\ attempts st <= attempts st' <= attempts st + 1
  /\ (stop_generation ev = true -> st' = st).
Proof.
  unfold iteration. destruct (stop_generation ev).
  - intros [= <-]. repeat split; lia.
  - destruct (reply ev) as [stdout|e].
    + destruct (is_duplicate _ _ _); discriminate.
    + intros [= <-]. simpl. repeat split; try lia; try discriminate.
Qed.

(** *** The loop *)

Lemma while_loop_unfold fuel cfg env st :
  while_loop (S fuel) cfg env st
  = if loop_condition cfg st then
      match iteration cfg (env (Z.to_nat (attempts st))) st with
      | (true, st') => while_loop fuel cfg env st'
      | (false, st') => Finished st'
      end
    else Finished st.
Proof. reflexivity. Qed.

Lemma loop_condition_true cfg st :
  loop_condition cfg st = true
  <-> prompt_index st < num_prompts cfg /\ attempts st < num_prompts cfg * 3.
Proof.
  unfold loop_condition. rewrite andb_true_iff, !Z.ltb_lt. reflexivity.
Qed.

(** The variant of the loop: the attempts that are left. *)
Lemma while_loop_finishes cfg env :
  forall fuel st,
    (Z.to_nat (num_prompts cfg * 3 - attempts st) <= fuel)%nat ->
    exists st', while_loop fuel cfg env st = Finished st'.
Proof.
  induction fuel as [|fuel IH]; intros st Hfuel.
  - simpl. destruct (loop_condition cfg st) eqn:Hc; [|eauto].
    apply loop_condition_true in Hc. lia.
  - rewrite while_loop_unfold.
    destruct (loop_condition cfg st) eqn:Hc; [|eauto].
    apply loop_condition_true in Hc.
    destruct (iteration cfg _ st) as [[|] st'] eqn:Hit; [|eauto].
    apply iteration_counters in Hit as [Ha _].
    apply IH. lia.
Qed.

Lemma while_loop_counters cfg env :
  forall fuel st,
    counters_ok cfg st ->
    counters_ok cfg (state_of (while_loop fuel cfg env st)).
Proof.
  induction fuel as [|fuel IH]; intros st Hok.
  - simpl. destruct (loop_condition cfg st); exact Hok.
  - rewrite while_loop_unfold.
    destruct (loop_condition cfg st) eqn:Hc; [|exact Hok].
    apply loop_condition_true in Hc.
    destruct (iteration cfg _ st) as [[|] st'] eqn:Hit.
    + apply IH. apply iteration_counters in Hit.
      unfold counters_ok in *. lia.
    + simpl. apply iteration_break in Hit.
      unfold counters_ok in *. lia.
Qed.

(** A flag that is set when the iteration number [k] polls it ends the loop
    there at the latest. *)
Lemma while_loop_stops cfg env (k : nat) :
  stop_generation (env k) = true ->
  forall fuel st,
    0 <= attempts st <= Z.of_nat k ->
    attempts (state_of (while_loop fuel cfg env st)) <= Z.of_nat k.
Proof.
  intros Hstop. induction fuel as [|fuel IH]; intros st Hk.
  - simpl. destruct (loop_condition cfg st); simpl; lia.
  - rewrite while_loop_unfold.
    destruct (loop_condition cfg st) eqn:Hc; [|simpl; lia].
    destruct (Z.eq_dec (attempts st) (Z.of_nat k)) as [E|E].
    + rewrite E, Nat2Z.id, (iteration_stop _ _ _ Hstop). simpl. lia.
    + destruct (iteration cfg _ st) as [[|] st'] eqn:Hit.
      * apply IH. apply iteration_counters in Hit. lia.
      * simpl. apply iteration_break in Hit. lia.
Qed.

(** The loop consults the collaborator only within the attempt budget. *)
Lemma while_loop_ext cfg env env' :
  (forall k : nat, Z.of_nat k < num_prompts cfg * 3 -> env' k = env k) ->
  forall fuel st,
    0 <= attempts st ->
    while_loop fuel cfg env' st = while_loop fuel cfg env st.
Proof.
  intros Hext. induction fuel as [|fuel IH]; intros st Ha; [reflexivity|].
  rewrite !while_loop_unfold.
  destruct (loop_condition cfg st) eqn:Hc; [|reflexivity].
  apply loop_condition_true in Hc.
  rewrite Hext by lia.
  destruct (iteration cfg _ st) as [[|] st'] eqn:Hit; [|reflexivity].
  apply IH. apply iteration_counters in Hit. lia.
Qed.

(** *** The memory *)

Lemma memory_of_insert m key l :
  memory_of (<[key := l]> m) key = l.
Proof. unfold memory_of. rewrite lookup_insert_eq. reflexivity. Qed.

Lemma memory_of_initial cfg m :
  memory_of (ALL_PROMPTS_MEMORY (initial_state cfg m)) (model_name cfg)
  = memory_of m (model_name cfg).
Proof.
  unfold initial_state, memory_of. simpl.
  destruct (m !! model_name cfg) eqn:E; [rewrite E; reflexivity|].
  rewrite lookup_insert_eq. reflexivity.
Qed.

Lemma initial_other cfg m key :
  key <> model_name cfg ->
  ALL_PROMPTS_MEMORY (initial_state cfg m) !! key = m !! key.
Proof.
  intros Hne. unfold initial_state. simpl.
  destruct (m !! model_name cfg); [reflexivity|].
  apply lookup_insert_ne. congruence.
Qed.

Lemma memory_nodup_initial cfg m :
  memory_nodup m -> memory_nodup (ALL_PROMPTS_MEMORY (initial_state cfg m)).
Proof.
  intros H key l. unfold initial_state. simpl.
  destruct (m !! model_name cfg) eqn:E; [apply H|].
  destruct (decide (key = model_name cfg)) as [->|Hne].
  - rewrite lookup_insert_eq. intros [= <-]. constructor.
  - rewrite lookup_insert_ne by congruence. apply H.
Qed.

Lemma memory_inv_save cfg m0 st :
  memory_inv cfg m0 st -> memory_inv cfg m0 (save_prompts_to_csv st).
Proof.
  unfold memory_inv. rewrite save_memory, save_accepted. tauto.
Qed.

Lemma memory_nodup_accept cfg st r :
  memory_nodup (ALL_PROMPTS_MEMORY st) ->
  ~ In r (checked_list cfg st) ->
  memory_nodup (ALL_PROMPTS_MEMORY (accept_record cfg st r)).
Proof.
  intros Hnd Hnew. rewrite accept_memory.
  unfold checked_list in Hnew.
  destruct (use_memory cfg); [|exact Hnd].
  intros key l.
  destruct (decide (key = model_name cfg)) as [->|Hne].
  - rewrite lookup_insert_eq. intros [= <-].
    apply NoDup_app. repeat split.
    + unfold memory_of.
      destruct (ALL_PROMPTS_MEMORY st !! model_name cfg) eqn:E;
        [apply (Hnd _ _ E) | constructor].
    + intros x Hx Hx'. apply list_elem_of_In in Hx.
      apply list_elem_of_singleton in Hx'. subst. contradiction.
    + apply NoDup_singleton.
  - rewrite lookup_insert_ne by congruence. apply Hnd.
Qed.

Lemma memory_nodup_iteration cfg ev st :
  memory_nodup (ALL_PROMPTS_MEMORY st) ->
  memory_nodup (ALL_PROMPTS_MEMORY (snd (iteration cfg ev st))).
Proof.
  intros Hnd. unfold iteration.
  destruct (stop_generation ev); [exact Hnd|].
  destruct (reply ev) as [stdout|e]; [|exact Hnd].
  destruct (is_duplicate _ _ _) eqn:Hd; [exact Hnd|].
  simpl. apply memory_nodup_accept; [exact Hnd|].
  apply is_duplicate_not_In. exact Hd.
Qed.

(** An iteration changes a sequence of the memory only by adding at its
    end. *)
Lemma iteration_appends cfg ev st key :
  exists added,
    memory_of (ALL_PROMPTS_MEMORY (snd (iteration cfg ev st))) key
    = memory_of (ALL_PROMPTS_MEMORY st) key ++ added.
Proof.
  unfold iteration.
  destruct (stop_generation ev); [exists []; apply eq_sym, app_nil_r|].
  destruct (reply ev) as [stdout|e]; [|exists []; apply eq_sym, app_nil_r].
  destruct (is_duplicate _ _ _); [exists []; apply eq_sym, app_nil_r|].
  cbn [snd]. rewrite accept_memory, memory_with_attempts.
  destruct (use_memory cfg); [|exists []; apply eq_sym, app_nil_r].
  destruct (decide (key = model_name cfg)) as [->|Hne].
  - rewrite memory_of_insert. eexists. reflexivity.
  - unfold memory_of at 1. rewrite lookup_insert_ne by congruence.
    exists []. apply eq_sym, app_nil_r.
Qed.

Lemma reachable_nodup m : reachable m -> memory_nodup m.
Proof.
  intros Hr. induction Hr as [|m _ _|cfg m _ IH|cfg ev st _ IH _].
  - intros key l. rewrite lookup_empty. discriminate.
  - intros key l. unfold reset_memory_func. rewrite lookup_empty.
    discriminate.
  - apply memory_nodup_initial. exact IH.
  - apply memory_nodup_iteration. exact IH.
Qed.

(** Once the model has its key it keeps it. *)
Lemma iteration_keeps_key cfg ev st :
  is_Some (ALL_PROMPTS_MEMORY st !! model_name cfg) ->
  is_Some (ALL_PROMPTS_MEMORY (snd (iteration cfg ev st)) !! model_name cfg).
Proof.
  intros Hk. unfold iteration.
  destruct (stop_generation ev); [exact Hk|].
  destruct (reply ev) as [stdout|e]; [|exact Hk].
  destruct (is_duplicate _ _ _); [exact Hk|].
  cbn [snd]. rewrite accept_memory, memory_with_attempts.
  destruct (use_memory cfg); [|exact Hk].
  rewrite lookup_insert_eq. eauto.
Qed.

Lemma initial_has_key cfg m :
  is_Some (ALL_PROMPTS_MEMORY (initial_state cfg m) !! model_name cfg).
Proof.
  unfold initial_state. simpl.
  destruct (m !! model_name cfg) eqn:E; [rewrite E; eauto|].
  rewrite lookup_insert_eq. eauto.
Qed.

Lemma reachable_loop cfg env :
  forall fuel st,
    reachable (ALL_PROMPTS_MEMORY st) ->
    is_Some (ALL_PROMPTS_MEMORY st !! model_name cfg) ->
    reachable (ALL_PROMPTS_MEMORY (state_of (while_loop fuel cfg env st))).
Proof.
  induction fuel as [|fuel IH]; intros st Hr Hk.
  - simpl. destruct (loop_condition cfg st); exact Hr.
  - rewrite while_loop_unfold.
    destruct (loop_condition cfg st); [|exact Hr].
    pose proof (reach_iteration cfg (env (Z.to_nat (attempts st))) st Hr Hk)
      as H.
    pose proof (iteration_keeps_key cfg (env (Z.to_nat (attempts st))) st Hk)
      as Hk'.
    destruct (iteration cfg _ st) as [[|] st']; simpl in H, Hk'.
    + apply IH; assumption.
    + exact H.
Qed.

(** A run is a sequence of iterations. *)
Lemma reachable_generate fuel cfg env m :
  reachable m ->
  reachable (ALL_PROMPTS_MEMORY
               (state_of (generate_prompts_for_model fuel cfg env m))).
Proof.
  intros Hr. unfold generate_prompts_for_model.
  pose proof (reachable_loop cfg env fuel _ (reach_enter cfg m Hr)
                (initial_has_key cfg m)) as H.
  destruct (while_loop fuel cfg env (initial_state cfg m)) as [st|st];
    simpl in *; [rewrite save_memory|]; exact H.
Qed.

Lemma memory_inv_accept cfg m0 st r :
  memory_inv cfg m0 st ->
  ~ In r (checked_list cfg st) ->
  memory_inv cfg m0 (accept_record cfg st r).
Proof.
  intros (Hnd & Hother & Hown) Hnew. unfold memory_inv.
  split; [apply memory_nodup_accept; assumption|].
  rewrite accept_memory, accept_accepted.
  destruct (use_memory cfg) eqn:Hum.
  - split.
    + intros key Hne. rewrite lookup_insert_ne by congruence.
      apply Hother. exact Hne.
    + rewrite memory_of_insert, Hown, app_assoc. reflexivity.
  - split; assumption.
Qed.

Lemma memory_inv_iteration cfg m0 ev st :
  memory_inv cfg m0 st -> memory_inv cfg m0 (snd (iteration cfg ev st)).
Proof.
  intros Hinv. unfold iteration.
  destruct (stop_generation ev); [exact Hinv|].
  destruct (reply ev) as [stdout|e]; [|exact Hinv].
  destruct (is_duplicate _ _ _) eqn:Hd; [exact Hinv|].
  simpl. apply memory_inv_accept; [exact Hinv|].
  apply is_duplicate_not_In. exact Hd.
Qed.

Lemma memory_inv_loop cfg m0 env :
  forall fuel st,
    memory_inv cfg m0 st ->
    memory_inv cfg m0 (state_of (while_loop fuel cfg env st)).
Proof.
  induction fuel as [|fuel IH]; intros st Hinv.
  - simpl. destruct (loop_condition cfg st); exact Hinv.
  - rewrite while_loop_unfold.
    destruct (loop_condition cfg st); [|exact Hinv].
    pose proof (memory_inv_iteration cfg m0
                  (env (Z.to_nat (attempts st))) st Hinv) as H.
    destruct (iteration cfg _ st) as [[|] st']; simpl in H.
    + apply IH. exact H.
    + exact H.
Qed.

Lemma memory_inv_generate cfg m0 env fuel :
  memory_nodup m0 ->
  memory_inv cfg m0 (state_of (generate_prompts_for_model fuel cfg env m0)).
Proof.
  intros Hnd. unfold generate_prompts_for_model.
  assert (H0 : memory_inv cfg m0 (initial_state cfg m0)).
  { repeat split.
    - apply memory_nodup_initial. exact Hnd.
    - intros key Hne. apply initial_other. exact Hne.
    - rewrite memory_of_initial.
      destruct (use_memory cfg); simpl; rewrite app_nil_r; reflexivity. }
  pose proof (memory_inv_loop cfg m0 env fuel _ H0) as H.
  destruct (while_loop fuel cfg env (initial_state cfg m0)) as [st|st];
    simpl in *; [apply memory_inv_save|]; exact H.
Qed.

(** *** Parsing *)

Lemma parse_none_iff (response : pystr) :
  parse_ollama_output response = None
  <-> (Re.search Re.title_re response = None
       /\ Re.search Re.desc_re response = None
       /\ Re.search Re.style_re response = None)
      \/ (extracted Re.title_re response = []
          /\ extracted Re.desc_re response = []
          /\ extracted Re.style_re response = []).
Proof.
  unfold parse_ollama_output, extracted.
  destruct (Re.search Re.title_re response) as [t|];
    destruct (Re.search Re.desc_re response) as [d|];
    destruct (Re.search Re.style_re response) as [s|];
    try (destruct (strip t)); try (destruct (strip d));
    try (destruct (strip s)); simpl;
    split; intros H; try discriminate; try reflexivity; auto;
    destruct H as [(H1 & H2 & H3) | (H1 & H2 & H3)]; discriminate.
Qed.

Lemma record_of_unparsed (stdout : pystr) :
  parse_ollama_output (strip stdout) = None ->
  record_of stdout = unparsed (strip stdout).
Proof. intros H. unfold record_of. rewrite H. reflexivity. Qed.

Lemma record_of_parsed (stdout : pystr) (p : prompt) :
  parse_ollama_output (strip stdout) = Some p -> record_of stdout = p.
Proof. intros H. unfold record_of. rewrite H. reflexivity. Qed.

Lemma strip_line_value (v : pystr) : Re.line_value v -> strip v = v.
Proof.
  intros (_ & _ & Hh & Hl). unfold strip.
  apply ReFacts.strip_with_ends; assumption.
Qed.

(** A response of three labelled lines parses to its three values. *)
Lemma parse_three_lines (tl dl sl b1 b2 b3 oq cq t d s : pystr) :
  Re.written_as (py "Title:") tl ->
  Re.written_as (py "Description:") dl ->
  Re.written_as (py "Style:") sl ->
  Re.blanks b1 -> Re.blanks b2 -> Re.blanks b3 ->
  Re.opening_quote oq -> Re.closing_quote cq ->
  Re.line_value t -> Re.unquoted t -> Re.line_value d -> Re.line_value s ->
  parse_ollama_output
    (Re.title_line tl b1 oq t cq
     ++ NL :: Re.value_line dl b2 d ++ NL :: Re.value_line sl b3 s)
  = Some {| title := t; description := d; style := s |}.
Proof.
  intros Htl Hdl Hsl Hb1 Hb2 Hb3 Hoq Hcq Ht Htq Hd Hs.
  unfold parse_ollama_output.
  rewrite (ReFacts.search_title tl dl sl b1 b2 b3 oq cq t d s)
    by assumption.
  rewrite (ReFacts.search_desc tl dl sl b1 b2 b3 oq cq t d s)
    by assumption.
  rewrite (ReFacts.search_style tl dl sl b1 b2 b3 oq cq t d s)
    by assumption.
  rewrite !strip_line_value by assumption.
  destruct Ht as (Hne & _). destruct t; [contradiction|]. reflexivity.
Qed.

(** A response that begins with the line of the title and holds no other
    label parses to the record of that title alone. *)
Lemma parse_title_only (tl b oq t cq tail : pystr) :
  Re.written_as (py "Title:") tl ->
  Re.blanks b -> Re.opening_quote oq -> Re.closing_quote cq ->
  Re.line_value t -> Re.unquoted t -> Re.line_end tail ->
  ~ Re.has_label (py "Description:") (Re.title_line tl b oq t cq ++ tail) ->
  ~ Re.has_label (py "Style:") (Re.title_line tl b oq t cq ++ tail) ->
  parse_ollama_output (Re.title_line tl b oq t cq ++ tail)
  = Some {| title := t; description := []; style := [] |}.
Proof.
  intros Htl Hb Hoq Hcq Ht Htq Htail Hnd Hns.
  assert (Hd : Re.search Re.desc_re (Re.title_line tl b oq t cq ++ tail)
               = None).
  { destruct (Re.search Re.desc_re _) eqn:E; [|reflexivity].
    exfalso. apply Hnd. eapply ReFacts.search_label. exact E. }
  assert (Hs : Re.search Re.style_re (Re.title_line tl b oq t cq ++ tail)
               = None).
  { destruct (Re.search Re.style_re _) eqn:E; [|reflexivity].
    exfalso. apply Hns. eapply ReFacts.search_label. exact E. }
  assert (Hti : Re.search Re.title_re (Re.title_line tl b oq t cq ++ tail)
                = Some t).
  { destruct (ReFacts.title_label_head tl Htl) as (x & tl' & Etl & Hx).
    destruct Ht as (Hne & Hn & Hh & Hz).
    unfold Re.search, Re.title_line.
    rewrite (ReFacts.search_from_here Re.title_re None _
               (t ++ cq ++ tail, cq ++ tail)).
    - cbn [option_map]. rewrite ReFacts.group1_piece. reflexivity.
    - change Re.title_re with (Re.lazy_re (py "Title:")).
      rewrite <- !app_assoc.
      apply ReFacts.run_lazy_line;
        [reflexivity|exact Htl| | |exact Hb|exact Hoq|exact Hcq|exact Hne
        |exact Hn| | |exact Htail].
      + rewrite Etl. intros c [= <-]. destruct Hx as [-> | ->]; reflexivity.
      + rewrite Etl. discriminate.
      + intros c Hc. destruct (proj1 Htq c Hc). auto.
      + intros c Hc. destruct (proj2 Htq c Hc). auto. }
  unfold parse_ollama_output. rewrite Hti, Hd, Hs.
  rewrite (strip_line_value t Ht).
  destruct Ht as (Hne & _). destruct t; [contradiction|]. reflexivity.
Qed.

End PromptGenFacts.

Module PromptGenSpec.
Import Py PromptGen PromptGenFacts Examples.

(** C4, as amended.  An attempt whose record (parsed or fallback) is equal,
    field by field, to a record of the sequence the check looks at (the
    model's memory when [use_memory], the unsaved list of the run
    otherwise) goes on to the next attempt with the attempt counter one
    higher and nothing else changed: the accepted counter, the memory, the
    unsaved list and the written batches are as before.  And for three
    attempts with replies and no cancellation, a target of at least three,
    the first and third record equal and the second different, the count
    of accepted records after the three attempts is two, provided the
    model's memory did not already hold the two records (when
    [use_memory]), and provided no flush empties the unsaved list before
    the third attempt (when not [use_memory]: [auto_save_every] is neither
    1 nor 2). *)
Theorem duplicate_attempt_is_rejected :
  (forall cfg ev st stdout,
      stop_generation ev = false -> reply ev = Ok stdout ->
      In (record_of stdout) (checked_list cfg st) ->
      iteration cfg ev st = (true, with_attempts st (attempts st + 1)))
  /\ (forall cfg env memory o1 o2 o3,
        3 <= num_prompts cfg ->
        env 0%nat = Event false (Ok o1) ->
        env 1%nat = Event false (Ok o2) ->
        env 2%nat = Event false (Ok o3) ->
        record_of o3 = record_of o1 ->
        record_of o2 <> record_of o1 ->
        (use_memory cfg = true ->
         ~ In (record_of o1) (memory_of memory (model_name cfg))
         /\ ~ In (record_of o2) (memory_of memory (model_name cfg))) ->
        (use_memory cfg = false -> ~ (1 <= auto_save_every cfg <= 2)) ->
        exists st,
          while_loop 3 cfg env (initial_state cfg memory) = OutOfFuel st
          /\ prompt_index st = 2
          /\ attempts st = 3
          /\ accepted st = [record_of o1; record_of o2]).
Proof.
  split; [exact iteration_duplicate|].
  intros cfg env memory o1 o2 o3 Hn E0 E1 E2 H31 H21 Hmem Hflush.
  set (r1 := record_of o1) in *. set (r2 := record_of o2) in *.
  set (st0 := initial_state cfg memory).
  set (st1 := accept_record cfg (with_attempts st0 (attempts st0 + 1)) r1).
  set (st2 := accept_record cfg (with_attempts st1 (attempts st1 + 1)) r2).
  set (st3 := with_attempts st2 (attempts st2 + 1)).
  (* the counters along the way *)
  assert (A1 : attempts st1 = 1)
    by (unfold st1; rewrite accept_attempts; reflexivity).
  assert (P1 : prompt_index st1 = 1)
    by (unfold st1; rewrite accept_prompt_index; reflexivity).
  assert (A2 : attempts st2 = 2)
    by (unfold st2; rewrite accept_attempts; simpl; lia).
  assert (P2 : prompt_index st2 = 2)
    by (unfold st2; rewrite accept_prompt_index; simpl; lia).
  (* what the duplicate check looks at *)
  assert (C0 : ~ In r1 (checked_list cfg st0)).
  { unfold checked_list. destruct (use_memory cfg) eqn:Hum.
    - unfold st0. rewrite memory_of_initial. apply Hmem. reflexivity.
    - simpl. tauto. }
  assert (M1 : use_memory cfg = true ->
               memory_of (ALL_PROMPTS_MEMORY st1) (model_name cfg)
               = memory_of memory (model_name cfg) ++ [r1]).
  { intros Hum. unfold st1.
    rewrite accept_memory, Hum, memory_of_insert, memory_with_attempts.
    unfold st0. rewrite memory_of_initial. reflexivity. }
  assert (C1 : ~ In r2 (checked_list cfg st1)).
  { unfold checked_list. destruct (use_memory cfg) eqn:Hum.
    - rewrite (M1 eq_refl). rewrite in_app_iff. simpl.
      destruct (Hmem eq_refl) as [_ Hm2]. intuition congruence.
    - destruct (accept_run_cases cfg (with_attempts st0 (attempts st0 + 1)) r1)
        as [E|E]; fold st1 in E; rewrite E; simpl; intuition congruence. }
  assert (C2 : In r1 (checked_list cfg st2)).
  { unfold checked_list. destruct (use_memory cfg) eqn:Hum.
    - unfold st2.
      rewrite accept_memory, Hum, memory_of_insert, memory_with_attempts.
      rewrite (M1 eq_refl), !in_app_iff. simpl. auto.
    - specialize (Hflush eq_refl).
      unfold st2. rewrite accept_run_noflush
        by (cbn [prompt_index with_attempts]; rewrite P1;
            apply no_flush_small; [exact Hflush | lia]).
      rewrite run_with_attempts.
      unfold st1. rewrite accept_run_noflush
        by (apply no_flush_small; [exact Hflush | simpl; lia]).
      rewrite run_with_attempts. simpl. auto. }
  exists st3.
  assert (L0 : loop_condition cfg st0 = true)
    by (apply loop_condition_true; simpl; lia).
  assert (L1 : loop_condition cfg st1 = true)
    by (apply loop_condition_true; lia).
  assert (L2 : loop_condition cfg st2 = true)
    by (apply loop_condition_true; lia).
  assert (L3 : loop_condition cfg st3 = true)
    by (apply loop_condition_true; unfold st3; simpl; lia).
  assert (I0 : iteration cfg (env 0%nat) st0 = (true, st1)).
  { rewrite E0. apply (iteration_new cfg _ st0 o1); [reflexivity..|exact C0]. }
  assert (I1 : iteration cfg (env 1%nat) st1 = (true, st2)).
  { rewrite E1. apply (iteration_new cfg _ st1 o2); [reflexivity..|exact C1]. }
  assert (I2 : iteration cfg (env 2%nat) st2 = (true, st3)).
  { rewrite E2. apply (iteration_duplicate cfg _ st2 o3); [reflexivity..|].
    rewrite H31. exact C2. }
  split.
  - rewrite while_loop_unfold, L0.
    change (Z.to_nat (attempts st0)) with 0%nat. rewrite I0.
    rewrite while_loop_unfold, L1, A1.
    change (Z.to_nat 1) with 1%nat. rewrite I1.
    rewrite while_loop_unfold, L2, A2.
    change (Z.to_nat 2) with 2%nat. rewrite I2.
    simpl. rewrite L3. reflexivity.
  - repeat split.
    + unfold st3. simpl. exact P2.
    + unfold st3. simpl. lia.
    + unfold st3, accepted.
      cbn [csv_batches new_prompts_this_run with_attempts].
      change (accepted st2 = [r1; r2]).
      unfold st2. rewrite accept_accepted.
      change (accepted (with_attempts st1 (attempts st1 + 1)))
        with (accepted st1).
      unfold st1. rewrite accept_accepted. reflexivity.
Qed.

(** C4 as stated fails, in three ways.  When all three attempts reply the
    same, one record is accepted.  When the durable memory already holds the
    record of the second attempt, one record is accepted.  And with memory
    off and a flush after every accepted record, the unsaved list is empty
    when the third attempt is checked: the repeated record is accepted
    again, three records are accepted, and the CSV writer is handed the
    repeated record a second time. *)
Lemma repeated_reply_counts :
  prompt_index
    (state_of (while_loop 3 cfg_plain env_aaa (initial_state cfg_plain ∅)))
  = 1
  /\ prompt_index
       (state_of (while_loop 3 cfg_plain env_aba
                             (initial_state cfg_plain memory_b)))
     = 1
  /\ record_of reply_a <> record_of reply_b
  /\ exists st,
      generate_prompts_for_model 9 cfg_flush env_aba ∅ = Finished st
      /\ attempts st = 3
      /\ prompt_index st = 3
      /\ csv_batches st
         = [[record_of reply_a]; [record_of reply_b]; [record_of reply_a]].
Proof.
  split; [vm_compute; reflexivity|].
  split; [vm_compute; reflexivity|].
  split; [vm_compute; discriminate|].
  eexists. split; [vm_compute; reflexivity|].
  repeat split.
Qed.

(** C4 on the replies A, B, A with memory on: two records are accepted. *)
Lemma duplicate_attempt_is_rejected_witness :
  exists st,
    while_loop 3 cfg_memory env_aba (initial_state cfg_memory ∅) = OutOfFuel st
    /\ prompt_index st = 2
    /\ attempts st = 3
    /\ accepted st = [record_of reply_a; record_of reply_b].
Proof.
  apply (proj2 duplicate_attempt_is_rejected cfg_memory env_aba ∅
           reply_a reply_b reply_a).
  - simpl. lia.
  - reflexivity.
  - reflexivity.
  - reflexivity.
  - reflexivity.
  - vm_compute. discriminate.
  - intros _. split; vm_compute; tauto.
  - intros H. discriminate H.
Defined.

(** C5.  Every memory the process can hold (empty at start, emptied by a
    reset, given a key when a run begins, changed by the iterations of any
    runs in any order, with or without [use_memory]) has no two equal
    records in the sequence of any model.  An iteration changes a sequence
    only by adding at its end, and a whole run keeps the order of
    insertion: the sequence of its model is the old sequence followed by
    the records the run accepted, in the order of acceptance (nothing is
    added without [use_memory]), and the sequences of the other models are
    untouched. *)
Theorem memory_never_repeats :
  (forall m, reachable m -> memory_nodup m)
  /\ (forall fuel cfg env m,
        reachable m ->
        reachable (ALL_PROMPTS_MEMORY
                     (state_of (generate_prompts_for_model fuel cfg env m))))
  /\ (forall cfg ev st key,
        exists added,
          memory_of (ALL_PROMPTS_MEMORY (snd (iteration cfg ev st))) key
          = memory_of (ALL_PROMPTS_MEMORY st) key ++ added)
  /\ (forall fuel cfg env m,
        memory_nodup m ->
        let st := state_of (generate_prompts_for_model fuel cfg env m) in
        memory_nodup (ALL_PROMPTS_MEMORY st)
        /\ memory_of (ALL_PROMPTS_MEMORY st) (model_name cfg)
           = memory_of m (model_name cfg)
             ++ (if use_memory cfg then accepted st else [])
        /\ (forall key, key <> model_name cfg ->
                        ALL_PROMPTS_MEMORY st !! key = m !! key)).
Proof.
  split; [exact reachable_nodup|].
  split; [intros fuel cfg env m; apply reachable_generate|].
  split; [exact iteration_appends|].
  intros fuel cfg env m Hnd st.
  destruct (memory_inv_generate cfg m env fuel Hnd) as (H1 & H2 & H3).
  auto.
Qed.

(** The memory after a run with a repeated reply, started from the empty
    memory. *)
Lemma memory_never_repeats_witness :
  memory_nodup
    (ALL_PROMPTS_MEMORY
       (state_of (generate_prompts_for_model 9 cfg_memory env_aba ∅))).
Proof.
  apply (proj1 memory_never_repeats).
  apply (proj1 (proj2 memory_never_repeats)).
  apply reach_start.
Defined.

(** C6.  The example response parses to the record (Foo, Bar, Baz), also
    when the labels are written in another case.  In general, a response of
    three lines that hold, in this order, the labels Title:, Description:
    and Style: written in any case, each followed by blanks and a value (a
    text without white space at its ends; the title may stand in quotes),
    parses to the record of the three values; a response that begins with
    such a line of the title and holds neither of the other labels parses
    to the record of the title with the other fields empty; and every
    record the parser returns is made of the three texts the patterns
    extract.  Whenever none
    of the three patterns matches (which is so, in particular, when none of
    the three labels occurs in the response in any case), or the three
    extracted fields are all empty after trimming, parsing gives nothing.
    The loop works with the parsed record when there is one, and otherwise
    with the record whose title is UNPARSED, whose description is the whole
    response text (the text handed to the parser) and whose style is empty.
    In a state of a run (the model has its key in the memory) either record
    goes through the same duplicate check: found, the attempt is spent and
    nothing is accepted; not found, the record is accepted. *)
Theorem parsing_and_fallback :
  parse_ollama_output sample_response
  = Some {| title := py "Foo"; description := py "Bar"; style := py "Baz" |}
  /\ parse_ollama_output sample_response_mixed_case
     = parse_ollama_output sample_response
  /\ (forall tl dl sl b1 b2 b3 oq cq t d s,
        Re.written_as (py "Title:") tl ->
        Re.written_as (py "Description:") dl ->
        Re.written_as (py "Style:") sl ->
        Re.blanks b1 -> Re.blanks b2 -> Re.blanks b3 ->
        Re.opening_quote oq -> Re.closing_quote cq ->
        Re.line_value t -> Re.unquoted t ->
        Re.line_value d -> Re.line_value s ->
        parse_ollama_output
          (Re.title_line tl b1 oq t cq
           ++ NL :: Re.value_line dl b2 d ++ NL :: Re.value_line sl b3 s)
        = Some {| title := t; description := d; style := s |})
  /\ (forall tl b oq t cq tail,
        Re.written_as (py "Title:") tl ->
        Re.blanks b -> Re.opening_quote oq -> Re.closing_quote cq ->
        Re.line_value t -> Re.unquoted t -> Re.line_end tail ->
        ~ Re.has_label (py "Description:")
            (Re.title_line tl b oq t cq ++ tail) ->
        ~ Re.has_label (py "Style:") (Re.title_line tl b oq t cq ++ tail) ->
        parse_ollama_output (Re.title_line tl b oq t cq ++ tail)
        = Some {| title := t; description := []; style := [] |})
  /\ (forall response p,
        parse_ollama_output response = Some p ->
        p = {| title := extracted Re.title_re response;
               description := extracted Re.desc_re response;
               style := extracted Re.style_re response |})
  /\ (forall response,
        (Re.search Re.title_re response = None
         /\ Re.search Re.desc_re response = None
         /\ Re.search Re.style_re response = None)
        \/ (extracted Re.title_re response = []
            /\ extracted Re.desc_re response = []
            /\ extracted Re.style_re response = []) ->
        parse_ollama_output response = None)
  /\ (forall response,
        ~ Re.has_label (py "Title:") response ->
        ~ Re.has_label (py "Description:") response ->
        ~ Re.has_label (py "Style:") response ->
        parse_ollama_output response = None)
  /\ (forall stdout p,
        parse_ollama_output (strip stdout) = Some p ->
        record_of stdout = p)
  /\ (forall stdout,
        parse_ollama_output (strip stdout) = None ->
        record_of stdout
        = {| title := py "UNPARSED";
             description := strip stdout;
             style := [] |})
  /\ (forall cfg ev st stdout,
        stop_generation ev = false -> reply ev = Ok stdout ->
        (use_memory cfg = true ->
         is_Some (ALL_PROMPTS_MEMORY st !! model_name cfg)) ->
        (In (record_of stdout) (checked_list cfg st) ->
         iteration cfg ev st = (true, with_attempts st (attempts st + 1)))
        /\ (~ In (record_of stdout) (checked_list cfg st) ->
            iteration cfg ev st
            = (true, accept_record cfg (with_attempts st (attempts st + 1))
                                   (record_of stdout))))
  /\ (forall cfg ev st stdout,
        stop_generation ev = false -> reply ev = Ok stdout ->
        (use_memory cfg = true ->
         is_Some (ALL_PROMPTS_MEMORY st !! model_name cfg)) ->
        parse_ollama_output (strip stdout) = None ->
        (In (unparsed (strip stdout)) (checked_list cfg st) ->
         iteration cfg ev st = (true, with_attempts st (attempts st + 1)))
        /\ (~ In (unparsed (strip stdout)) (checked_list cfg st) ->
            iteration cfg ev st
            = (true, accept_record cfg (with_attempts st (attempts st + 1))
                                   (unparsed (strip stdout))))).
Proof.
  split; [vm_compute; reflexivity|].
  split; [vm_compute; reflexivity|].
  split; [exact parse_three_lines|].
  split; [exact parse_title_only|].
  split.
  { intros response p. unfold parse_ollama_output, extracted.
    destruct (Re.search Re.title_re response) as [t|];
      destruct (Re.search Re.desc_re response) as [d|];
      destruct (Re.search Re.style_re response) as [s|]; try discriminate;
      (destruct (_ && _); [discriminate|]); intros [= <-]; reflexivity. }
  split; [intros response H; apply parse_none_iff; exact H|].
  split.
  { intros response Ht Hd Hs. apply parse_none_iff. left.
    apply ReFacts.no_label_no_match; assumption. }
  split; [exact record_of_parsed|].
  split; [exact record_of_unparsed|].
  split.
  { intros cfg ev st stdout Hs Hr _. split; intros Hin.
    - apply (iteration_duplicate cfg ev st stdout Hs Hr). exact Hin.
    - apply (iteration_new cfg ev st stdout Hs Hr). exact Hin. }
  intros cfg ev st stdout Hs Hr _ Hp.
  pose proof (record_of_unparsed stdout Hp) as Hrec.
  split; intros Hin.
  - apply (iteration_duplicate cfg ev st stdout Hs Hr). rewrite Hrec. exact Hin.
  - rewrite <- Hrec. apply (iteration_new cfg ev st stdout Hs Hr).
    rewrite Hrec. exact Hin.
Qed.

(** C6 on a reply with the labels in other cases, a tab after one of them
    and the title in quotes. *)
Lemma parsing_and_fallback_witness :
  parse_ollama_output
    (py "title: " ++ [QUOTE] ++ py "A cat" ++ [QUOTE] ++ [NL]
     ++ py "DESCRIPTION:" ++ [9%N] ++ py "sleeping" ++ [NL]
     ++ py "Style:oil")
  = Some {| title := py "A cat"; description := py "sleeping";
            style := py "oil" |}.
Proof.
  apply (proj1 (proj2 (proj2 parsing_and_fallback))
           (py "title:") (py "DESCRIPTION:") (py "Style:")
           (py " ") [9%N] [] [QUOTE] [QUOTE]
           (py "A cat") (py "sleeping") (py "oil")).
  1-3: repeat (constructor; [reflexivity|]); constructor.
  1-3: repeat (constructor; [split; [reflexivity|discriminate]|]);
       constructor.
  - right. left. reflexivity.
  - right. left. reflexivity.
  - repeat split; try discriminate; try (intros c [= <-]; reflexivity).
    vm_compute. intuition discriminate.
  - split; intros c [= <-]; split; discriminate.
  - repeat split; try discriminate; try (intros c [= <-]; reflexivity).
    vm_compute. intuition discriminate.
  - repeat split; try discriminate; try (intros c [= <-]; reflexivity).
    vm_compute. intuition discriminate.
Defined.

(** C9.  For a target of at least one record, the loop ends within
    [3 * target] iterations whatever the collaborator replies: with that
    much fuel the function returns.  At the end at most [3 * target]
    attempts were made and at most [target] records accepted; a flag that is
    set when iteration [k] polls it ends the loop with at most [k] attempts
    made, and the function still returns normally with what was accepted
    until then; replies beyond the budget are never asked for; and an
    iteration that goes on has spent exactly one attempt and accepted at
    most one record. *)
Theorem retry_loop_terminates
    (cfg : config) (env : nat -> event) (memory : gmap pystr (list prompt))
    (fuel : nat) :
  1 <= num_prompts cfg ->
  (Z.to_nat (num_prompts cfg * 3) <= fuel)%nat ->
  exists st,
    generate_prompts_for_model fuel cfg env memory = Finished st
    /\ 0 <= attempts st <= num_prompts cfg * 3
    /\ 0 <= prompt_index st <= num_prompts cfg
    /\ (forall k : nat,
          stop_generation (env k) = true -> attempts st <= Z.of_nat k)
    /\ (forall env' : nat -> event,
          (forall k : nat, Z.of_nat k < num_prompts cfg * 3 -> env' k = env k) ->
          generate_prompts_for_model fuel cfg env' memory = Finished st)
    /\ (forall ev s s',
          iteration cfg ev s = (true, s') ->
          attempts s' = attempts s + 1
          /\ (prompt_index s' = prompt_index s
              \/ prompt_index s' = prompt_index s + 1)).
Proof.
  intros Hn Hfuel.
  destruct (while_loop_finishes cfg env fuel (initial_state cfg memory))
    as [st Hst]; [simpl; lia|].
  assert (Hok0 : counters_ok cfg (initial_state cfg memory))
    by (unfold counters_ok; simpl; lia).
  pose proof (while_loop_counters cfg env fuel _ Hok0) as Hok.
  rewrite Hst in Hok. simpl in Hok. unfold counters_ok in Hok.
  exists (save_prompts_to_csv st).
  unfold generate_prompts_for_model.
  rewrite Hst, save_attempts, save_prompt_index.
  split; [reflexivity|]. split; [lia|]. split; [lia|].
  split; [|split].
  - intros k Hstop.
    pose proof (while_loop_stops cfg env k Hstop fuel
                  (initial_state cfg memory)) as H.
    rewrite Hst in H. simpl in H. apply H. lia.
  - intros env' Hext.
    rewrite (while_loop_ext cfg env env' Hext) by (simpl; lia).
    rewrite Hst. reflexivity.
  - intros ev s s' Hit. apply iteration_counters in Hit. exact Hit.
Qed.

(** The operator stops the run before the second attempt: the function
    returns with one attempt made. *)
Lemma retry_loop_terminates_witness :
  exists st,
    generate_prompts_for_model 9 cfg_memory env_stop ∅ = Finished st
    /\ attempts st <= 1.
Proof.
  destruct (retry_loop_terminates cfg_memory env_stop ∅ 9)
    as (st & Hrun & _ & _ & Hstop & _).
  - simpl. lia.
  - simpl. lia.
  - exists st. split; [exact Hrun|].
    apply (Hstop 1%nat). reflexivity.
Defined.

End PromptGenSpec.

(* --------------------------------------------------------------------- *)
(** ** The error boundary of the three nodes *)
(* --------------------------------------------------------------------- *)

Module BoundarySpec.
Import Py PyFacts LooperFacts Examples.

Section WithInterpreter.

Context `{interp : Interpreter}.

Lemma step_size_zero_raises
    format_fixed float_of_str u seed sv ev ss lc dp cv self :
  PrimFloat.is_zero ss = true ->
  Seed.process_seed format_fixed float_of_str u seed (py "increment")
                    sv ev ss lc dp cv self
  = (Raise ZeroDivisionError, self).
Proof.
  intros Hz. unfold Seed.process_seed, Seed.process_seed_try.
  destruct (PrimFloat.ltb ev sv);
    change (str_eqb (py "increment") (py "disabled")) with false;
    change (str_eqb (py "increment") (py "fixed")) with false;
    change (str_eqb (py "increment") (py "random")) with false;
    change (str_eqb (py "increment") (py "increment")) with true;
    cbn [negb andb]; unfold Seed.step_branch, Seed.truediv;
    rewrite Hz; reflexivity.
Qed.

(** C7.  [read_row] returns the empty string whenever its body raises: in
    particular when the file is neither cached nor present, when its
    extension is not [.csv], and when the chosen index is outside the rows.
    [read_excel_row] does the same, in particular for a missing file and for
    a row index outside the sheet.  [process_seed] hands every exception of
    its body on to the caller, for instance the division by a zero step
    size in the increment mode. *)
Theorem errors_at_the_boundary :
  (forall csv_reader rnd p mode s e st d (w : Looper.world),
      (forall x w',
          Looper.read_row_try csv_reader rnd p mode s e st d w = (Raise x, w') ->
          Looper.read_row csv_reader rnd p mode s e st d w = ([], w'))
      /\ (Looper.file_path_cache w <> Some p ->
          Looper.files w !! p = None ->
          Looper.read_row csv_reader rnd p mode s e st d w = ([], w))
      /\ (Looper.file_path_cache w <> Some p ->
          lower (snd (Looper.splitext p)) <> py ".csv" ->
          Looper.read_row csv_reader rnd p mode s e st d w = ([], w))
      /\ (forall data wl i w',
          Looper.load_file csv_reader p d w = (Ok (Some data), wl) ->
          Looper.choose_index rnd mode
            (Looper.get_state_file_path p
               (fst (Looper.normalize_range (len data) s e))
               (snd (Looper.normalize_range (len data) s e)) st mode)
            (fst (Looper.normalize_range (len data) s e))
            (snd (Looper.normalize_range (len data) s e)) st wl
          = (Ok i, w') ->
          ~ (- len data <= i < len data) ->
          Looper.read_row csv_reader rnd p mode s e st d w = ([], w')))
  /\ (forall (cell : Type) (str_of_cell : cell -> pystr) read_excel
             (files : gmap pystr pystr) p row_index d,
      (forall x,
          ReadExcelRow.read_excel_row_try cell str_of_cell read_excel
            files p row_index d = Raise x ->
          ReadExcelRow.read_excel_row cell str_of_cell read_excel
            files p row_index d = [])
      /\ (files !! p = None ->
          ReadExcelRow.read_excel_row cell str_of_cell read_excel
            files p row_index d = [])
      /\ (forall content df,
          files !! p = Some content -> read_excel content = Ok df ->
          ~ (0 <= row_index < len df) ->
          ReadExcelRow.read_excel_row cell str_of_cell read_excel
            files p row_index d = []))
  /\ (forall format_fixed float_of_str u seed mode sv ev ss lc dp cv self,
      (forall x self',
          Seed.process_seed_try format_fixed float_of_str u seed mode
            sv ev ss lc dp cv self = (Raise x, self') ->
          Seed.process_seed format_fixed float_of_str u seed mode
            sv ev ss lc dp cv self = (Raise x, self'))
      /\ (mode = py "increment" -> PrimFloat.is_zero ss = true ->
          Seed.process_seed format_fixed float_of_str u seed mode
            sv ev ss lc dp cv self = (Raise ZeroDivisionError, self))).
Proof.
  split; [|split].
  - intros csv_reader rnd p mode s e st d w.
    split; [intros x w'; apply read_row_raise|].
    split; [|split].
    + intros Hc Hf. apply (read_row_raise _ _ _ _ _ _ _ _ _ FileNotFoundError).
      unfold Looper.read_row_try, Looper.load_file.
      rewrite bool_decide_eq_false_2 by exact Hc. simpl.
      rewrite Hf. reflexivity.
    + intros Hc Hext.
      unfold Looper.read_row, Looper.read_row_try, Looper.load_file.
      rewrite bool_decide_eq_false_2 by exact Hc. simpl.
      destruct (Looper.files w !! p); [|reflexivity].
      unfold str_eqb. rewrite bool_decide_eq_false_2 by exact Hext.
      reflexivity.
    + intros data wl i w' Hload Hc Hout.
      unfold Looper.read_row, Looper.read_row_try.
      rewrite Hload. cbn [Looper.get_row_count].
      destruct (Looper.normalize_range (len data) s e) as [a b].
      cbn [fst snd] in Hc. rewrite Hc.
      change (default [] (Some data)) with data.
      rewrite (getitem_out_of_range data i Hout). reflexivity.
  - intros cell str_of_cell read_excel files p row_index d.
    split; [|split].
    + intros x H. unfold ReadExcelRow.read_excel_row. rewrite H. reflexivity.
    + intros Hf. unfold ReadExcelRow.read_excel_row,
        ReadExcelRow.read_excel_row_try. rewrite Hf. reflexivity.
    + intros content df Hf Hr Hout.
      unfold ReadExcelRow.read_excel_row, ReadExcelRow.read_excel_row_try.
      rewrite Hf, Hr. cbn [bind].
      destruct (Z.ltb_spec row_index 0); [reflexivity|].
      destruct (Z.leb_spec (len df) row_index); [reflexivity|lia].
  - intros format_fixed float_of_str u seed mode sv ev ss lc dp cv self.
    split.
    + intros x self' H. unfold Seed.process_seed. rewrite H. reflexivity.
    + intros -> Hz. apply step_size_zero_raises. exact Hz.
Qed.

End WithInterpreter.

#[local] Existing Instance sample_interpreter.

(** A path that does not exist gives the empty string; a zero step size
    reaches the caller of the seed node as [ZeroDivisionError]. *)
Lemma errors_at_the_boundary_witness :
  Looper.read_row Looper.plain_csv_reader 0 (py "/data/none.csv")
                  (py "increment") 0 10 1 (py ",") w_fresh
  = ([], w_fresh)
  /\ ReadExcelRow.read_excel_row pystr (fun c => c)
       (fun _ => Ok rows5) {[csv_path := csv_text]} csv_path 7 (py " ")
     = []
  /\ Seed.process_seed no_format no_float 0%float 7 (py "increment")
                       0%float 1%float 0%float 10 2 None seed_self0
     = (Raise ZeroDivisionError, seed_self0).
Proof.
  destruct errors_at_the_boundary as (Hcsv & Hxls & Hseed).
  split; [|split].
  - destruct (Hcsv Looper.plain_csv_reader 0 (py "/data/none.csv")
                (py "increment") 0 10 1 (py ",") w_fresh)
      as (_ & Hmissing & _).
    apply Hmissing.
    + simpl. discriminate.
    + vm_compute. reflexivity.
  - destruct (Hxls pystr (fun c => c) (fun _ => Ok rows5)
                {[csv_path := csv_text]} csv_path 7 (py " "))
      as (_ & _ & Hrange).
    apply (Hrange csv_text rows5).
    + vm_compute. reflexivity.
    + reflexivity.
    + unfold len. simpl. lia.
  - destruct (Hseed no_format no_float 0%float 7 (py "increment")
                0%float 1%float 0%float 10 2 None seed_self0)
      as (_ & Hzero).
    apply Hzero; reflexivity.
Defined.

End BoundarySpec.

(* --------------------------------------------------------------------- *)
(** ** Facts about splitting, prefixes and [int] of a string *)
(* --------------------------------------------------------------------- *)

Module PyMoreFacts.
Import Py PyFacts PyMore.

Lemma split_on_nonempty (c : N) (s : pystr) : split_on c s <> [].
Proof.
  induction s as [|x s IH]; simpl; [discriminate|].
  destruct (x =? c)%N; [discriminate|].
  destruct (split_on c s); discriminate.
Qed.

Lemma split_on_absent (c : N) (s : pystr) :
  ~ In c s -> split_on c s = [s].
Proof.
  induction s as [|x s IH]; intros H; simpl; [reflexivity|].
  destruct (N.eqb_spec x c) as [->|Hne].
  - exfalso. apply H. left. reflexivity.
  - rewrite IH; [reflexivity|]. intros Hin. apply H. right. exact Hin.
Qed.

(** Splitting at a separator splits the two sides. *)
Lemma split_on_sep (c : N) (a t : pystr) :
  split_on c (a ++ c :: t) = split_on c a ++ split_on c t.
Proof.
  induction a as [|x a IH]; simpl.
  - rewrite N.eqb_refl. reflexivity.
  - destruct (x =? c)%N.
    + rewrite IH. reflexivity.
    + rewrite IH. pose proof (split_on_nonempty c a) as Hne.
      destruct (split_on c a) as [|h tl]; [contradiction|]. reflexivity.
Qed.

Lemma last_app_nonempty {A} (l1 l2 : list A) (d : A) :
  l2 <> [] -> List.last (l1 ++ l2) d = List.last l2 d.
Proof.
  intros H. induction l1 as [|x l1 IH]; [reflexivity|].
  simpl. destruct (l1 ++ l2) eqn:E; [|exact IH].
  apply app_eq_nil in E as [_ E]. contradiction.
Qed.

Lemma NoDup_map_on {A B} (f : A -> B) (l : list A) :
  (forall x y, In x l -> In y l -> f x = f y -> x = y) ->
  List.NoDup l -> List.NoDup (List.map f l).
Proof.
  intros Hinj Hnd. induction Hnd as [|x l Hx Hnd IH]; simpl; constructor.
  - intros Hin. apply in_map_iff in Hin as (y & Hy & Hin).
    assert (y = x) by (apply Hinj; simpl; auto). subst. contradiction.
  - apply IH. intros a b Ha Hb. apply Hinj; simpl; auto.
Qed.

Lemma digits_acc_zeros (k : nat) (s : pystr) (seen : bool) :
  digits_acc 0 seen (repeat 48%N k ++ s)
  = digits_acc 0 (match k with O => seen | S _ => true end) s.
Proof.
  revert seen. induction k as [|k IH]; intros seen; [reflexivity|].
  cbn [repeat app digits_acc]. change (is_digit 48) with true. cbv iota.
  change (10 * 0 + (Z.of_N 48 - 48)) with 0. rewrite IH.
  destruct k; reflexivity.
Qed.

Lemma digit_without (x : N) (ds : pystr) :
  is_digit x = false -> Forall (fun c => is_digit c = true) ds -> ~ In x ds.
Proof.
  intros Hx H Hin. rewrite Forall_forall in H.
  apply list_elem_of_In in Hin. specialize (H x Hin). congruence.
Qed.

Lemma startswith_app (prefix s : pystr) : startswith prefix (prefix ++ s) = true.
Proof.
  unfold startswith. apply bool_decide_eq_true_2.
  rewrite firstn_app, Nat.sub_diag, firstn_all. simpl. apply app_nil_r.
Qed.

Lemma endswith_app (suffix s : pystr) : endswith suffix (s ++ suffix) = true.
Proof.
  unfold endswith. apply bool_decide_eq_true_2.
  rewrite length_app.
  replace (length s + length suffix - length suffix)%nat with (length s)
    by lia.
  rewrite skipn_app, Nat.sub_diag, skipn_all. reflexivity.
Qed.

(** *** The number of digits of [str(n)] *)

Lemma count_digits_all (ds : pystr) :
  Forall (fun c => is_digit c = true) ds -> count_digits ds = len ds.
Proof.
  intros H. unfold count_digits. f_equal.
  induction H as [|c ds Hc _ IH]; [reflexivity|].
  simpl. rewrite Hc. simpl. f_equal. exact IH.
Qed.

Lemma count_digits_le (s : pystr) : count_digits s <= len s.
Proof.
  unfold count_digits, len. apply inj_le, List.filter_length_le.
Qed.

Lemma uint_value_lower (d : Decimal.uint) :
  forall acc, 0 <= acc ->
    acc * 10 ^ len (chars_of_uint d) <= uint_value acc d.
Proof.
  unfold len.
  induction d; intros acc Hacc; cbn [chars_of_uint uint_value length];
    [ simpl; lia | .. ];
    rewrite Nat2Z.inj_succ, Z.pow_succ_r by lia;
    match goal with
    | |- _ <= uint_value ?a _ =>
        specialize (IHd a ltac:(lia));
        pose proof (Z.pow_nonneg 10 (Z.of_nat (length (chars_of_uint d)))
                      ltac:(lia));
        nia
    end.
Qed.

(** The first digit of [str(p)] is not a zero. *)
Lemma to_uint_head (p : positive) :
  match Pos.to_uint p with
  | Decimal.Nil | Decimal.D0 _ => False
  | _ => True
  end.
Proof.
  assert (Hnorm : Decimal.unorm (Pos.to_uint p) = Pos.to_uint p).
  { rewrite <- DecimalPos.Unsigned.to_of, DecimalPos.Unsigned.of_to.
    reflexivity. }
  pose proof (Unsigned.to_uint_nonnil p) as Hnil.
  pose proof (Unsigned.to_uint_nonzero p) as Hzero.
  destruct (Pos.to_uint p) as [|t| | | | | | | | |]; try exact I.
  - contradiction.
  - rewrite DecimalFacts.unorm_D0 in Hnorm.
    destruct (Decimal.uint_eq_dec t Decimal.Nil) as [->|Hne];
      [contradiction|].
    pose proof (DecimalFacts.nb_digits_unorm t Hne) as Hle.
    rewrite Hnorm in Hle. cbn [Decimal.nb_digits] in Hle. lia.
Qed.

Lemma nb_digits_chars (d : Decimal.uint) :
  length (chars_of_uint d) = Decimal.nb_digits d.
Proof. induction d; simpl; congruence. Qed.

(** A positive number below [10 ^ k] has at most [k] digits. *)
Lemma digits_of_pos (p : positive) (k : Z) :
  0 <= k -> Z.pos p < 10 ^ k -> len (chars_of_uint (Pos.to_uint p)) <= k.
Proof.
  intros Hk Hp. pose proof (to_uint_head p) as Hh.
  pose proof (uint_value_to_uint p) as Hv.
  destruct (Z.le_gt_cases (len (chars_of_uint (Pos.to_uint p))) k) as [|Hgt];
    [assumption|exfalso].
  assert (Hlow : 10 ^ (len (chars_of_uint (Pos.to_uint p)) - 1) <= Z.pos p).
  { rewrite <- Hv. unfold len in *.
    destruct (Pos.to_uint p) as [|t|t|t|t|t|t|t|t|t|t]; try contradiction;
      cbn [chars_of_uint uint_value length];
      rewrite Nat2Z.inj_succ;
      replace (Z.succ (Z.of_nat (length (chars_of_uint t))) - 1)
        with (Z.of_nat (length (chars_of_uint t))) by lia;
      match goal with
      | |- _ <= uint_value ?a _ =>
          pose proof (uint_value_lower t a ltac:(lia)) as Hl;
          unfold len in Hl;
          pose proof (Z.pow_pos_nonneg 10
                        (Z.of_nat (length (chars_of_uint t)))
                        ltac:(lia) ltac:(lia));
          nia
      end. }
  assert (10 ^ k <= 10 ^ (len (chars_of_uint (Pos.to_uint p)) - 1)).
  { apply Z.pow_le_mono_r; lia. }
  lia.
Qed.

(** An integer below [10 ^ 4300] in absolute value has a numeral within
    the limit. *)
Lemma count_digits_py_str (n : Z) :
  Z.abs n < 10 ^ INT_MAX_STR_DIGITS ->
  count_digits (py_str n) <= INT_MAX_STR_DIGITS.
Proof.
  intros Hn. destruct n as [|p|p]; cbn [py_str].
  - vm_compute. discriminate.
  - rewrite count_digits_all by apply chars_of_uint_digits.
    apply digits_of_pos; [unfold INT_MAX_STR_DIGITS; lia|exact Hn].
  - change (count_digits (45%N :: chars_of_uint (Pos.to_uint p)))
      with (count_digits (chars_of_uint (Pos.to_uint p))).
    rewrite count_digits_all by apply chars_of_uint_digits.
    apply digits_of_pos; [unfold INT_MAX_STR_DIGITS; lia|exact Hn].
Qed.

Section WithInterpreter.

Context `{interp : Interpreter}.

Lemma int_of_str_within (s : pystr) :
  count_digits (to_ascii s) <= INT_MAX_STR_DIGITS ->
  int_of_str s = py_int s.
Proof.
  intros H. unfold int_of_str.
  destruct (Z.ltb_spec INT_MAX_STR_DIGITS (count_digits (to_ascii s)));
    [lia|reflexivity].
Qed.

Lemma int_of_str_beyond (s : pystr) :
  INT_MAX_STR_DIGITS < count_digits (to_ascii s) ->
  int_of_str s = Raise ValueError.
Proof.
  intros H. unfold int_of_str.
  destruct (Z.ltb_spec INT_MAX_STR_DIGITS (count_digits (to_ascii s)));
    [reflexivity|lia].
Qed.

(** [int] raises nothing but [ValueError]. *)
Lemma py_int_raises (s : pystr) (e : exn) :
  py_int s = Raise e -> e = ValueError.
Proof.
  unfold py_int.
  destruct (match strip_with is_c_space (to_ascii s) with
            | 43%N :: ds => digits_acc 0 false ds
            | 45%N :: ds => option_map Z.opp (digits_acc 0 false ds)
            | ds => digits_acc 0 false ds
            end); [discriminate|congruence].
Qed.

Lemma int_of_str_raises (s : pystr) (e : exn) :
  int_of_str s = Raise e -> e = ValueError.
Proof.
  unfold int_of_str. destruct (_ <? _); [congruence|apply py_int_raises].
Qed.

(** [int(str(n))] is [n], within the limit. *)
Lemma int_of_str_py_str (n : Z) :
  Z.abs n < 10 ^ INT_MAX_STR_DIGITS -> int_of_str (py_str n) = Ok n.
Proof.
  intros Hn. rewrite int_of_str_within, py_int_py_str; [reflexivity|].
  rewrite (to_ascii_fixed _ (py_str_ascii n)).
  apply count_digits_py_str. exact Hn.
Qed.

End WithInterpreter.

End PyMoreFacts.

(* --------------------------------------------------------------------- *)
(** ** More on the looper: position file, key derivation, frame, cache *)
(* --------------------------------------------------------------------- *)

Module LooperMoreFacts.
Import Py Looper LooperMore PyFacts LooperFacts.

(** *** Padding that [strip] removes *)

Lemma lstrip_app_all (p : N -> bool) (pre s : pystr) :
  Forall (fun c => p c = true) pre -> lstrip p (pre ++ s) = lstrip p s.
Proof.
  induction 1 as [|c pre Hc _ IH]; simpl; [reflexivity|].
  rewrite Hc. exact IH.
Qed.

Lemma lstrip_all (p : N -> bool) (s : pystr) :
  Forall (fun c => p c = true) s -> lstrip p s = [].
Proof.
  intros H. rewrite <- (app_nil_r s), lstrip_app_all by exact H. reflexivity.
Qed.

Lemma strip_with_padded (p : N -> bool) (pre s post : pystr) :
  Forall (fun c => p c = true) pre ->
  Forall (fun c => p c = true) post ->
  Forall (fun c => p c = false) s ->
  strip_with p (pre ++ s ++ post) = s.
Proof.
  intros Hpre Hpost Hs. unfold strip_with.
  rewrite lstrip_app_all by exact Hpre.
  destruct s as [|c s].
  - simpl. rewrite lstrip_all by exact Hpost. reflexivity.
  - inversion Hs as [|? ? Hc Hs']; subst.
    simpl. rewrite Hc. unfold rstrip.
    change (c :: s ++ post) with ((c :: s) ++ post).
    rewrite rev_app_distr, lstrip_app_all by (apply Forall_rev; exact Hpost).
    rewrite lstrip_fixed; [apply rev_involutive|].
    intros x Hx. apply Forall_rev in Hs.
    destruct (rev (c :: s)) as [|y l]; [discriminate|].
    injection Hx as <-. inversion Hs; assumption.
Qed.

(** *** The characters of [str(z)] *)

Lemma py_str_chars (z : Z) :
  Forall (fun c => is_int_char c = true) (py_str z).
Proof.
  unfold is_int_char.
  destruct z as [|p|p]; simpl.
  - repeat constructor.
  - eapply Forall_impl; [apply chars_of_uint_digits|].
    intros c ->. reflexivity.
  - constructor; [reflexivity|].
    eapply Forall_impl; [apply chars_of_uint_digits|].
    intros c ->. reflexivity.
Qed.

Lemma int_char_not_space (c : N) : is_int_char c = true -> is_space c = false.
Proof.
  unfold is_int_char. intros H. apply orb_true_iff in H as [H|H].
  - apply digit_not_space. exact H.
  - apply N.eqb_eq in H. subst. reflexivity.
Qed.

Lemma int_char_not (x : N) (c : N) :
  is_int_char x = false -> is_int_char c = true -> c <> x.
Proof. intros Hx Hc ->. congruence. Qed.

Lemma py_str_no_space (z : Z) :
  Forall (fun c => is_space c = false) (py_str z).
Proof.
  eapply Forall_impl; [apply py_str_chars|]. apply int_char_not_space.
Qed.

Lemma py_str_without (x : N) (z : Z) :
  is_int_char x = false -> ~ In x (py_str z).
Proof.
  intros Hx Hin.
  pose proof (py_str_chars z) as H. rewrite Forall_forall in H.
  apply list_elem_of_In in Hin. specialize (H x Hin). congruence.
Qed.

Lemma py_str_inj (a b : Z) : py_str a = py_str b -> a = b.
Proof.
  intros H.
  pose proof (py_int_py_str (interp := {| unicode_decimal := fun _ => None |})
                a) as Ha.
  rewrite H, py_int_py_str in Ha. congruence.
Qed.

(** Two texts cut at the first occurrence of a separator. *)
Lemma app_sep_inj {A} (c : A) (l1 l2 r1 r2 : list A) :
  ~ In c l1 -> ~ In c l2 ->
  l1 ++ c :: r1 = l2 ++ c :: r2 -> l1 = l2 /\ r1 = r2.
Proof.
  revert l2. induction l1 as [|x l1 IH]; intros [|y l2] H1 H2 Heq; simpl in *.
  - injection Heq as <-. auto.
  - injection Heq as <- _. tauto.
  - injection Heq as -> _. tauto.
  - injection Heq as <- Heq.
    destruct (IH l2) as [-> ->]; auto.
Qed.

(** *** [os.path.splitext] *)

Lemma splitext_join (p : pystr) :
  fst (splitext p) ++ snd (splitext p) = p.
Proof.
  unfold splitext. destruct (_ && _); simpl.
  - apply firstn_skipn.
  - apply app_nil_r.
Qed.

Lemma rfind_from_app (c : N) (s1 s2 : pystr) :
  forall i last,
    rfind_from c (s1 ++ s2) i last
    = rfind_from c s2 (i + len s1) (rfind_from c s1 i last).
Proof.
  unfold len. induction s1 as [|x s1 IH]; intros i last; simpl.
  - f_equal. lia.
  - rewrite IH. f_equal. lia.
Qed.

Lemma rfind_from_absent (c : N) (s : pystr) :
  ~ In c s -> forall i last, rfind_from c s i last = last.
Proof.
  induction s as [|x s IH]; intros Hin i last; simpl; [reflexivity|].
  destruct (N.eqb_spec x c) as [->|Hne].
  - exfalso. apply Hin. left. reflexivity.
  - apply IH. intros H. apply Hin. right. exact H.
Qed.

(** The path [dir ++ name ++ "." ++ e], where [dir] is empty or ends with a
    slash, [name] has no slash and is not made of dots only, and [e] has
    neither a dot nor a slash, splits before the dot. *)
Lemma splitext_name_ext (dir name e : pystr) :
  dir = [] \/ (exists d, dir = d ++ [47%N]) ->
  ~ In 47%N name -> (exists c, In c name /\ c <> 46%N) ->
  ~ In 46%N e -> ~ In 47%N e ->
  splitext (dir ++ name ++ 46%N :: e) = (dir ++ name, 46%N :: e).
Proof.
  intros Hdir Hname (c & Hc & Hdot) He1 He2.
  assert (Hsep : rfind 47 (dir ++ name ++ 46%N :: e) + 1 = len dir).
  { unfold rfind. rewrite !rfind_from_app.
    rewrite (rfind_from_absent 47 (46%N :: e)).
    2:{ intros [H|H]; [discriminate | contradiction]. }
    rewrite (rfind_from_absent 47 name) by exact Hname.
    destruct Hdir as [->|(d & ->)]; [reflexivity|].
    rewrite rfind_from_app. simpl. unfold len. rewrite length_app. simpl.
    lia. }
  assert (Hdotix : rfind 46 (dir ++ name ++ 46%N :: e) = len (dir ++ name)).
  { unfold rfind. rewrite app_assoc, rfind_from_app. simpl.
    rewrite (rfind_from_absent 46 e) by exact He1. reflexivity. }
  unfold splitext. rewrite Hdotix.
  replace (rfind 47 (dir ++ name ++ 46%N :: e)) with (len dir - 1) by lia.
  replace (len dir - 1 + 1) with (len dir) by lia.
  assert (Hslice : slice (dir ++ name ++ 46%N :: e) (len dir) (len (dir ++ name))
                   = name).
  { unfold slice, len. rewrite Nat2Z.id, length_app.
    rewrite skipn_app, Nat.sub_diag, skipn_all. simpl.
    replace (Z.to_nat (Z.of_nat (length dir + length name) - Z.of_nat (length dir)))
      with (length name) by lia.
    change (drop 0 (name ++ 46%N :: e)) with (name ++ 46%N :: e).
    rewrite firstn_app, Nat.sub_diag, firstn_all. simpl.
    apply app_nil_r. }
  rewrite Hslice.
  assert (Hex : existsb (fun c => negb (c =? 46)%N) name = true).
  { apply existsb_exists. exists c. split; [exact Hc|].
    apply negb_true_iff, N.eqb_neq. exact Hdot. }
  rewrite Hex.
  assert (Hlt : (len dir - 1 <? len (dir ++ name)) = true).
  { apply Z.ltb_lt. unfold len. rewrite length_app. lia. }
  rewrite Hlt. simpl. unfold len. rewrite Nat2Z.id.
  rewrite app_assoc.
  rewrite firstn_app, Nat.sub_diag, firstn_all. simpl. rewrite app_nil_r.
  rewrite skipn_app, Nat.sub_diag, skipn_all. reflexivity.
Qed.

(** *** What a call writes *)

Lemma load_file_files cr (p d : pystr) (w wl : world) r :
  load_file cr p d w = (r, wl) -> files wl = files w.
Proof.
  unfold load_file.
  destruct (negb _).
  - destruct (files w !! p) as [text|]; [|intros [= _ <-]; reflexivity].
    destruct (negb _); [intros [= _ <-]; reflexivity|].
    destruct (cr d text); intros [= _ <-]; reflexivity.
  - intros [= _ <-]. reflexivity.
Qed.

Lemma load_file_raise cr (p d : pystr) (w wl : world) e :
  load_file cr p d w = (Raise e, wl) -> wl = w.
Proof.
  unfold load_file.
  destruct (negb _).
  - destruct (files w !! p) as [text|]; [|intros [= _ <-]; reflexivity].
    destruct (negb _); [intros [= _ <-]; reflexivity|].
    destruct (cr d text); [discriminate | intros [= _ <-]; reflexivity].
  - discriminate.
Qed.

Section WithInterpreter.

Context `{interp : Interpreter}.

Lemma choose_index_files rnd mode sf a b s w r w' :
  choose_index rnd mode sf a b s w = (r, w') ->
  (mode <> py "increment" -> w' = w)
  /\ (forall q, q <> sf -> files w' !! q = files w !! q).
Proof.
  unfold choose_index.
  destruct (str_eqb mode (py "disabled")); [intros [= _ <-]; auto|].
  destruct (str_eqb mode (py "random")); [intros [= _ <-]; auto|].
  destruct (str_eqb mode (py "increment")) eqn:E; [|intros [= _ <-]; auto].
  apply str_eqb_true in E. intros [= _ <-]. split; [congruence|].
  intros q Hq. simpl. apply lookup_insert_ne. congruence.
Qed.

(** The position file is never the data file. *)
Lemma state_file_not_data_file (p mode : pystr) (a b s : Z) :
  lower (snd (splitext p)) = py ".csv" ->
  get_state_file_path p a b s mode <> p.
Proof.
  intros Hext Heq. unfold get_state_file_path in Heq.
  rewrite <- (splitext_join p) in Heq at 2.
  apply app_inv_head in Heq.
  apply (f_equal (@length N)) in Heq.
  assert (Hl : length (snd (splitext p)) = 4%nat).
  { apply (f_equal (@length N)) in Hext. unfold lower in Hext.
    rewrite length_map in Hext. exact Hext. }
  rewrite Hl, !length_app in Heq. simpl in Heq. lia.
Qed.

Section Reader.

Variable csv_reader : pystr -> pystr -> result (list (list pystr)).

Lemma load_file_idem (p d d' : pystr) (w wl : world) data :
  load_file csv_reader p d w = (Ok data, wl) ->
  load_file csv_reader p d' wl = (Ok data, wl).
Proof.
  intros H. destruct (load_file_ok csv_reader _ _ _ _ _ H) as (Hp & Hd & _).
  rewrite load_file_cached by exact Hp. rewrite Hd. reflexivity.
Qed.

Lemma read_row_try_loaded rnd p mode s e st d w data wl :
  load_file csv_reader p d w = (Ok (Some data), wl) ->
  read_row_try csv_reader rnd p mode s e st d w
  = after_load rnd p mode s e st d data wl.
Proof.
  intros Hload. unfold read_row_try, after_load. rewrite Hload.
  cbn [get_row_count].
  destruct (normalize_range (len data) s e) as [a b]. cbn [fst snd].
  change (default [] (Some data)) with data. reflexivity.
Qed.

Lemma read_row_try_not_loaded rnd p mode s e st d w x wl :
  load_file csv_reader p d w = (Raise x, wl) ->
  read_row_try csv_reader rnd p mode s e st d w = (Raise x, w).
Proof.
  intros Hload. unfold read_row_try. rewrite Hload.
  apply load_file_raise in Hload. subst. reflexivity.
Qed.

Lemma read_row_try_no_data rnd p mode s e st d w wl :
  load_file csv_reader p d w = (Ok None, wl) ->
  read_row_try csv_reader rnd p mode s e st d w = (Raise TypeError, wl).
Proof. intros Hload. unfold read_row_try. rewrite Hload. reflexivity. Qed.

End Reader.

End WithInterpreter.

End LooperMoreFacts.

Module LooperMoreSpec.
Import Py PyMore Looper LooperMore PyFacts PyMoreFacts LooperFacts
       LooperMoreFacts Examples MoreExamples.

Section WithInterpreter.

Context `{interp : Interpreter}.

(** X1.  What [write_current_index] writes, [read_current_index] reads
    back, whatever the start index given as default; the position files of
    the other configurations, and every other file, are left as they were,
    and so are the two cache variables. *)
Theorem position_file_round_trip
    (state_file : pystr) (start_index index : Z) (w : world) :
  read_current_index state_file start_index
    (write_current_index state_file index w) = index
  /\ (forall other, other <> state_file ->
        files (write_current_index state_file index w) !! other
        = files w !! other)
  /\ (forall other default, other <> state_file ->
        read_current_index other default
          (write_current_index state_file index w)
        = read_current_index other default w)
  /\ file_path_cache (write_current_index state_file index w)
     = file_path_cache w
  /\ file_data_cache (write_current_index state_file index w)
     = file_data_cache w.
Proof.
  split; [apply read_current_index_written|].
  split.
  { intros other Hne. simpl. apply lookup_insert_ne. congruence. }
  split; [|split; reflexivity].
  intros other default Hne. unfold read_current_index. simpl.
  rewrite lookup_insert_ne by congruence. reflexivity.
Qed.

(** X2.  What [read_current_index] makes of the position file.  Whatever
    integer the interpreter's [int] reads from the content without the
    white space around it is the position: in particular an integer below
    [10 ^ 4300] in absolute value, written as [str] writes it and
    surrounded by white space (a trailing line feed, say).  The start
    index is returned when the file is absent, empty or blank. *)
Theorem read_current_index_tolerant
    (state_file : pystr) (start_index : Z) (w : world) :
  (files w !! state_file = None ->
   read_current_index state_file start_index w = start_index)
  /\ (forall text v,
        files w !! state_file = Some text ->
        int_of_str (strip text) = Ok v ->
        read_current_index state_file start_index w = v)
  /\ (forall pre post v,
        Forall (fun c => is_space c = true) pre ->
        Forall (fun c => is_space c = true) post ->
        Z.abs v < 10 ^ INT_MAX_STR_DIGITS ->
        int_of_str (strip (pre ++ py_str v ++ post)) = Ok v)
  /\ (forall text,
        files w !! state_file = Some text ->
        Forall (fun c => is_space c = true) text ->
        int_of_str (strip text) = Raise ValueError
        /\ read_current_index state_file start_index w = start_index).
Proof.
  unfold read_current_index. split; [intros ->; reflexivity|].
  split; [|split].
  - intros text v -> Hint.
    rewrite (int_of_str_py_int _ _ Hint). reflexivity.
  - intros pre post v Hpre Hpost Hv.
    unfold strip at 1.
    rewrite (strip_with_padded is_space pre (py_str v) post Hpre Hpost
               (py_str_no_space v)).
    apply int_of_str_py_str. exact Hv.
  - intros text -> Hall.
    assert (Hs : strip text = []).
    { unfold strip, strip_with. rewrite lstrip_all by exact Hall.
      reflexivity. }
    rewrite Hs. split; reflexivity.
Qed.

(** For one file and mode, two names are equal only when the indices and
    the step they are built from are. *)
Lemma get_state_file_path_inj
    (file_path loop_mode : pystr) (a b s a' b' s' : Z) :
  get_state_file_path file_path a b s loop_mode
  = get_state_file_path file_path a' b' s' loop_mode
  <-> a = a' /\ b = b' /\ s = s'.
Proof.
  split; [|intros (-> & -> & ->); reflexivity].
  unfold get_state_file_path. intros H.
  do 4 apply app_inv_head in H.
  change (py "_") with [95%N] in H. cbn [app] in H.
  assert (Hu : is_int_char 95 = false) by reflexivity.
  apply app_sep_inj in H as [Ha H]; try (apply py_str_without; exact Hu).
  apply app_sep_inj in H as [Hb H]; try (apply py_str_without; exact Hu).
  apply app_inv_tail in H.
  apply py_str_inj in Ha, Hb, H. auto.
Qed.

Section Reader.

Variable csv_reader : pystr -> pystr -> result (list (list pystr)).

Lemma read_row_world rnd p mode s e st d w :
  snd (read_row csv_reader rnd p mode s e st d w)
  = snd (read_row_try csv_reader rnd p mode s e st d w).
Proof.
  unfold read_row.
  destruct (read_row_try csv_reader rnd p mode s e st d w) as [[[i t]|x] w'];
    reflexivity.
Qed.

Lemma after_load_world rnd p mode s e st d data wl :
  snd (after_load rnd p mode s e st d data wl)
  = snd (choose_index rnd mode
           (get_state_file_path p
              (fst (normalize_range (len data) s e))
              (snd (normalize_range (len data) s e)) st mode)
           (fst (normalize_range (len data) s e))
           (snd (normalize_range (len data) s e)) st wl).
Proof.
  unfold after_load.
  destruct (choose_index _ _ _ _ _ _ _) as [[i|x] w2]; [|reflexivity].
  destruct (getitem data i); reflexivity.
Qed.

(** After the load a call depends on the world only through what the load
    left. *)
Lemma read_row_try_reload rnd p mode s e st d w data wl :
  load_file csv_reader p d w = (Ok data, wl) ->
  read_row_try csv_reader rnd p mode s e st d wl
  = read_row_try csv_reader rnd p mode s e st d w.
Proof.
  intros Hload. pose proof (load_file_idem csv_reader p d d w wl data Hload) as H.
  unfold read_row_try. rewrite Hload, H. reflexivity.
Qed.

Lemma read_current_index_files sf a (w1 w2 : world) :
  files w1 = files w2 ->
  read_current_index sf a w1 = read_current_index sf a w2.
Proof. unfold read_current_index. intros ->. reflexivity. Qed.

(** X3.  Which position file a call uses.  [read_row] builds the name from
    the range after normalisation: in the increment mode it reads the
    position from that file and writes the next position into it.  Two
    calls on the same data file, mode and table therefore use the same
    position file exactly when their normalised ranges and their steps are
    equal.  Configurations that differ before normalisation can share a
    position: all end indices from the last row on give the same file, and
    so do a range and the same range with start and end exchanged. *)
Theorem position_file_follows_normalised_range
    (file_path mode : pystr) (rows s e st s' e' st' : Z) :
  (state_file_of file_path mode rows s e st
   = state_file_of file_path mode rows s' e' st'
   <-> normalize_range rows s e = normalize_range rows s' e' /\ st = st')
  /\ (rows - 1 <= e -> rows - 1 <= e' ->
      state_file_of file_path mode rows s e st
      = state_file_of file_path mode rows s e' st)
  /\ (0 <= s < rows -> 0 <= e < rows ->
      state_file_of file_path mode rows s e st
      = state_file_of file_path mode rows e s st)
  /\ (forall rnd delimiter data w wl,
        load_file csv_reader file_path delimiter w = (Ok (Some data), wl) ->
        rows = len data ->
        let a := fst (normalize_range rows s e) in
        let b := snd (normalize_range rows s e) in
        let sf := state_file_of file_path (py "increment") rows s e st in
        let i := read_current_index sf a w in
        fst (read_row_try csv_reader rnd file_path (py "increment") s e st
                          delimiter w)
        = match getitem data i with
          | Ok row => Ok (i, strip_chars STRIP_CHARS (join delimiter row))
          | Raise x => Raise x
          end
        /\ files (snd (read_row csv_reader rnd file_path (py "increment")
                                s e st delimiter w)) !! sf
           = Some (py_str (if b <? i + st then a else i + st))).
Proof.
  assert (Hiff : forall s e st s' e' st',
    state_file_of file_path mode rows s e st
    = state_file_of file_path mode rows s' e' st'
    <-> normalize_range rows s e = normalize_range rows s' e' /\ st = st').
  { clear. intros s e st s' e' st'. unfold state_file_of.
    destruct (normalize_range rows s e) as [a b].
    destruct (normalize_range rows s' e') as [a' b'].
    rewrite get_state_file_path_inj. split.
    - intros (-> & -> & ->). auto.
    - intros [[= -> ->] ->]. auto. }
  split; [apply Hiff|]. split; [|split].
  - intros He He'. apply Hiff. split; [|reflexivity].
    unfold normalize_range. case_compare; try lia; f_equal; lia.
  - intros Hs He. apply Hiff. split; [|reflexivity].
    unfold normalize_range. case_compare; try lia; f_equal; lia.
  - intros rnd delimiter data w wl Hload -> a b sf i.
    pose proof (load_file_files _ _ _ _ _ _ Hload) as Hf.
    assert (Hsf : sf = get_state_file_path file_path a b st (py "increment")).
    { unfold sf, state_file_of, a, b.
      destruct (normalize_range (len data) s e). reflexivity. }
    split.
    + rewrite (read_row_try_loaded csv_reader _ _ _ _ _ _ _ _ _ _ Hload).
      unfold after_load. fold a b. rewrite <- Hsf.
      rewrite choose_index_increment.
      rewrite (read_current_index_files sf a wl w Hf). fold i.
      destruct (getitem data i); reflexivity.
    + rewrite read_row_world.
      rewrite (read_row_try_loaded csv_reader _ _ _ _ _ _ _ _ _ _ Hload).
      rewrite after_load_world. fold a b. rewrite <- Hsf.
      rewrite choose_index_increment. cbn [snd]. simpl files.
      rewrite lookup_insert_eq.
      rewrite (read_current_index_files sf a wl w Hf). reflexivity.
Qed.

(** X4.  What a call of [read_row] may write.  Outside the increment mode
    no file changes.  In the increment mode the only file that can change
    is the position file of the call.  A call whose load fails leaves the
    whole world, cache included, as it was.  And the data file itself, a
    path whose extension is [.csv] in any case, is never written. *)
Theorem read_row_writes_only_position_file
    (rnd : Z) (file_path mode delimiter : pystr) (raw_start raw_end step : Z)
    (w : world) :
  let w' := snd (read_row csv_reader rnd file_path mode raw_start raw_end
                          step delimiter w) in
  (mode <> py "increment" -> files w' = files w)
  /\ (forall data wl other,
        load_file csv_reader file_path delimiter w = (Ok (Some data), wl) ->
        other <> get_state_file_path file_path
                   (fst (normalize_range (len data) raw_start raw_end))
                   (snd (normalize_range (len data) raw_start raw_end))
                   step mode ->
        files w' !! other = files w !! other)
  /\ (forall x wl,
        load_file csv_reader file_path delimiter w = (Raise x, wl) -> w' = w)
  /\ (lower (snd (splitext file_path)) = py ".csv" ->
      files w' !! file_path = files w !! file_path).
Proof.
  intros w'. unfold w'. rewrite read_row_world.
  destruct (load_file csv_reader file_path delimiter w) as [[[data|]|x] wl]
    eqn:Hload.
  - rewrite (read_row_try_loaded csv_reader _ _ _ _ _ _ _ _ _ _ Hload).
    rewrite after_load_world.
    pose proof (load_file_files _ _ _ _ _ _ Hload) as Hf.
    destruct (choose_index rnd mode
                (get_state_file_path file_path
                   (fst (normalize_range (len data) raw_start raw_end))
                   (snd (normalize_range (len data) raw_start raw_end))
                   step mode)
                (fst (normalize_range (len data) raw_start raw_end))
                (snd (normalize_range (len data) raw_start raw_end))
                step wl) as [r w2] eqn:Hc.
    destruct (choose_index_files _ _ _ _ _ _ _ _ _ Hc) as [H1 H2].
    cbn [snd]. split; [|split; [|split]].
    + intros Hm. rewrite (H1 Hm). exact Hf.
    + intros data' wl' other [= <- <-] Hne. rewrite (H2 other Hne), Hf.
      reflexivity.
    + intros x wl' [=].
    + intros Hext. rewrite H2, Hf; [reflexivity|].
      intros Heq. symmetry in Heq. revert Heq.
      apply state_file_not_data_file. exact Hext.
  - rewrite (read_row_try_no_data csv_reader _ _ _ _ _ _ _ _ _ Hload).
    pose proof (load_file_files _ _ _ _ _ _ Hload) as Hf. cbn [snd].
    split; [|split; [|split]].
    + intros _. exact Hf.
    + intros data' wl' other [=].
    + intros x wl' [=].
    + intros _. rewrite Hf. reflexivity.
  - rewrite (read_row_try_not_loaded csv_reader _ _ _ _ _ _ _ _ _ _ Hload).
    cbn [snd]. split; [|split; [|split]]; auto.
    all: try (intros data' wl' other [=]).
Qed.

(** X5.  An empty data source.  When the file has no rows, [read_row]
    returns the empty string in every mode and for every range; the range
    the normalisation computes from inputs that are not negative is
    [(-1, start_index)]; and the increment mode still writes its position
    file. *)
Theorem empty_source_returns_nothing
    (rnd : Z) (file_path mode delimiter : pystr) (raw_start raw_end step : Z)
    (w wl : world) :
  load_file csv_reader file_path delimiter w = (Ok (Some []), wl) ->
  fst (read_row csv_reader rnd file_path mode raw_start raw_end step
                delimiter w) = []
  /\ (0 <= raw_start -> 0 <= raw_end ->
      normalize_range 0 raw_start raw_end = (-1, raw_start))
  /\ (mode = py "increment" ->
      is_Some
        (files (snd (read_row csv_reader rnd file_path mode raw_start raw_end
                              step delimiter w))
         !! get_state_file_path file_path
              (fst (normalize_range 0 raw_start raw_end))
              (snd (normalize_range 0 raw_start raw_end)) step mode)).
Proof.
  intros Hload. split; [|split].
  - unfold read_row.
    rewrite (read_row_try_loaded csv_reader _ _ _ _ _ _ _ _ _ _ Hload).
    unfold after_load.
    destruct (choose_index _ _ _ _ _ _ _) as [[i|x] w2]; [|reflexivity].
    rewrite getitem_out_of_range; [reflexivity|].
    unfold len. simpl. lia.
  - intros Hs He. unfold normalize_range.
    destruct (Z.ltb_spec raw_start 0); [lia|].
    destruct (Z.leb_spec 0 raw_end); [|lia].
    destruct (Z.ltb_spec (0 - 1) raw_start); [reflexivity|lia].
  - intros ->. rewrite read_row_world.
    rewrite (read_row_try_loaded csv_reader _ _ _ _ _ _ _ _ _ _ Hload).
    rewrite after_load_world. change (len (@nil (list pystr))) with 0.
    rewrite choose_index_increment. cbn [snd]. simpl files.
    rewrite lookup_insert_eq. eauto.
Qed.

(** X6.  A position beyond the range costs one call.  When the
    interpreter's [int] reads from the position file an integer [v] with
    [v + step > end_index] (in particular any [v] above the range), the
    call serves index [v] (the empty string when there is no such row) and
    writes the start index, so that the calls that follow run through the
    cycle from its beginning. *)
Theorem stale_position_costs_one_call
    (file_path delimiter : pystr) (a b s : Z)
    (data : list (list pystr)) (w wl : world) (n : nat)
    (text : pystr) (v : Z) :
  let sf := get_state_file_path file_path a b s (py "increment") in
  load_file csv_reader file_path delimiter w = (Ok (Some data), wl) ->
  0 <= a -> a <= b -> b <= len data - 1 -> 0 < s ->
  files w !! sf = Some text -> int_of_str (strip text) = Ok v ->
  b < v + s ->
  fst (read_rows csv_reader (S n) file_path a b s delimiter w)
  = match getitem data v with
    | Ok row => Ok (v, strip_chars STRIP_CHARS (join delimiter row))
    | Raise x => Raise x
    end
    :: List.map (fun k => Ok (visit a b s k,
                              row_text delimiter data (visit a b s k)))
                (seq 0 n).
Proof.
  intros sf Hload Ha Hab Hb Hs Hfile Hint Hv.
  apply int_of_str_py_int in Hint.
  pose proof (load_file_files _ _ _ _ _ _ Hload) as Hf.
  destruct (load_file_ok csv_reader _ _ _ _ _ Hload) as (Hp & Hd & _).
  assert (Hcur : read_current_index sf a wl = v).
  { unfold read_current_index. rewrite Hf, Hfile, Hint. reflexivity. }
  cbn [read_rows].
  rewrite (read_row_try_loaded csv_reader _ _ _ _ _ _ _ _ _ _ Hload).
  unfold after_load. rewrite (normalize_range_fixed _ _ _ Ha Hab Hb).
  cbn [fst snd]. rewrite choose_index_increment. fold sf. rewrite Hcur.
  destruct (Z.ltb_spec b (v + s)); [|lia].
  set (w1 := write_current_index sf a wl).
  assert (Hload1 :
    load_file csv_reader file_path delimiter w1 = (Ok (Some data), w1)).
  { rewrite load_file_cached by exact Hp.
    unfold w1. simpl. rewrite Hd. reflexivity. }
  assert (Hcur1 : read_current_index sf a w1 = visit a b s 0).
  { unfold w1. rewrite read_current_index_written.
    symmetry. apply visit_zero; assumption. }
  destruct (read_rows_from csv_reader file_path delimiter a b s data
              Ha Hab Hb Hs n 0%nat w1 w1 Hload1 Hcur1) as [H1 _].
  destruct (getitem data v) as [row|x];
    destruct (read_rows csv_reader n file_path a b s delimiter w1)
      as [rs w2]; simpl in *; rewrite H1; reflexivity.
Qed.

(** X7.  The disabled mode is stable: a call leaves the files as they
    were, and a further call with the same arguments, made in the world
    the first call left, returns the same text and leaves the same world,
    whatever the random draw. *)
Theorem disabled_mode_is_stable
    (rnd rnd' : Z) (file_path delimiter : pystr) (raw_start raw_end step : Z)
    (w : world) :
  let r := read_row csv_reader rnd file_path (py "disabled") raw_start
                    raw_end step delimiter w in
  read_row csv_reader rnd' file_path (py "disabled") raw_start raw_end step
           delimiter (snd r) = r
  /\ files (snd r) = files w.
Proof.
  assert (Hrnd : forall x y w0,
    read_row_try csv_reader x file_path (py "disabled") raw_start raw_end
                 step delimiter w0
    = read_row_try csv_reader y file_path (py "disabled") raw_start raw_end
                   step delimiter w0).
  { intros x y w0. unfold read_row_try.
    destruct (load_file csv_reader file_path delimiter w0) as [[data|e] wl];
      [|reflexivity].
    destruct (get_row_count data); reflexivity. }
  intros r. unfold r.
  destruct (load_file csv_reader file_path delimiter w) as [[data|x] wl]
    eqn:Hload.
  - assert (Hw : snd (read_row csv_reader rnd file_path (py "disabled")
                        raw_start raw_end step delimiter w) = wl).
    { rewrite read_row_world. unfold read_row_try. rewrite Hload.
      destruct (get_row_count data) as [total|e0]; [|reflexivity].
      destruct (normalize_range total raw_start raw_end) as [a b].
      change (choose_index rnd (py "disabled")
                (get_state_file_path file_path a b step (py "disabled"))
                a b step wl) with (@Ok Z a, wl).
      cbv iota beta. destruct (getitem (default [] data) a); reflexivity. }
    rewrite Hw. split.
    + unfold read_row.
      rewrite (read_row_try_reload rnd' _ _ _ _ _ _ _ _ _ Hload).
      rewrite (Hrnd rnd' rnd). reflexivity.
    + apply (load_file_files _ _ _ _ _ _ Hload).
  - assert (Hr : read_row csv_reader rnd file_path (py "disabled")
                   raw_start raw_end step delimiter w = ([], w)).
    { unfold read_row.
      rewrite (read_row_try_not_loaded csv_reader _ _ _ _ _ _ _ _ _ _ Hload).
      reflexivity. }
    rewrite Hr. cbn [snd]. split; [|reflexivity].
    unfold read_row.
    rewrite (read_row_try_not_loaded csv_reader _ _ _ _ _ _ _ _ _ _ Hload).
    reflexivity.
Qed.

(** X8.  The cache outlives the file.  Once a path is cached, a load of it
    returns the cached rows whatever has become of the files since, even
    when the file is gone; the file is looked at again only after another
    path has been loaded in between, and then a file that is gone is
    noticed. *)
Theorem cache_outlives_the_file
    (file_path d d' : pystr) (w wl : world)
    (data : option (list (list pystr))) (files' : gmap pystr pystr) :
  load_file csv_reader file_path d w = (Ok data, wl) ->
  let w2 := {| files := files';
               file_path_cache := file_path_cache wl;
               file_data_cache := file_data_cache wl |} in
  load_file csv_reader file_path d' w2 = (Ok data, w2)
  /\ (forall other d_other data_other w3,
        other <> file_path ->
        load_file csv_reader other d_other w2 = (Ok data_other, w3) ->
        files' !! file_path = None ->
        load_file csv_reader file_path d' w3 = (Raise FileNotFoundError, w3)).
Proof.
  intros Hload w2.
  destruct (load_file_ok csv_reader _ _ _ _ _ Hload) as (Hp & Hd & _).
  split.
  - rewrite load_file_cached by exact Hp. simpl. rewrite Hd. reflexivity.
  - intros other d_other data_other w3 Hne Hload2 Hgone.
    destruct (load_file_ok csv_reader _ _ _ _ _ Hload2) as (Hp3 & _ & Hf3).
    unfold load_file.
    rewrite bool_decide_eq_false_2 by (rewrite Hp3; congruence).
    simpl. rewrite Hf3. simpl. rewrite Hgone. reflexivity.
Qed.

End Reader.

(** X9.  Where the position file lives.  For a data file [dir/name.ext]
    ([name] without a slash and not made of dots only, [ext] without a dot
    or a slash) the position file is [dir/name_state_<mode>_<start>_<end>_
    <step>.txt]: it depends on the path without its extension, so that
    data files that differ only in the extension share their position
    files. *)
Theorem state_file_next_to_data_file
    (dir name ext ext' mode : pystr) (a b s : Z) :
  dir = [] \/ (exists d, dir = d ++ [47%N]) ->
  ~ In 47%N name -> (exists c, In c name /\ c <> 46%N) ->
  ~ In 46%N ext -> ~ In 47%N ext ->
  ~ In 46%N ext' -> ~ In 47%N ext' ->
  get_state_file_path (dir ++ name ++ 46%N :: ext) a b s mode
  = dir ++ name ++ py "_state_" ++ mode ++ py "_" ++ py_str a
    ++ py "_" ++ py_str b ++ py "_" ++ py_str s ++ py ".txt"
  /\ get_state_file_path (dir ++ name ++ 46%N :: ext') a b s mode
     = get_state_file_path (dir ++ name ++ 46%N :: ext) a b s mode.
Proof.
  intros Hdir Hname Hdots He1 He2 He1' He2'.
  unfold get_state_file_path.
  rewrite (splitext_name_ext dir name ext Hdir Hname Hdots He1 He2).
  rewrite (splitext_name_ext dir name ext' Hdir Hname Hdots He1' He2').
  cbn [fst]. rewrite <- !app_assoc. auto.
Qed.

End WithInterpreter.

(** The examples run on the interpreter of [Examples]. *)
#[local] Existing Instance sample_interpreter.

(** X2 on a position file that holds the Arabic-Indic digit four and a
    line feed: the position is 4. *)
Lemma read_current_index_tolerant_witness :
  read_current_index state_path 1
    {| files := {[state_path := [1636%N; NL]]};
       file_path_cache := None;
       file_data_cache := None |} = 4.
Proof.
  apply (proj1 (proj2 (read_current_index_tolerant state_path 1 _))
           [1636%N; NL] 4).
  - vm_compute. reflexivity.
  - vm_compute. reflexivity.
Defined.

(** X3 on the example: on five rows the ranges [1, 10] and [1, 99] use the
    same position file. *)
Lemma position_file_follows_normalised_range_witness :
  state_file_of csv_path (py "increment") 5 1 10 1
  = state_file_of csv_path (py "increment") 5 1 99 1.
Proof.
  apply (proj1 (proj2 (position_file_follows_normalised_range
                         plain_csv_reader csv_path (py "increment")
                         5 1 10 1 1 99 1))); lia.
Defined.

(** X5 on a file without rows: the call returns the empty string. *)
Lemma empty_source_returns_nothing_witness :
  fst (read_row plain_csv_reader 0 empty_path (py "increment") 0 10 1
                (py ",") w_empty) = [].
Proof.
  apply (empty_source_returns_nothing plain_csv_reader 0 empty_path
           (py "increment") (py ",") 0 10 1 w_empty
           (snd (load_file plain_csv_reader empty_path (py ",") w_empty))).
  vm_compute. reflexivity.
Defined.

(** X6 on the example with the position file that holds 4: the first call
    serves row 4, the next three the rows 1, 2, 3. *)
Lemma stale_position_costs_one_call_witness :
  List.map (fun r => match r with Ok (i, _) => Some i | Raise _ => None end)
    (fst (read_rows plain_csv_reader 4 csv_path 1 3 1 (py ",") w_stale))
  = [Some 4; Some 1; Some 2; Some 3].
Proof.
  rewrite (stale_position_costs_one_call plain_csv_reader csv_path (py ",")
             1 3 1 rows5 w_stale
             (snd (load_file plain_csv_reader csv_path (py ",") w_stale))
             3 (py "4") 4).
  - vm_compute. reflexivity.
  - vm_compute. reflexivity.
  - lia.
  - lia.
  - unfold len. simpl. lia.
  - lia.
  - vm_compute. reflexivity.
  - vm_compute. reflexivity.
  - lia.
Defined.

(** X8 on the example: the file is loaded and then deleted; the load still
    returns its five rows. *)
Lemma cache_outlives_the_file_witness :
  fst (load_file plain_csv_reader csv_path (py ";")
         {| files := ∅;
            file_path_cache := Some csv_path;
            file_data_cache := Some rows5 |})
  = Ok (Some rows5).
Proof.
  destruct (cache_outlives_the_file plain_csv_reader csv_path (py ",")
              (py ";") w_fresh w_loaded (Some rows5) ∅) as [H _].
  - vm_compute. reflexivity.
  - simpl in H. rewrite H. reflexivity.
Defined.

(** X9 on the example: the position file of [/data/rows.csv] is the one of
    [/data/rows.xlsx]. *)
Lemma state_file_next_to_data_file_witness :
  get_state_file_path (py "/data/rows.xlsx") 1 3 1 (py "increment")
  = state_path.
Proof.
  destruct (state_file_next_to_data_file (py "/data/") (py "rows")
              (py "csv") (py "xlsx") (py "increment") 1 3 1) as [H1 H2].
  - right. exists (py "/data"). reflexivity.
  - vm_compute. intuition discriminate.
  - exists 114%N. split; [vm_compute; auto | discriminate].
  - vm_compute. intuition discriminate.
  - vm_compute. intuition discriminate.
  - vm_compute. intuition discriminate.
  - vm_compute. intuition discriminate.
  - change (py "/data/rows.xlsx")
      with (py "/data/" ++ py "rows" ++ 46%N :: py "xlsx").
    rewrite H2, H1. vm_compute. reflexivity.
Defined.

End LooperMoreSpec.

(* --------------------------------------------------------------------- *)
(** ** The Excel variant of the looper *)
(* --------------------------------------------------------------------- *)

Module ExcelLooperSpec.
Import Py PyFacts LooperFacts LooperMoreFacts Examples.

Lemma getitem_map {A B} (f : A -> B) (l : list A) (i : Z) :
  getitem (List.map f l) i
  = match getitem l i with Ok x => Ok (f x) | Raise e => Raise e end.
Proof.
  unfold getitem, len. rewrite length_map.
  destruct (_ || _); [reflexivity|].
  rewrite nth_error_map.
  destruct (nth_error l _); reflexivity.
Qed.

Section WithInterpreter.

Context `{interp : Interpreter}.

(** The selection looks at the files only. *)
Lemma choose_index_by_files rnd mode sf a b s (w1 w2 : Looper.world) :
  Looper.files w1 = Looper.files w2 ->
  fst (Looper.choose_index rnd mode sf a b s w1)
  = fst (Looper.choose_index rnd mode sf a b s w2)
  /\ Looper.files (snd (Looper.choose_index rnd mode sf a b s w1))
     = Looper.files (snd (Looper.choose_index rnd mode sf a b s w2)).
Proof.
  intros Hf. unfold Looper.choose_index.
  destruct (str_eqb mode (py "disabled")); [auto|].
  destruct (str_eqb mode (py "random")); [auto|].
  destruct (str_eqb mode (py "increment")); [|auto].
  unfold Looper.read_current_index, Looper.write_current_index. simpl.
  rewrite Hf. auto.
Qed.

(** X10.  The two loopers agree.  With the same files, a CSV looper whose
    cache holds a table for its path and an Excel looper whose cache holds
    the same table (cell by cell, after [str]) for a path with the same
    name without extension select the same index, return the same text and
    leave the same files, in every mode: they read and write the same
    position file.  The second output of the Excel looper is the index in
    words, and it is empty exactly when the call failed. *)
Theorem excel_looper_agrees_with_csv_looper
    (csv_reader : pystr -> pystr -> result (list (list pystr)))
    (cell : Type) (str_of_cell : cell -> pystr)
    (read_excel : pystr -> result (list (list cell)))
    (rnd : Z) (csv_file xlsx_file mode delimiter : pystr)
    (raw_start raw_end step : Z)
    (wc : Looper.world) (wx : ExcelLooper.world cell)
    (rows : list (list cell)) :
  Looper.file_path_cache wc = Some csv_file ->
  Looper.file_data_cache wc = Some (List.map (List.map str_of_cell) rows) ->
  ExcelLooper.df_path wx = Some xlsx_file ->
  ExcelLooper.df_cache wx = Some rows ->
  ExcelLooper.files wx = Looper.files wc ->
  fst (Looper.splitext xlsx_file) = fst (Looper.splitext csv_file) ->
  let rc := Looper.read_row_try csv_reader rnd csv_file mode raw_start
                                raw_end step delimiter wc in
  let rx := ExcelLooper.read_row_try cell str_of_cell read_excel rnd
                                     xlsx_file mode raw_start raw_end step
                                     delimiter wx in
  fst rx = fst rc
  /\ ExcelLooper.files (snd rx) = Looper.files (snd rc)
  /\ ExcelLooper.read_row cell str_of_cell read_excel rnd xlsx_file mode
       raw_start raw_end step delimiter wx
     = (fst (Looper.read_row csv_reader rnd csv_file mode raw_start raw_end
                             step delimiter wc),
        match fst rc with
        | Ok (i, _) => py "Current Row Index: " ++ py_str i
        | Raise _ => []
        end,
        snd rx)
  /\ (snd (fst (ExcelLooper.read_row cell str_of_cell read_excel rnd
                  xlsx_file mode raw_start raw_end step delimiter wx)) = []
      <-> exists x, fst rx = Raise x).
Proof.
  intros Hpc Hdc Hpx Hdx Hfiles Hbase rc rx.
  assert (Hrc : rc = LooperMore.after_load rnd csv_file mode raw_start raw_end
                       step delimiter (List.map (List.map str_of_cell) rows) wc).
  { unfold rc. apply read_row_try_loaded.
    rewrite load_file_cached by exact Hpc. rewrite Hdc. reflexivity. }
  assert (Hlen : len (List.map (List.map str_of_cell) rows) = len rows)
    by (unfold len; rewrite length_map; reflexivity).
  assert (Hsf : forall a b,
            Looper.get_state_file_path xlsx_file a b step mode
            = Looper.get_state_file_path csv_file a b step mode).
  { intros a b. unfold Looper.get_state_file_path. rewrite Hbase.
    reflexivity. }
  assert (Hrx :
    fst rx = fst rc /\ ExcelLooper.files (snd rx) = Looper.files (snd rc)).
  { rewrite Hrc. unfold rx, ExcelLooper.read_row_try, ExcelLooper.load_excel.
    rewrite bool_decide_eq_true_2 by exact Hpx. cbn [negb].
    rewrite Hdx. cbn [ExcelLooper.get_row_count].
    unfold LooperMore.after_load. rewrite Hlen.
    destruct (Looper.normalize_range (len rows) raw_start raw_end) as [a b].
    cbn [fst snd]. rewrite Hsf. unfold ExcelLooper.choose_index.
    destruct (choose_index_by_files rnd mode
                (Looper.get_state_file_path csv_file a b step mode) a b step
                {| Looper.files := ExcelLooper.files wx;
                   Looper.file_path_cache := None;
                   Looper.file_data_cache := None |} wc Hfiles) as [H1 H2].
    destruct (Looper.choose_index rnd mode _ a b step
                {| Looper.files := ExcelLooper.files wx;
                   Looper.file_path_cache := None;
                   Looper.file_data_cache := None |}) as [r1 w1].
    destruct (Looper.choose_index rnd mode _ a b step wc) as [r2 w2].
    cbn [fst snd] in H1, H2. subst r2.
    destruct r1 as [i|x]; [|auto].
    change (default [] (Some rows)) with rows.
    rewrite getitem_map.
    destruct (getitem rows i) as [row|x]; cbn [fst snd]; auto. }
  destruct Hrx as [Hr1 Hr2].
  split; [exact Hr1|]. split; [exact Hr2|].
  assert (Hrow :
    ExcelLooper.read_row cell str_of_cell read_excel rnd xlsx_file mode
      raw_start raw_end step delimiter wx
    = (fst (Looper.read_row csv_reader rnd csv_file mode raw_start raw_end
                            step delimiter wc),
       match fst rc with
       | Ok (i, _) => py "Current Row Index: " ++ py_str i
       | Raise _ => []
       end,
       snd rx)).
  { unfold ExcelLooper.read_row, Looper.read_row. fold rx rc.
    destruct rx as [r1 w1], rc as [r2 w2]. cbn [fst snd] in *. subst r2.
    destruct r1 as [[i t]|x]; reflexivity. }
  split; [exact Hrow|].
  rewrite Hrow. cbn [fst snd]. rewrite <- Hr1.
  destruct (fst rx) as [[i t]|x].
  - split; [discriminate|]. intros (x & Hx). discriminate.
  - split; [eauto | reflexivity].
Qed.

End WithInterpreter.

(** The example runs on the interpreter of [Examples]. *)
#[local] Existing Instance sample_interpreter.

(** X10 on the five rows of the example, held by both caches. *)
Lemma excel_looper_agrees_with_csv_looper_witness :
  ExcelLooper.read_row pystr (fun c => c) (fun _ => Ok rows5) 0
    (py "/data/rows.xlsx") (py "increment") 1 3 1 (py ",")
    {| ExcelLooper.files := {[csv_path := csv_text]};
       ExcelLooper.df_path := Some (py "/data/rows.xlsx");
       ExcelLooper.df_cache := Some rows5 |}
  = (py "r1,b", py "Current Row Index: 1",
     {| ExcelLooper.files :=
          <[state_path := py "2"]> {[csv_path := csv_text]};
        ExcelLooper.df_path := Some (py "/data/rows.xlsx");
        ExcelLooper.df_cache := Some rows5 |}).
Proof.
  destruct (excel_looper_agrees_with_csv_looper Looper.plain_csv_reader
              pystr (fun c => c) (fun _ => Ok rows5) 0 csv_path
              (py "/data/rows.xlsx") (py "increment") (py ",") 1 3 1
              w_loaded
              {| ExcelLooper.files := {[csv_path := csv_text]};
                 ExcelLooper.df_path := Some (py "/data/rows.xlsx");
                 ExcelLooper.df_cache := Some rows5 |} rows5)
    as (_ & _ & H & _).
  1-6: vm_compute; reflexivity.
  rewrite H. vm_compute. reflexivity.
Defined.

End ExcelLooperSpec.

(* --------------------------------------------------------------------- *)
(** ** [RK_Read_Excel_Row.py]: the row that is returned *)
(* --------------------------------------------------------------------- *)

Module ReadExcelRowSpec.
Import Py PyFacts ReadExcelRow Examples.

(** X11.  [read_excel_row] returns the cells of row [row_index], each
    through [str], joined by the delimiter and otherwise untouched (nothing
    is stripped), when the file exists, [pandas] reads it and
    [0 <= row_index < len(df)]; and only then can the result be other than
    the empty string: a negative index never counts from the end. *)
Theorem read_excel_row_returns_the_row
    (cell : Type) (str_of_cell : cell -> pystr)
    (read_excel : pystr -> result (list (list cell)))
    (files : gmap pystr pystr) (file_path : pystr) (row_index : Z)
    (delimiter : pystr) :
  (forall content df,
      files !! file_path = Some content -> read_excel content = Ok df ->
      0 <= row_index < len df ->
      read_excel_row cell str_of_cell read_excel files file_path row_index
                     delimiter
      = join delimiter
          (List.map str_of_cell (nth (Z.to_nat row_index) df [])))
  /\ (read_excel_row cell str_of_cell read_excel files file_path row_index
                     delimiter <> [] ->
      exists content df,
        files !! file_path = Some content /\ read_excel content = Ok df
        /\ 0 <= row_index < len df).
Proof.
  unfold read_excel_row, read_excel_row_try. split.
  - intros content df -> -> Hi. cbn [bind].
    destruct (Z.ltb_spec row_index 0); [lia|].
    destruct (Z.leb_spec (len df) row_index); [lia|]. cbn [orb].
    rewrite (getitem_in_range df row_index []) by lia. reflexivity.
  - destruct (files !! file_path) as [content|]; [|congruence].
    destruct (read_excel content) as [df|x] eqn:Hread; cbn [bind];
      [|congruence].
    destruct (Z.ltb_spec row_index 0); [cbn [orb]; congruence|].
    destruct (Z.leb_spec (len df) row_index); [cbn [orb]; congruence|].
    intros _. exists content, df. repeat split; auto; lia.
Qed.

(** X11 on the third row of the example, which keeps its leading space. *)
Lemma read_excel_row_returns_the_row_witness :
  read_excel_row pystr (fun c => c) (fun _ => Ok rows5)
    {[csv_path := csv_text]} csv_path 2 (py ",")
  = py " r2,c".
Proof.
  destruct (read_excel_row_returns_the_row pystr (fun c => c)
              (fun _ => Ok rows5) {[csv_path := csv_text]} csv_path 2
              (py ",")) as [H _].
  rewrite (H csv_text rows5).
  - reflexivity.
  - vm_compute. reflexivity.
  - reflexivity.
  - unfold len. simpl. lia.
Defined.

End ReadExcelRowSpec.

(* --------------------------------------------------------------------- *)
(** ** [rk_seed.py]: the loop index, the custom values, the cap *)
(* --------------------------------------------------------------------- *)

Module SeedSpec.
Import Py PyFacts PyMoreFacts Seed SeedMore Examples MoreExamples.

Lemma mapM_length {A B} (f : A -> result B) (l : list A) (l' : list B) :
  mapM f l = Ok l' -> length l' = length l.
Proof.
  revert l'. induction l as [|x l IH]; intros l'; simpl.
  - intros [= <-]. reflexivity.
  - destruct (f x) as [y|e]; [|discriminate]. cbn [bind].
    destruct (mapM f l) as [ys|e]; [|discriminate]. cbn [bind].
    intros [= <-]. simpl. f_equal. apply IH. reflexivity.
Qed.

Lemma str_eqb_false (a b : pystr) : a <> b -> str_eqb a b = false.
Proof. intros H. unfold str_eqb. apply bool_decide_eq_false_2. exact H. Qed.

Lemma str_eqb_refl (a : pystr) : str_eqb a a = true.
Proof. unfold str_eqb. apply bool_decide_eq_true_2. reflexivity. Qed.

Section WithFormatting.

Variable format_fixed : float -> Z -> result pystr.
Variable float_of_str : pystr -> result float.

Lemma process_seed_staged u seed mode sv ev ss lc dp cv self :
  process_seed format_fixed float_of_str u seed mode sv ev ss lc dp cv self
  = staged format_fixed float_of_str u seed mode sv ev ss lc dp cv self.
Proof.
  assert (H : process_seed_try format_fixed float_of_str u seed mode sv ev ss
                lc dp cv self
              = staged format_fixed float_of_str u seed mode sv ev ss lc dp
                  cv self).
  { unfold process_seed_try, staged, ordered, mode_branch, cap_and_reset,
      outputs.
    destruct (PrimFloat.ltb ev sv);
      destruct (negb (str_eqb mode (py "disabled"))); try reflexivity;
      destruct (str_eqb mode (py "fixed") && _);
      try (destruct (fixed_branch _ _ _ _ _ _) as [v s0]; reflexivity);
      destruct (str_eqb mode (py "random"));
      try (destruct (format_float _ _ _ _); reflexivity);
      destruct (str_eqb mode (py "increment"));
      try (destruct (step_branch _ _ _ _ _ _ _ _) as [[v|e] s0]; reflexivity);
      destruct (str_eqb mode (py "decrement"));
      try (destruct (step_branch _ _ _ _ _ _ _ _) as [[v|e] s0]; reflexivity);
      reflexivity. }
  unfold process_seed. rewrite H.
  destruct (staged _ _ _ _ _ _ _ _ _ _ _ _) as [[out|e] s0]; reflexivity.
Qed.

Lemma step_branch_index inc sv ev ss dp self v self1 :
  step_branch format_fixed float_of_str inc sv ev ss dp self = (Ok v, self1) ->
  self1 = {| current_index := current_index self + 1;
             current_value := current_value self;
             values_list := values_list self |}.
Proof.
  unfold step_branch.
  destruct (bind _ _) as [v0|e]; intros [= <- <-]; reflexivity.
Qed.

Lemma fixed_branch_index cv sv dp self :
  current_index (snd (fixed_branch format_fixed float_of_str cv sv dp self))
  = current_index self.
Proof.
  unfold fixed_branch.
  destruct (mapM _ _) as [values|e]; [|reflexivity].
  destruct (bind _ _); reflexivity.
Qed.

Lemma mode_branch_index u mode sv ev ss dp cv self v self1 :
  mode_branch format_fixed float_of_str u mode sv ev ss dp cv self
  = (Ok v, self1) ->
  current_index self1
  = if str_eqb mode (py "increment") || str_eqb mode (py "decrement")
    then current_index self + 1 else current_index self.
Proof.
  unfold mode_branch.
  destruct (str_eqb mode (py "fixed")) eqn:Ef.
  { apply str_eqb_true in Ef. subst mode.
    change (str_eqb (py "fixed") (py "increment")) with false.
    change (str_eqb (py "fixed") (py "decrement")) with false.
    change (str_eqb (py "fixed") (py "random")) with false.
    cbn [andb orb].
    destruct (match cv with Some (_ :: _) => true | _ => false end).
    - pose proof (fixed_branch_index (default [] cv) sv dp self) as H.
      destruct (fixed_branch _ _ _ _ _ _) as [v0 s0].
      intros [= <- <-]. exact H.
    - intros [= <- <-]. reflexivity. }
  cbn [andb].
  destruct (str_eqb mode (py "random")) eqn:Er.
  { apply str_eqb_true in Er. subst mode.
    change (str_eqb (py "random") (py "increment")) with false.
    change (str_eqb (py "random") (py "decrement")) with false.
    cbn [orb]. intros [= _ <-]. reflexivity. }
  destruct (str_eqb mode (py "increment")).
  { cbn [orb]. intros H. apply step_branch_index in H. subst. reflexivity. }
  destruct (str_eqb mode (py "decrement")).
  { cbn [orb]. intros H. apply step_branch_index in H. subst. reflexivity. }
  cbn [orb]. intros [= _ <-]. reflexivity.
Qed.

Lemma outputs_ok seed dp v self out self' :
  outputs format_fixed seed dp v self = (Ok out, self') ->
  out_loop_index out = current_index self
  /\ out_loop_value out = v
  /\ self' = {| current_index := current_index self;
                current_value := v;
                values_list := values_list self |}.
Proof.
  unfold outputs.
  destruct (format_fixed v dp) as [str|e]; cbn [bind]; [|discriminate].
  destruct (float_of_int seed) as [f|e]; cbn [bind]; [|discriminate].
  intros [= <- <-]. auto.
Qed.

(** X12.  The loop index.  A call that returns hands out, as [loop_index],
    the index it leaves in the instance.  The "disabled" mode leaves the
    index alone.  Every other mode leaves an index below [loop_count]
    (for [loop_count >= 1]): the "increment" and "decrement" modes move it
    on by one and put it back to 0 when it reaches [loop_count]; the other
    modes ("fixed", "random") never move it on, they only put it back to 0
    when it is not below [loop_count]. *)
Theorem loop_index_stays_below_loop_count
    (u : float) (seed : Z) (mode : pystr) (sv ev ss : float) (lc dp : Z)
    (cv : option pystr) (self self' : seed_self) (out : seed_out) :
  process_seed format_fixed float_of_str u seed mode sv ev ss lc dp cv self
  = (Ok out, self') ->
  out_loop_index out = current_index self'
  /\ (mode = py "disabled" -> current_index self' = current_index self)
  /\ (mode <> py "disabled" -> 1 <= lc -> current_index self' < lc)
  /\ (mode = py "increment" \/ mode = py "decrement" ->
      current_index self'
      = if lc <=? current_index self + 1 then 0 else current_index self + 1)
  /\ (mode <> py "disabled" -> mode <> py "increment" ->
      mode <> py "decrement" ->
      current_index self'
      = if lc <=? current_index self then 0 else current_index self).
Proof.
  rewrite process_seed_staged. unfold staged.
  destruct (ordered sv ev) as [sv' ev'].
  destruct (str_eqb mode (py "disabled")) eqn:Ed; cbn [negb].
  - apply str_eqb_true in Ed. intros H.
    apply outputs_ok in H as (H1 & _ & ->). cbn [current_index].
    repeat split; try congruence.
    intros [->| ->]; discriminate.
  - destruct (mode_branch _ _ _ _ _ _ _ _ _ _) as [[v|e] self1] eqn:Hb;
      [|discriminate].
    apply mode_branch_index in Hb. unfold cap_and_reset.
    intros H. apply outputs_ok in H as (H1 & _ & ->). cbn [current_index].
    assert (Hi : current_index
                   (if lc <=? current_index self1
                    then {| current_index := 0;
                            current_value := current_value self1;
                            values_list := values_list self1 |}
                    else self1)
                 = if lc <=? current_index self1 then 0
                   else current_index self1)
      by (destruct (lc <=? current_index self1); reflexivity).
    rewrite Hi in *. clear Hi.
    split; [exact H1|]. split.
    { intros ->. rewrite str_eqb_refl in Ed. discriminate. }
    split.
    { intros _ Hlc. destruct (Z.leb_spec lc (current_index self1)); lia. }
    rewrite Hb. split.
    { intros [->| ->]; reflexivity. }
    intros _ Hi Hdec.
    rewrite (str_eqb_false _ _ Hi), (str_eqb_false _ _ Hdec). reflexivity.
Qed.

(** X13.  The cap.  In every mode other than "disabled" the loop value a
    call returns is not above 100, and it is the value the call stores in
    the instance.  The "disabled" mode returns the smaller of the start and
    end values as it is, without the cap, and changes nothing in the
    instance but the stored value. *)
Theorem loop_value_is_capped
    (u : float) (seed : Z) (mode : pystr) (sv ev ss : float) (lc dp : Z)
    (cv : option pystr) (self self' : seed_self) (out : seed_out) :
  process_seed format_fixed float_of_str u seed mode sv ev ss lc dp cv self
  = (Ok out, self') ->
  current_value self' = out_loop_value out
  /\ (mode <> py "disabled" ->
      PrimFloat.ltb 100 (out_loop_value out) = false)
  /\ (mode = py "disabled" ->
      out_loop_value out = (if PrimFloat.ltb ev sv then ev else sv)
      /\ self' = {| current_index := current_index self;
                    current_value := out_loop_value out;
                    values_list := values_list self |}).
Proof.
  rewrite process_seed_staged. unfold staged, ordered.
  destruct (str_eqb mode (py "disabled")) eqn:Ed; cbn [negb].
  - apply str_eqb_true in Ed.
    destruct (PrimFloat.ltb ev sv); intros H;
      apply outputs_ok in H as (_ & H2 & ->); cbn [current_value];
      rewrite H2; repeat split; congruence.
  - assert (Hd : mode <> py "disabled")
      by (intros ->; rewrite str_eqb_refl in Ed; discriminate).
    destruct (PrimFloat.ltb ev sv);
      (destruct (mode_branch _ _ _ _ _ _ _ _ _ _) as [[v|e] self1];
       [|discriminate]);
      unfold cap_and_reset; intros H;
      apply outputs_ok in H as (_ & H2 & ->); cbn [current_value];
      rewrite H2; (split; [reflexivity|]); (split; [|contradiction]);
      intros _; destruct (PrimFloat.ltb 100 v) eqn:Hv;
      [reflexivity | exact Hv | reflexivity | exact Hv].
Qed.

(** The "fixed" branch looks at the index only, and what it stores does
    not depend on what was stored before once it has stored. *)
Lemma fixed_branch_shape cv sv dp :
  exists (f : Z -> float) (g : list float -> list float),
    (forall l, g (g l) = g l)
    /\ forall self,
        fixed_branch format_fixed float_of_str cv sv dp self
        = (f (current_index self),
           {| current_index := current_index self;
              current_value := current_value self;
              values_list := g (values_list self) |}).
Proof.
  unfold fixed_branch.
  destruct (mapM _ (split_on 44 cv)) as [values|e].
  - exists (fun i => match (do i' <- py_mod i (len values);
                            getitem values i') with
                     | Ok v => v
                     | Raise _ => sv
                     end), (fun _ => values).
    split; [reflexivity|]. intros self. cbn [current_index values_list].
    destruct (bind _ _); reflexivity.
  - exists (fun _ => sv), (fun l => l).
    split; [reflexivity|]. intros [i v l]. reflexivity.
Qed.

(** One call in the "fixed" mode with custom values, the index below
    [loop_count]. *)
Lemma fixed_call u seed sv ev ss lc dp c custom self :
  current_index self < lc ->
  process_seed format_fixed float_of_str u seed (py "fixed") sv ev ss lc dp
               (Some (c :: custom)) self
  = outputs format_fixed seed dp
      (if PrimFloat.ltb 100
            (fst (fixed_branch format_fixed float_of_str (c :: custom)
                               (fst (ordered sv ev)) dp self))
       then 100%float
       else fst (fixed_branch format_fixed float_of_str (c :: custom)
                              (fst (ordered sv ev)) dp self))
      (snd (fixed_branch format_fixed float_of_str (c :: custom)
                         (fst (ordered sv ev)) dp self)).
Proof.
  intros Hlc. rewrite process_seed_staged. unfold staged.
  destruct (ordered sv ev) as [sv' ev']. cbn [fst].
  change (negb (str_eqb (py "fixed") (py "disabled"))) with true. cbv iota.
  unfold mode_branch.
  change (str_eqb (py "fixed") (py "fixed")) with true. cbn [andb].
  change (default [] (Some (c :: custom))) with (c :: custom).
  pose proof (fixed_branch_index (c :: custom) sv' dp self) as Hi.
  destruct (fixed_branch format_fixed float_of_str (c :: custom) sv' dp self)
    as [v s1].
  cbn [fst snd] in *. unfold cap_and_reset.
  destruct (Z.leb_spec lc (current_index s1)); [lia|]. reflexivity.
Qed.

(** X14.  The "fixed" mode does not step through the custom values.  With
    custom values given and the index below [loop_count], a call leaves
    the index where it was, and a further call in the instance the first
    one left returns the same and leaves the same instance, so that every
    call hands out the same entry.  When the values parse, that entry is
    the one at position [current_index mod len(values)], capped at 100. *)
Theorem fixed_mode_never_advances
    (u u' : float) (seed : Z) (sv ev ss : float) (lc dp : Z)
    (c : N) (custom : pystr) (self : seed_self) :
  current_index self < lc ->
  let r := process_seed format_fixed float_of_str u seed (py "fixed")
                        sv ev ss lc dp (Some (c :: custom)) self in
  current_index (snd r) = current_index self
  /\ process_seed format_fixed float_of_str u' seed (py "fixed")
                  sv ev ss lc dp (Some (c :: custom)) (snd r) = r
  /\ (forall values out,
        mapM (fun x => do v <- float_of_str (strip x);
                       format_float format_fixed float_of_str v dp)
             (split_on 44 (c :: custom)) = Ok values ->
        fst r = Ok out ->
        exists v,
          nth_error values
                    (Z.to_nat (current_index self mod len values)) = Some v
          /\ out_loop_value out
             = if PrimFloat.ltb 100 v then 100%float else v).
Proof.
  intros Hlc r.
  assert (Hr : r = outputs format_fixed seed dp
      (if PrimFloat.ltb 100
            (fst (fixed_branch format_fixed float_of_str (c :: custom)
                               (fst (ordered sv ev)) dp self))
       then 100%float
       else fst (fixed_branch format_fixed float_of_str (c :: custom)
                              (fst (ordered sv ev)) dp self))
      (snd (fixed_branch format_fixed float_of_str (c :: custom)
                         (fst (ordered sv ev)) dp self)))
    by (apply fixed_call; exact Hlc).
  destruct (fixed_branch_shape (c :: custom) (fst (ordered sv ev)) dp)
    as (f & g & Hg & Hshape).
  rewrite (Hshape self) in Hr. cbn [fst snd] in Hr.
  assert (Hsnd : snd r = {| current_index := current_index self;
                            current_value :=
                              if PrimFloat.ltb 100 (f (current_index self))
                              then 100%float else f (current_index self);
                            values_list := g (values_list self) |})
    by (rewrite Hr; reflexivity).
  split; [rewrite Hsnd; reflexivity|]. split.
  - rewrite fixed_call by (rewrite Hsnd; exact Hlc).
    rewrite (Hshape (snd r)), Hsnd. cbn [fst snd current_index values_list
                                         current_value].
    rewrite Hg, Hr. unfold outputs. reflexivity.
  - intros values out Hm Hout.
    assert (Hlen : 0 < len values).
    { unfold len. rewrite (mapM_length _ _ _ Hm).
      pose proof (split_on_nonempty 44 (c :: custom)).
      destruct (split_on 44 (c :: custom)); [contradiction|]. simpl. lia. }
    pose proof (Z.mod_pos_bound (current_index self) (len values) Hlen) as Hb.
    assert (Hf : f (current_index self)
                 = nth (Z.to_nat (current_index self mod len values)) values
                       0%float).
    { pose proof (Hshape self) as H. unfold fixed_branch in H.
      rewrite Hm in H. cbn [current_index values_list] in H.
      unfold py_mod in H.
      destruct (Z.eqb_spec (len values) 0); [lia|]. cbn [bind] in H.
      rewrite (getitem_in_range values _ 0%float) in H by exact Hb.
      congruence. }
    exists (nth (Z.to_nat (current_index self mod len values)) values 0%float).
    split; [apply nth_error_nth'; unfold len in *; lia|].
    rewrite <- Hf. rewrite Hr in Hout. unfold outputs in Hout.
    cbn [fst] in Hout.
    destruct (format_fixed _ dp) as [str|e]; cbn [bind] in Hout;
      [|discriminate].
    destruct (float_of_int seed) as [fs|e]; cbn [bind] in Hout;
      [|discriminate].
    injection Hout as <-. reflexivity.
Qed.

End WithFormatting.

(** X12 on a counter that stands at 9 with [loop_count = 10]: the
    increment mode puts it back to 0. *)
Lemma loop_index_stays_below_loop_count_witness :
  current_index
    (snd (process_seed no_format no_float 0%float 7 (py "increment")
            0%float 1%float 0.5%float 10 2 None seed_self9)) = 0.
Proof.
  destruct (loop_index_stays_below_loop_count no_format no_float 0%float 7
              (py "increment") 0%float 1%float 0.5%float 10 2 None
              seed_self9
              (snd (process_seed no_format no_float 0%float 7
                      (py "increment") 0%float 1%float 0.5%float 10 2 None
                      seed_self9))
              seed_out7) as (_ & _ & _ & H & _).
  - vm_compute. reflexivity.
  - rewrite H by (left; reflexivity). reflexivity.
Defined.

(** X13 on the same call. *)
Lemma loop_value_is_capped_witness :
  PrimFloat.ltb 100 (out_loop_value seed_out7) = false.
Proof.
  destruct (loop_value_is_capped no_format no_float 0%float 7
              (py "increment") 0%float 1%float 0.5%float 10 2 None
              seed_self9
              (snd (process_seed no_format no_float 0%float 7
                      (py "increment") 0%float 1%float 0.5%float 10 2 None
                      seed_self9))
              seed_out7) as (_ & H & _).
  - vm_compute. reflexivity.
  - apply H. discriminate.
Defined.

(** X14 on three custom values and a counter at 9 with [loop_count = 10]:
    the counter stays at 9. *)
Lemma fixed_mode_never_advances_witness :
  current_index
    (snd (process_seed no_format no_float 0%float 7 (py "fixed")
            0%float 1%float 0.5%float 10 2 (Some (py "0.1, 0.8, 1.6"))
            seed_self9)) = 9.
Proof.
  apply (fixed_mode_never_advances no_format no_float 0%float 0%float 7
           0%float 1%float 0.5%float 10 2 48%N (py ".1, 0.8, 1.6")
           seed_self9).
  simpl. lia.
Defined.

End SeedSpec.

(* --------------------------------------------------------------------- *)
(** ** The generation loop: the CSV file, the batches, the accepted
    records *)
(* --------------------------------------------------------------------- *)

Module PromptGenMoreFacts.
Import Py PromptGen PromptGenFacts PromptGenMore CsvSink.

(** *** The file *)

Lemma rows_of_app (l1 l2 : list prompt) :
  rows_of (l1 ++ l2) = rows_of l1 ++ rows_of l2.
Proof. unfold rows_of. rewrite map_app, concat_app. reflexivity. Qed.

Lemma file_after_snoc mode batches batch file :
  file_after mode (batches ++ [batch]) file
  = save_to_file mode batch (file_after mode batches file).
Proof. unfold file_after. rewrite fold_left_app. reflexivity. Qed.

Lemma write_csv_append batch file :
  write_csv (py "append") batch file
  = Some (default HEADER file ++ rows_of batch).
Proof.
  unfold write_csv.
  change (str_eqb (py "append") (py "append")) with true.
  destruct file as [text|]; reflexivity.
Qed.

Lemma write_csv_overwrite mode batch file :
  mode <> py "append" ->
  write_csv mode batch file = Some (HEADER ++ rows_of batch).
Proof.
  intros Hm. unfold write_csv, str_eqb.
  rewrite bool_decide_eq_false_2 by exact Hm.
  destruct file; reflexivity.
Qed.

Lemma file_after_nothing mode batches file :
  concat batches = [] -> file_after mode batches file = file.
Proof.
  revert file. induction batches as [|b bs IH]; intros file H;
    [reflexivity|].
  simpl in H. apply app_eq_nil in H as [-> H]. simpl. apply IH. exact H.
Qed.

Lemma file_after_append batches file :
  concat batches <> [] ->
  file_after (py "append") batches file
  = Some (default HEADER file ++ rows_of (concat batches)).
Proof.
  revert file. induction batches as [|b bs IH]; intros file H;
    [contradiction|].
  cbn [concat] in *. unfold file_after. cbn [fold_left].
  fold (file_after (py "append") bs (save_to_file (py "append") b file)).
  destruct b as [|p b].
  - simpl. apply IH. exact H.
  - cbn [save_to_file]. rewrite write_csv_append.
    destruct (concat bs) as [|q l] eqn:E.
    + rewrite file_after_nothing by exact E. rewrite app_nil_r. reflexivity.
    + rewrite IH by discriminate.
      rewrite rows_of_app.
      change (default HEADER (Some (default HEADER file ++ rows_of (p :: b))))
        with (default HEADER file ++ rows_of (p :: b)).
      rewrite <- !app_assoc. reflexivity.
Qed.

Lemma file_after_overwrite mode batches batch file :
  mode <> py "append" -> batch <> [] ->
  file_after mode (batches ++ [batch]) file
  = Some (HEADER ++ rows_of batch).
Proof.
  intros Hm Hb. rewrite file_after_snoc.
  destruct batch; [contradiction|]. cbn [save_to_file].
  apply write_csv_overwrite. exact Hm.
Qed.

(** *** The batches *)

Lemma save_run st : new_prompts_this_run (save_prompts_to_csv st) = [].
Proof.
  unfold save_prompts_to_csv.
  destruct (new_prompts_this_run st) eqn:E; [exact E | reflexivity].
Qed.

Lemma save_batches st :
  csv_batches (save_prompts_to_csv st)
  = csv_batches st
    ++ match new_prompts_this_run st with [] => [] | l => [l] end.
Proof.
  unfold save_prompts_to_csv.
  destruct (new_prompts_this_run st); [rewrite app_nil_r|]; reflexivity.
Qed.

Lemma len_app {A} (l1 l2 : list A) : len (l1 ++ l2) = len l1 + len l2.
Proof. unfold len. rewrite length_app. lia. Qed.

Lemma mod_succ_zero (i k : Z) :
  0 < k -> (i + 1) mod k = 0 -> i mod k + 1 = k.
Proof.
  intros Hk H. pose proof (Z.mod_pos_bound i k Hk) as Hb.
  rewrite <- Zplus_mod_idemp_l in H.
  destruct (Z.eq_dec (i mod k + 1) k) as [E|E]; [exact E|].
  rewrite Z.mod_small in H by lia. lia.
Qed.

Lemma mod_succ_nonzero (i k : Z) :
  0 < k -> (i + 1) mod k <> 0 -> (i + 1) mod k = i mod k + 1.
Proof.
  intros Hk H. pose proof (Z.mod_pos_bound i k Hk) as Hb.
  rewrite <- Zplus_mod_idemp_l in *.
  destruct (Z.eq_dec (i mod k + 1) k) as [E|E].
  - rewrite E, Z_mod_same_full in H. contradiction.
  - apply Z.mod_small. lia.
Qed.

Lemma flush_inv_attempts cfg st n :
  flush_inv cfg st -> flush_inv cfg (with_attempts st n).
Proof. intros H. exact H. Qed.

Lemma flush_inv_accept cfg st r :
  flush_inv cfg st -> flush_inv cfg (accept_record cfg st r).
Proof.
  intros (Hpi & Hne & Hpos & Hnon).
  unfold flush_inv.
  rewrite accept_prompt_index, accept_accepted, len_app.
  split; [unfold len at 2; simpl; lia|].
  unfold accept_record. cbn [prompt_index].
  destruct (Z.ltb_spec 0 (auto_save_every cfg)) as [Hk|Hk]; cbn [andb].
  - destruct (Hpos Hk) as [Hfull Hrun].
    destruct (Z.eqb_spec ((prompt_index st + 1) mod auto_save_every cfg) 0)
      as [E|E].
    + rewrite save_batches, save_run. cbn [new_prompts_this_run csv_batches].
      assert (Hl : len (new_prompts_this_run st ++ [r])
                   = auto_save_every cfg).
      { rewrite len_app, Hrun. unfold len at 1. simpl.
        apply mod_succ_zero; assumption. }
      destruct (new_prompts_this_run st ++ [r]) as [|q l] eqn:El.
      { destruct (new_prompts_this_run st); discriminate. }
      split; [apply Forall_app; split; [exact Hne|]; repeat constructor;
              discriminate|].
      split; [|lia]. intros _. split.
      * apply Forall_app. split; [exact Hfull|]. repeat constructor.
        exact Hl.
      * rewrite E. reflexivity.
    + cbn [csv_batches new_prompts_this_run].
      split; [exact Hne|]. split; [|lia]. intros _.
      split; [exact Hfull|].
      rewrite len_app, Hrun. unfold len at 1. simpl.
      symmetry. apply mod_succ_nonzero; assumption.
  - cbn [csv_batches new_prompts_this_run].
    split; [exact Hne|]. split; [lia|]. intros _. apply Hnon. lia.
Qed.

Lemma flush_inv_iteration cfg ev st :
  flush_inv cfg st -> flush_inv cfg (snd (iteration cfg ev st)).
Proof.
  intros H. unfold iteration.
  destruct (stop_generation ev); [exact H|].
  destruct (reply ev) as [stdout|e]; [|exact H].
  destruct (is_duplicate _ _ _); [exact H|].
  apply flush_inv_accept. exact H.
Qed.

Lemma flush_inv_loop cfg env :
  forall fuel st,
    flush_inv cfg st -> flush_inv cfg (state_of (while_loop fuel cfg env st)).
Proof.
  induction fuel as [|fuel IH]; intros st H.
  - simpl. destruct (loop_condition cfg st); exact H.
  - rewrite while_loop_unfold.
    destruct (loop_condition cfg st); [|exact H].
    pose proof (flush_inv_iteration cfg (env (Z.to_nat (attempts st))) st H)
      as H'.
    destruct (iteration cfg _ st) as [[|] st']; simpl in H'.
    + apply IH. exact H'.
    + exact H'.
Qed.

Lemma flush_inv_initial cfg m : flush_inv cfg (initial_state cfg m).
Proof.
  unfold flush_inv, accepted, initial_state, len. simpl.
  split; [reflexivity|]. split; [constructor|]. split; [|reflexivity].
  intros Hk. split; [constructor|]. rewrite Z.mod_0_l by lia. reflexivity.
Qed.

(** What a finished run has written: the state before the final save. *)
Lemma generate_finished fuel cfg env m st :
  generate_prompts_for_model fuel cfg env m = Finished st ->
  exists st0,
    while_loop fuel cfg env (initial_state cfg m) = Finished st0
    /\ st = save_prompts_to_csv st0.
Proof.
  unfold generate_prompts_for_model.
  destruct (while_loop fuel cfg env (initial_state cfg m)) as [st0|st0];
    [|discriminate].
  intros [= <-]. eauto.
Qed.

Lemma finished_batches fuel cfg env m st :
  generate_prompts_for_model fuel cfg env m = Finished st ->
  new_prompts_this_run st = []
  /\ concat (csv_batches st) = accepted st
  /\ prompt_index st = len (accepted st).
Proof.
  intros H. apply generate_finished in H as (st0 & Hloop & ->).
  pose proof (flush_inv_loop cfg env fuel _ (flush_inv_initial cfg m)) as Hinv.
  rewrite Hloop in Hinv. simpl in Hinv. destruct Hinv as (Hpi & _).
  rewrite save_run, save_accepted, save_prompt_index.
  split; [reflexivity|]. split; [|exact Hpi].
  rewrite <- (save_accepted st0). unfold accepted.
  rewrite save_run, app_nil_r. reflexivity.
Qed.

(** With a periodic save every [k] records, the last batch of a finished
    run that accepted [n > 0] records has [k] records when [k] divides
    [n], and [n mod k] otherwise. *)
Lemma finished_last_batch fuel cfg env m st :
  generate_prompts_for_model fuel cfg env m = Finished st ->
  accepted st <> [] ->
  exists batches batch,
    csv_batches st = batches ++ [batch]
    /\ batch <> []
    /\ (0 < auto_save_every cfg ->
        len batch
        = if len (accepted st) mod auto_save_every cfg =? 0
          then auto_save_every cfg
          else len (accepted st) mod auto_save_every cfg)
    /\ (auto_save_every cfg <= 0 -> batches = []).
Proof.
  intros H Hacc. apply generate_finished in H as (st0 & Hloop & ->).
  pose proof (flush_inv_loop cfg env fuel _ (flush_inv_initial cfg m)) as Hinv.
  rewrite Hloop in Hinv. simpl in Hinv.
  destruct Hinv as (Hpi & Hne & Hpos & Hnon).
  rewrite save_accepted in *. rewrite save_batches.
  destruct (new_prompts_this_run st0) as [|q l] eqn:Erun.
  - rewrite app_nil_r.
    destruct (csv_batches st0) as [|b bs] eqn:Eb using rev_ind.
    { exfalso. apply Hacc. unfold accepted. rewrite Eb, Erun. reflexivity. }
    clear IHbs. exists bs, b.
    apply Forall_app in Hne as [_ Hne]. inversion Hne; subst.
    split; [reflexivity|]. split; [assumption|]. split.
    + intros Hk. destruct (Hpos Hk) as [Hfull Hrun].
      apply Forall_app in Hfull as [_ Hfull]. inversion Hfull; subst.
      rewrite <- Hpi, <- Hrun. unfold len at 2. simpl. assumption.
    + intros Hk. specialize (Hnon Hk).
      destruct bs; discriminate.
  - exists (csv_batches st0), (q :: l).
    split; [reflexivity|]. split; [discriminate|]. split.
    + intros Hk. destruct (Hpos Hk) as [_ Hrun].
      rewrite <- Hpi, <- Hrun.
      destruct (Z.eqb_spec (len (q :: l)) 0) as [E|E]; [|reflexivity].
      unfold len in E. simpl in E. lia.
    + exact Hnon.
Qed.

(** *** No record is accepted twice *)

Lemma checked_list_accept cfg st r :
  (use_memory cfg = false -> csv_batches st = []
   /\ auto_save_every cfg <= 0) ->
  incl (accepted st) (checked_list cfg st) ->
  incl (accepted (accept_record cfg st r))
       (checked_list cfg (accept_record cfg st r)).
Proof.
  intros Hoff Hincl. rewrite accept_accepted. unfold checked_list in *.
  destruct (use_memory cfg) eqn:Hum.
  - rewrite accept_memory, Hum, memory_of_insert.
    apply incl_app; [apply incl_appl; exact Hincl | apply incl_appr, incl_refl].
  - destruct (Hoff eq_refl) as [Hb Hk].
    rewrite accept_run_noflush by lia.
    unfold accepted. rewrite Hb. simpl. apply incl_refl.
Qed.

Lemma distinct_inv_accept cfg st r :
  (use_memory cfg = false -> csv_batches st = []
   /\ auto_save_every cfg <= 0) ->
  distinct_inv cfg st -> ~ In r (checked_list cfg st) ->
  distinct_inv cfg (accept_record cfg st r).
Proof.
  intros Hoff [Hnd Hincl] Hnew. split.
  - rewrite accept_accepted. apply NoDup_app. repeat split.
    + exact Hnd.
    + intros x Hx Hx'. apply list_elem_of_singleton in Hx'. subst.
      apply Hnew, Hincl. apply list_elem_of_In. exact Hx.
    + apply NoDup_singleton.
  - apply checked_list_accept; assumption.
Qed.

Lemma accepted_nodup
    (fuel : nat) (cfg : config) (env : nat -> event)
    (m : gmap pystr (list prompt)) :
  use_memory cfg = true \/ auto_save_every cfg <= 0 ->
  NoDup (accepted (state_of (generate_prompts_for_model fuel cfg env m))).
Proof.
  intros Hcfg.
  assert (Hoff : forall st, flush_inv cfg st ->
            use_memory cfg = false ->
            csv_batches st = [] /\ auto_save_every cfg <= 0).
  { intros st (_ & _ & _ & Hnon) Hum.
    destruct Hcfg as [Hc|Hc]; [congruence|]. auto. }
  assert (Hit : forall ev st, flush_inv cfg st -> distinct_inv cfg st ->
            distinct_inv cfg (snd (iteration cfg ev st))).
  { intros ev st Hf Hd. unfold iteration.
    destruct (stop_generation ev); [exact Hd|].
    destruct (reply ev) as [stdout|e]; [|exact Hd].
    destruct (is_duplicate _ _ _) eqn:Hdup; [exact Hd|].
    cbn [snd]. apply distinct_inv_accept.
    - apply (Hoff (with_attempts st (attempts st + 1))). exact Hf.
    - exact Hd.
    - apply is_duplicate_not_In. exact Hdup. }
  assert (Hloop : forall fuel' st, flush_inv cfg st -> distinct_inv cfg st ->
            distinct_inv cfg (state_of (while_loop fuel' cfg env st))).
  { induction fuel' as [|fuel' IH]; intros st Hf Hd.
    - simpl. destruct (loop_condition cfg st); exact Hd.
    - rewrite while_loop_unfold.
      destruct (loop_condition cfg st); [|exact Hd].
      pose proof (Hit (env (Z.to_nat (attempts st))) st Hf Hd) as Hd'.
      pose proof (flush_inv_iteration cfg (env (Z.to_nat (attempts st))) st Hf)
        as Hf'.
      destruct (iteration cfg _ st) as [[|] st']; simpl in Hd', Hf'.
      + apply IH; assumption.
      + exact Hd'. }
  assert (H0 : distinct_inv cfg (initial_state cfg m)).
  { split; [constructor|]. intros x Hx. destruct Hx. }
  pose proof (Hloop fuel _ (flush_inv_initial cfg m) H0) as [Hnd _].
  unfold generate_prompts_for_model.
  destruct (while_loop fuel cfg env (initial_state cfg m)) as [st|st];
    simpl in *; [rewrite save_accepted|]; exact Hnd.
Qed.

End PromptGenMoreFacts.

Module PromptGenMoreSpec.
Import Py PromptGen PromptGenFacts PromptGenMore CsvSink PromptGenMoreFacts
       Examples MoreExamples.

(** X15.  Appending.  In the save mode "append" the file after a finished
    run is the file as it was (or the header line, when there was none)
    followed by one row for each accepted record, in the order of
    acceptance: the same as one save of all accepted records, however
    often the run saved in between, and a file that exists never gets a
    second header.  A run that accepted nothing leaves the file alone in
    every save mode. *)
Theorem append_mode_writes_every_record_once
    (fuel : nat) (cfg : config) (env : nat -> event)
    (m : gmap pystr (list prompt)) (st : gen_state) (file : option pystr) :
  generate_prompts_for_model fuel cfg env m = Finished st ->
  file_after (py "append") (csv_batches st) file
  = save_to_file (py "append") (accepted st) file
  /\ (accepted st <> [] ->
      file_after (py "append") (csv_batches st) file
      = Some (default HEADER file ++ rows_of (accepted st)))
  /\ (accepted st = [] ->
      forall mode, file_after mode (csv_batches st) file = file).
Proof.
  intros H. destruct (finished_batches _ _ _ _ _ H) as (_ & Hcat & _).
  assert (H2 : accepted st <> [] ->
               file_after (py "append") (csv_batches st) file
               = Some (default HEADER file ++ rows_of (accepted st))).
  { intros Hne. rewrite <- Hcat. apply file_after_append.
    rewrite Hcat. exact Hne. }
  assert (H3 : accepted st = [] ->
               forall mode, file_after mode (csv_batches st) file = file).
  { intros He mode. apply file_after_nothing. rewrite Hcat. exact He. }
  split; [|split; assumption].
  destruct (accepted st) as [|p l] eqn:E.
  - apply H3. reflexivity.
  - rewrite H2 by discriminate. cbn [save_to_file].
    rewrite write_csv_append. reflexivity.
Qed.

(** X16.  Overwriting.  In every save mode other than "append" each save
    truncates the file, so that after a finished run that accepted [n > 0]
    records the file holds the header line and the rows of the last batch
    only: all [n] records without a periodic save, and with a periodic save
    every [k > 0] records the last [k] of them when [k] divides [n], the
    last [n mod k] otherwise.  The records accepted before are not in the
    file. *)
Theorem overwrite_mode_keeps_last_batch
    (fuel : nat) (cfg : config) (env : nat -> event)
    (m : gmap pystr (list prompt)) (st : gen_state)
    (mode : pystr) (file : option pystr) :
  generate_prompts_for_model fuel cfg env m = Finished st ->
  mode <> py "append" -> accepted st <> [] ->
  let n := len (accepted st) in
  let k := auto_save_every cfg in
  let kept := if 0 <? k then (if n mod k =? 0 then k else n mod k) else n in
  file_after mode (csv_batches st) file
  = Some (HEADER ++ rows_of (skipn (Z.to_nat (n - kept)) (accepted st)))
  /\ 0 < kept <= n
  /\ (0 < k -> kept <= k).
Proof.
  intros H Hmode Hacc n k kept.
  destruct (finished_batches _ _ _ _ _ H) as (_ & Hcat & _).
  destruct (finished_last_batch _ _ _ _ _ H Hacc)
    as (batches & batch & Hb & Hne & Hpos & Hnon).
  assert (Happ : accepted st = concat batches ++ batch).
  { rewrite <- Hcat, Hb, concat_app. simpl. rewrite app_nil_r. reflexivity. }
  assert (Hn : n = len (concat batches) + len batch).
  { unfold n. rewrite Happ. apply len_app. }
  assert (Hlb : 0 < len batch).
  { unfold len. destruct batch; [contradiction|]. simpl. lia. }
  assert (Hkept : kept = len batch).
  { unfold kept. destruct (Z.ltb_spec 0 k) as [Hk|Hk].
    - rewrite (Hpos Hk). reflexivity.
    - rewrite (Hnon Hk) in Hn. simpl in Hn. unfold len in Hn at 1.
      simpl in Hn. lia. }
  split; [|split].
  - rewrite Hb, (file_after_overwrite mode batches batch file Hmode Hne).
    do 3 f_equal. rewrite Hkept, Hn, Happ.
    replace (Z.to_nat (len (concat batches) + len batch - len batch))
      with (length (concat batches)) by (unfold len; lia).
    rewrite skipn_app, Nat.sub_diag, skipn_all. reflexivity.
  - rewrite Hkept, Hn. unfold len in *. lia.
  - intros Hk. unfold kept.
    destruct (Z.ltb_spec 0 k); [|lia].
    pose proof (Z.mod_pos_bound n k Hk).
    destruct (Z.eqb_spec (n mod k) 0); lia.
Qed.

(** X17.  No record is accepted twice in a run, and so no row is written
    twice, when the memory is in use or when there is no periodic save.
    (With the memory off and a periodic save the check looks at the
    unsaved list only, which a save empties.) *)
Theorem accepted_records_are_distinct
    (fuel : nat) (cfg : config) (env : nat -> event)
    (m : gmap pystr (list prompt)) :
  use_memory cfg = true \/ auto_save_every cfg <= 0 ->
  NoDup (accepted (state_of (generate_prompts_for_model fuel cfg env m))).
Proof. apply accepted_nodup. Qed.

(** X18.  Why a run ends.  When no attempt is cancelled and the
    collaborator replies to every attempt, a finished run has reached its
    target or has used up its [3 * target] attempts; the counter it
    reports is the number of accepted records. *)
Theorem run_ends_at_target_or_budget
    (fuel : nat) (cfg : config) (env : nat -> event)
    (m : gmap pystr (list prompt)) (st : gen_state) :
  (forall k, stop_generation (env k) = false
             /\ exists stdout, reply (env k) = Ok stdout) ->
  0 <= num_prompts cfg ->
  generate_prompts_for_model fuel cfg env m = Finished st ->
  (prompt_index st = num_prompts cfg \/ attempts st = num_prompts cfg * 3)
  /\ prompt_index st = len (accepted st)
  /\ prompt_index st <= attempts st.
Proof.
  intros Henv Hn H.
  destruct (finished_batches _ _ _ _ _ H) as (_ & _ & Hlen).
  split; [|split; [exact Hlen|]].
  - apply generate_finished in H as (st0 & Hloop & ->).
    rewrite save_prompt_index, save_attempts.
    assert (Hgen : forall fuel' s s',
              counters_ok cfg s ->
              while_loop fuel' cfg env s = Finished s' ->
              prompt_index s' = num_prompts cfg
              \/ attempts s' = num_prompts cfg * 3).
    { induction fuel' as [|fuel' IH]; intros s s' Hok.
      - simpl. destruct (loop_condition cfg s) eqn:Hc; [discriminate|].
        intros [= <-].
        destruct (Z.ltb_spec (prompt_index s) (num_prompts cfg));
          destruct (Z.ltb_spec (attempts s) (num_prompts cfg * 3));
          unfold loop_condition in Hc; unfold counters_ok in Hok;
          rewrite ?andb_false_iff, ?Z.ltb_ge in Hc; lia.
      - rewrite while_loop_unfold.
        destruct (loop_condition cfg s) eqn:Hc.
        + apply loop_condition_true in Hc.
          destruct (iteration cfg (env (Z.to_nat (attempts s))) s)
            as [[|] s1] eqn:Hit.
          * apply IH. apply iteration_counters in Hit.
            unfold counters_ok in *. lia.
          * exfalso. revert Hit. unfold iteration.
            destruct (Henv (Z.to_nat (attempts s))) as [-> (o & ->)].
            destruct (is_duplicate _ _ _); discriminate.
        + intros [= <-].
          unfold loop_condition in Hc. unfold counters_ok in Hok.
          rewrite andb_false_iff, !Z.ltb_ge in Hc. lia. }
    apply (Hgen fuel (initial_state cfg m) st0); [|exact Hloop].
    unfold counters_ok. simpl. lia.
  - pose proof (while_loop_counters cfg env fuel (initial_state cfg m)) as Hc.
    apply generate_finished in H as (st0 & Hloop & ->).
    rewrite Hloop in Hc. simpl in Hc.
    rewrite save_prompt_index, save_attempts.
    (* the bound does not need the target to be positive *)
    clear Hlen Hloop. revert Hc. unfold counters_ok. simpl. lia.
Qed.

(** *** Replies that are all new *)

Lemma records_succ stdout (j : nat) :
  records stdout (S j) = records stdout j ++ [record_of (stdout j)].
Proof. unfold records. rewrite seq_S, map_app. reflexivity. Qed.

Lemma records_fresh stdout (n j : nat) :
  NoDup (records stdout n) -> (j < n)%nat ->
  ~ In (record_of (stdout j)) (records stdout j).
Proof.
  intros Hnd Hj Hin.
  assert (Hsplit : records stdout n
                   = records stdout (S j)
                     ++ List.map (fun k => record_of (stdout k))
                          (seq (S j) (n - S j))).
  { unfold records. rewrite <- map_app, <- seq_app.
    do 2 f_equal. lia. }
  rewrite Hsplit, records_succ in Hnd.
  apply NoDup_app in Hnd as [Hnd _].
  apply NoDup_app in Hnd as (_ & Hdisj & _).
  apply (Hdisj (record_of (stdout j))).
  - apply list_elem_of_In. exact Hin.
  - apply list_elem_of_singleton. reflexivity.
Qed.

Lemma records_In stdout (n j : nat) :
  (j < n)%nat -> In (record_of (stdout j)) (records stdout n).
Proof.
  intros Hj. unfold records. apply in_map_iff. exists j.
  split; [reflexivity|]. apply in_seq. lia.
Qed.

(** X19.  Replies that are all new are all accepted.  When the first
    [num_prompts] attempts are not cancelled and get replies whose records
    are pairwise different and (with the memory in use) not in the memory
    of the model, the run ends after exactly [num_prompts] attempts and
    has accepted exactly those records, in the order of the replies. *)
Theorem new_replies_are_all_accepted
    (cfg : config) (env : nat -> event) (m : gmap pystr (list prompt))
    (stdout : nat -> pystr) (fuel : nat) :
  let n := Z.to_nat (num_prompts cfg) in
  replies env stdout n ->
  NoDup (records stdout n) ->
  (use_memory cfg = true ->
   forall r, In r (records stdout n) -> ~ In r (memory_of m (model_name cfg))) ->
  (n <= fuel)%nat ->
  exists st,
    generate_prompts_for_model fuel cfg env m = Finished st
    /\ attempts st = Z.of_nat n
    /\ prompt_index st = Z.of_nat n
    /\ accepted st = records stdout n.
Proof.
  intros n Henv Hnd Hmem Hfuel.
  set (known := if use_memory cfg then memory_of m (model_name cfg) else []).
  assert (Hloop : forall fuel' (j : nat) st,
            (j <= n)%nat -> (n - j <= fuel')%nat ->
            attempts st = Z.of_nat j -> prompt_index st = Z.of_nat j ->
            accepted st = records stdout j ->
            incl (checked_list cfg st) (known ++ accepted st) ->
            exists st',
              while_loop fuel' cfg env st = Finished st'
              /\ attempts st' = Z.of_nat n /\ prompt_index st' = Z.of_nat n
              /\ accepted st' = records stdout n).
  { induction fuel' as [|fuel' IH]; intros j st Hj Hf Ha Hp Hacc Hincl.
    - assert (j = n) by lia. subst j. exists st. simpl.
      unfold loop_condition. rewrite Hp.
      destruct (Z.ltb_spec (Z.of_nat n) (num_prompts cfg)); [lia|].
      auto.
    - rewrite while_loop_unfold.
      destruct (Nat.eq_dec j n) as [->|Hne].
      { exists st. unfold loop_condition. rewrite Hp.
        destruct (Z.ltb_spec (Z.of_nat n) (num_prompts cfg)); [lia|].
        auto. }
      assert (Hlt : (j < n)%nat) by lia.
      assert (Hc : loop_condition cfg st = true).
      { apply loop_condition_true. lia. }
      rewrite Hc, Ha, Nat2Z.id.
      assert (Hnew : ~ In (record_of (stdout j)) (checked_list cfg st)).
      { intros Hin. apply Hincl, in_app_or in Hin as [Hin|Hin].
        - unfold known in Hin. destruct (use_memory cfg) eqn:Hum;
            [|destruct Hin].
          apply (Hmem eq_refl (record_of (stdout j))); [|exact Hin].
          apply records_In. exact Hlt.
        - rewrite Hacc in Hin. revert Hin.
          apply (records_fresh stdout n j Hnd Hlt). }
      rewrite (iteration_new cfg (env j) st (stdout j));
        [|rewrite (Henv j Hlt); reflexivity
         |rewrite (Henv j Hlt); reflexivity
         |exact Hnew].
      apply (IH (S j)).
      + lia.
      + lia.
      + rewrite accept_attempts. simpl. lia.
      + rewrite accept_prompt_index. simpl. lia.
      + rewrite accept_accepted, records_succ.
        change (accepted (with_attempts st (attempts st + 1)))
          with (accepted st).
        rewrite Hacc. reflexivity.
      + rewrite accept_accepted.
        change (accepted (with_attempts st (attempts st + 1)))
          with (accepted st).
        unfold checked_list in *.
        destruct (use_memory cfg) eqn:Hum.
        * rewrite accept_memory, Hum, memory_of_insert, memory_with_attempts.
          rewrite app_assoc.
          apply incl_app; [apply incl_appl; exact Hincl
                          |apply incl_appr, incl_refl].
        * destruct (accept_run_cases cfg (with_attempts st (attempts st + 1))
                      (record_of (stdout j))) as [E|E]; rewrite E.
          -- rewrite run_with_attempts, app_assoc.
             apply incl_app; [apply incl_appl; exact Hincl
                             |apply incl_appr, incl_refl].
          -- intros x Hx. destruct Hx. }
  destruct (Hloop fuel 0%nat (initial_state cfg m)) as (st & Hst & Ha & Hp & Hacc).
  - lia.
  - lia.
  - reflexivity.
  - reflexivity.
  - reflexivity.
  - unfold checked_list, known. cbn [new_prompts_this_run initial_state].
    destruct (use_memory cfg).
    + rewrite memory_of_initial. apply incl_appl, incl_refl.
    + intros x Hx. destruct Hx.
  - exists (save_prompts_to_csv st). unfold generate_prompts_for_model.
    rewrite Hst, save_attempts, save_prompt_index, save_accepted. auto.
Qed.

(** X15 on the run with the replies A, B, A, the memory off and a save
    after every record: appended to a file that holds one line, the three
    rows follow that line, without a header. *)
Lemma append_mode_writes_every_record_once_witness :
  file_after (py "append")
    (csv_batches (state_of (generate_prompts_for_model 9 cfg_flush env_aba ∅)))
    (Some (py "old" ++ [CR; NL]))
  = Some (py "old" ++ [CR; NL] ++ py "A,," ++ [CR; NL] ++ py "B,,"
          ++ [CR; NL] ++ py "A,," ++ [CR; NL]).
Proof.
  destruct (append_mode_writes_every_record_once 9 cfg_flush env_aba ∅
              (state_of (generate_prompts_for_model 9 cfg_flush env_aba ∅))
              (Some (py "old" ++ [CR; NL]))) as (_ & H & _).
  - vm_compute. reflexivity.
  - rewrite H; [vm_compute; reflexivity|]. vm_compute. discriminate.
Defined.

(** X16 on the same run: written in the save mode "overwrite", the file
    holds the header and the last record only. *)
Lemma overwrite_mode_keeps_last_batch_witness :
  file_after (py "overwrite")
    (csv_batches (state_of (generate_prompts_for_model 9 cfg_flush env_aba ∅)))
    None
  = Some (py "Title,Description,Style" ++ [CR; NL] ++ py "A,," ++ [CR; NL]).
Proof.
  destruct (overwrite_mode_keeps_last_batch 9 cfg_flush env_aba ∅
              (state_of (generate_prompts_for_model 9 cfg_flush env_aba ∅))
              (py "overwrite") None) as (H & _).
  - vm_compute. reflexivity.
  - vm_compute. discriminate.
  - vm_compute. discriminate.
  - rewrite H. vm_compute. reflexivity.
Defined.

(** X17 on the run with the replies A, B, A and the memory on. *)
Lemma accepted_records_are_distinct_witness :
  NoDup (accepted (state_of (generate_prompts_for_model 9 cfg_memory env_aba
                                                        ∅))).
Proof.
  apply (accepted_records_are_distinct 9 cfg_memory env_aba ∅).
  left. reflexivity.
Defined.

(** X18 on the run in which every reply is A: one record is accepted and
    the nine attempts are used up. *)
Lemma run_ends_at_target_or_budget_witness :
  attempts (state_of (generate_prompts_for_model 9 cfg_memory env_aaa ∅))
  = 3 * 3.
Proof.
  destruct (run_ends_at_target_or_budget 9 cfg_memory env_aaa ∅
              (state_of (generate_prompts_for_model 9 cfg_memory env_aaa ∅)))
    as ([H|H] & _).
  - intros k. split; [reflexivity|]. exists reply_a. reflexivity.
  - simpl. lia.
  - vm_compute. reflexivity.
  - exfalso. revert H. vm_compute. discriminate.
  - exact H.
Defined.

(** X19 on three numbered replies: three attempts, three records. *)
Lemma new_replies_are_all_accepted_witness :
  exists st,
    generate_prompts_for_model 3 cfg_plain env_numbered ∅ = Finished st
    /\ attempts st = 3
    /\ List.map title (accepted st) = [py "T0"; py "T1"; py "T2"].
Proof.
  destruct (new_replies_are_all_accepted cfg_plain env_numbered ∅
              stdout_numbered 3) as (st & H1 & H2 & _ & H4).
  - intros k _. reflexivity.
  - vm_compute. apply NoDup_ListNoDup.
    repeat (constructor; [simpl; intuition congruence|]). constructor.
  - intros _ r _ Hin. vm_compute in Hin. exact Hin.
  - simpl. lia.
  - exists st. split; [exact H1|]. split; [exact H2|].
    rewrite H4. vm_compute. reflexivity.
Defined.

End PromptGenMoreSpec.

(* --------------------------------------------------------------------- *)
(** ** [prompt_gen1.py] and [prompt_gen_v03.py] side by side *)
(* --------------------------------------------------------------------- *)

Module PromptGen1Facts.
Import Py PromptGen PromptGenFacts PromptGenMore CsvSink PromptGenMoreFacts.

Lemma same_run_iteration cfg ev st1 st :
  auto_save_every cfg <= 0 -> same_run st1 st ->
  fst (PromptGen1.iteration cfg ev st1) = fst (iteration cfg ev st)
  /\ same_run (snd (PromptGen1.iteration cfg ev st1))
              (snd (iteration cfg ev st)).
Proof.
  intros Hk (Hm & Hr & Ha & Hp & Hb).
  unfold PromptGen1.iteration, iteration.
  destruct (stop_generation ev); [repeat split; assumption|].
  destruct (reply ev) as [stdout|e].
  2:{ repeat split; try assumption. simpl. lia. }
  assert (Hdup : PromptGen1.is_duplicate cfg
                   (PromptGen1.with_attempts st1 (PromptGen1.attempts st1 + 1))
                   (record_of stdout)
                 = is_duplicate cfg (with_attempts st (attempts st + 1))
                     (record_of stdout)).
  { unfold PromptGen1.is_duplicate, is_duplicate. simpl.
    rewrite Hm, Hr. reflexivity. }
  rewrite Hdup. destruct (is_duplicate _ _ _).
  { repeat split; try assumption. simpl. lia. }
  split; [reflexivity|]. cbn [snd].
  unfold PromptGen1.accept_record, accept_record.
  destruct (Z.ltb_spec 0 (auto_save_every cfg)); [lia|]. cbn [andb].
  unfold same_run. simpl. rewrite Hm, Hr, Hp, len_app.
  repeat split; try assumption; try lia.
Qed.

Lemma same_run_loop cfg env :
  auto_save_every cfg <= 0 ->
  forall fuel st1 st,
    same_run st1 st ->
    match PromptGen1.while_loop fuel cfg env st1, while_loop fuel cfg env st
    with
    | Some s1, Finished s => same_run s1 s
    | None, OutOfFuel _ => True
    | _, _ => False
    end.
Proof.
  intros Hk. induction fuel as [|fuel IH]; intros st1 st Hsame.
  - simpl.
    assert (Hc : PromptGen1.loop_condition cfg st1 = loop_condition cfg st).
    { destruct Hsame as (_ & Hr & Ha & Hp & _).
      unfold PromptGen1.loop_condition, loop_condition.
      rewrite Hr, Ha, Hp. reflexivity. }
    rewrite Hc. destruct (loop_condition cfg st); [exact I | exact Hsame].
  - rewrite while_loop_unfold. cbn [PromptGen1.while_loop].
    assert (Hc : PromptGen1.loop_condition cfg st1 = loop_condition cfg st).
    { destruct Hsame as (_ & Hr & Ha & Hp & _).
      unfold PromptGen1.loop_condition, loop_condition.
      rewrite Hr, Ha, Hp. reflexivity. }
    rewrite Hc. destruct (loop_condition cfg st); [|exact Hsame].
    assert (Ha : PromptGen1.attempts st1 = attempts st)
      by (destruct Hsame as (_ & _ & Ha & _); exact Ha).
    rewrite Ha.
    destruct (same_run_iteration cfg (env (Z.to_nat (attempts st))) st1 st
                Hk Hsame) as [Hfst Hsnd].
    destruct (PromptGen1.iteration cfg _ st1) as [b1 s1].
    destruct (iteration cfg _ st) as [b s].
    cbn [fst snd] in *. subst b1.
    destruct b; [apply IH; exact Hsnd | exact Hsnd].
Qed.

Lemma same_run_initial cfg m :
  same_run (PromptGen1.initial_state cfg m) (initial_state cfg m).
Proof. repeat split. Qed.

(** The two scripts on the same inputs, without a periodic save. *)
Lemma same_run_generate fuel cfg mode env m file :
  auto_save_every cfg <= 0 ->
  match PromptGen1.generate_prompts_for_model fuel cfg mode env m file,
        generate_prompts_for_model fuel cfg env m
  with
  | Some (st1, file1), Finished st =>
      PromptGen1.ALL_PROMPTS_MEMORY st1 = ALL_PROMPTS_MEMORY st
      /\ PromptGen1.attempts st1 = attempts st
      /\ PromptGen1.new_prompts_this_run st1 = accepted st
      /\ file1 = file_after mode (csv_batches st) file
  | None, OutOfFuel _ => True
  | _, _ => False
  end.
Proof.
  intros Hk.
  pose proof (same_run_loop cfg env Hk fuel _ _ (same_run_initial cfg m)) as H.
  unfold PromptGen1.generate_prompts_for_model, generate_prompts_for_model.
  destruct (PromptGen1.while_loop fuel cfg env (PromptGen1.initial_state cfg m))
    as [s1|];
    destruct (while_loop fuel cfg env (initial_state cfg m)) as [s|s];
    try contradiction; [|exact I].
  destruct H as (Hm & Hr & Ha & Hp & Hb).
  rewrite save_memory, save_attempts, save_accepted, save_batches.
  unfold accepted. rewrite Hb, Hr. cbn [concat app].
  repeat split; try assumption.
  destruct (new_prompts_this_run s); reflexivity.
Qed.

(** The earlier script has no periodic save: [auto_save_every] does not
    matter to it. *)
Lemma earlier_script_ignores_auto_save mn np um a a' fuel mode env m file :
  PromptGen1.generate_prompts_for_model fuel (Config mn np um a) mode env m
                                        file
  = PromptGen1.generate_prompts_for_model fuel (Config mn np um a') mode env
                                          m file.
Proof.
  unfold PromptGen1.generate_prompts_for_model.
  change (PromptGen1.initial_state (Config mn np um a') m)
    with (PromptGen1.initial_state (Config mn np um a) m).
  generalize (PromptGen1.initial_state (Config mn np um a) m) as st.
  assert (H : forall st,
            PromptGen1.while_loop fuel (Config mn np um a) env st
            = PromptGen1.while_loop fuel (Config mn np um a') env st).
  { induction fuel as [|fuel IH]; intros st; cbn [PromptGen1.while_loop];
      change (PromptGen1.loop_condition (Config mn np um a') st)
        with (PromptGen1.loop_condition (Config mn np um a) st);
      [reflexivity|].
    destruct (PromptGen1.loop_condition (Config mn np um a) st);
      [|reflexivity].
    change (PromptGen1.iteration (Config mn np um a')
              (env (Z.to_nat (PromptGen1.attempts st))) st)
      with (PromptGen1.iteration (Config mn np um a)
              (env (Z.to_nat (PromptGen1.attempts st))) st).
    destruct (PromptGen1.iteration _ _ st) as [[|] st']; [apply IH|].
    reflexivity. }
  intros st. rewrite H. reflexivity.
Qed.

End PromptGen1Facts.

Module PromptGen1Spec.
Import Py PromptGen PromptGenFacts PromptGenMore CsvSink PromptGenMoreFacts
       PromptGen1Facts Examples MoreExamples.

(** X20.  Without a periodic save the two scripts do the same.  For
    [auto_save_every <= 0], the loop of [prompt_gen_v03.py] and the loop of
    [prompt_gen1.py], given the same model, target, memory switch, memory,
    replies and cancellations, end in the same memory after the same
    number of attempts, have accepted the same records in the same order,
    and leave the same CSV file. *)
Theorem no_periodic_save_is_the_earlier_script
    (fuel : nat) (cfg : config) (mode : pystr) (env : nat -> event)
    (m : gmap pystr (list prompt)) (file : option pystr) :
  auto_save_every cfg <= 0 ->
  match PromptGen1.generate_prompts_for_model fuel cfg mode env m file,
        generate_prompts_for_model fuel cfg env m
  with
  | Some (st1, file1), Finished st =>
      PromptGen1.ALL_PROMPTS_MEMORY st1 = ALL_PROMPTS_MEMORY st
      /\ PromptGen1.attempts st1 = attempts st
      /\ PromptGen1.new_prompts_this_run st1 = accepted st
      /\ file1 = file_after mode (csv_batches st) file
  | None, OutOfFuel _ => True
  | _, _ => False
  end.
Proof. apply same_run_generate. Qed.

(** X21.  The earlier script never writes a record twice in one run,
    with the memory or without it: the list it writes at the end has no
    two equal records, and it holds at most [num_prompts] of them (none
    for a target below one). *)
Theorem earlier_script_writes_distinct_rows
    (fuel : nat) (cfg : config) (mode : pystr) (env : nat -> event)
    (m : gmap pystr (list prompt)) (file file1 : option pystr)
    (st1 : PromptGen1.gen_state) :
  PromptGen1.generate_prompts_for_model fuel cfg mode env m file
  = Some (st1, file1) ->
  NoDup (PromptGen1.new_prompts_this_run st1)
  /\ len (PromptGen1.new_prompts_this_run st1) <= Z.max 0 (num_prompts cfg)
  /\ file1 = save_to_file mode (PromptGen1.new_prompts_this_run st1) file.
Proof.
  intros H.
  set (cfg0 := {| model_name := model_name cfg;
                  num_prompts := num_prompts cfg;
                  use_memory := use_memory cfg;
                  auto_save_every := 0 |}).
  assert (Hsame : PromptGen1.generate_prompts_for_model fuel cfg0 mode env m
                    file = Some (st1, file1)).
  { rewrite <- H. unfold cfg0. destruct cfg as [mn np um a]. simpl.
    apply earlier_script_ignores_auto_save. }
  pose proof (same_run_generate fuel cfg0 mode env m file) as Hsim.
  rewrite Hsame in Hsim.
  pose proof (accepted_nodup fuel cfg0 env m) as Hnd.
  pose proof (while_loop_counters cfg0 env fuel (initial_state cfg0 m)) as Hc.
  destruct (generate_prompts_for_model fuel cfg0 env m) as [st|st] eqn:Hgen;
    [|specialize (Hsim ltac:(simpl; lia)); contradiction].
  destruct (Hsim ltac:(simpl; lia)) as (_ & _ & Hacc & _).
  split; [|split].
  - rewrite Hacc. apply Hnd. right. simpl. lia.
  - destruct (finished_batches _ _ _ _ _ Hgen) as (_ & _ & Hlen).
    rewrite Hacc, <- Hlen.
    apply generate_finished in Hgen as (s0 & Hloop & ->).
    rewrite save_prompt_index.
    destruct (Z.le_gt_cases 0 (num_prompts cfg)) as [Hn|Hn].
    + rewrite Hloop in Hc. simpl in Hc.
      assert (Hok : counters_ok cfg0 (initial_state cfg0 m))
        by (unfold counters_ok; simpl; lia).
      specialize (Hc Hok). unfold counters_ok in Hc. simpl in Hc. lia.
    + destruct fuel; simpl in Hloop;
        unfold loop_condition in Hloop; simpl in Hloop;
        (destruct (Z.ltb_spec 0 (num_prompts cfg)); [lia|]);
        simpl in Hloop; injection Hloop as <-; simpl; lia.
  - revert H. unfold PromptGen1.generate_prompts_for_model.
    destruct (PromptGen1.while_loop _ _ _ _); [|discriminate].
    intros [= <- <-]. reflexivity.
Qed.

(** X20 on the replies A, B, A, A, ... with the memory on and no periodic
    save: both scripts end with the records A and B. *)
Lemma no_periodic_save_is_the_earlier_script_witness :
  match PromptGen1.generate_prompts_for_model 9 cfg_plain (py "append")
          env_aba ∅ None,
        generate_prompts_for_model 9 cfg_plain env_aba ∅
  with
  | Some (st1, file1), Finished st =>
      PromptGen1.ALL_PROMPTS_MEMORY st1 = ALL_PROMPTS_MEMORY st
      /\ PromptGen1.attempts st1 = attempts st
      /\ PromptGen1.new_prompts_this_run st1 = accepted st
      /\ file1 = file_after (py "append") (csv_batches st) None
  | None, OutOfFuel _ => True
  | _, _ => False
  end.
Proof.
  apply (no_periodic_save_is_the_earlier_script 9 cfg_plain (py "append")
           env_aba ∅ None).
  simpl. lia.
Defined.

(** X21 on the same replies with the memory off: the earlier script writes
    A and B once each, where [prompt_gen_v03.py] with a save after every
    record writes A twice. *)
Lemma earlier_script_writes_distinct_rows_witness :
  NoDup [record_a; record_b]
  /\ accepted (state_of (generate_prompts_for_model 9 cfg_flush env_aba ∅))
     = [record_a; record_b; record_a].
Proof.
  split; [|vm_compute; reflexivity].
  apply (earlier_script_writes_distinct_rows 9 cfg_flush (py "append")
           env_aba ∅ None
           (Some (HEADER ++ rows_of [record_a; record_b])) gen1_final).
  vm_compute. reflexivity.
Defined.

End PromptGen1Spec.

(* --------------------------------------------------------------------- *)
(** ** [rk_save_image.py]: the names of the saved files *)
(* --------------------------------------------------------------------- *)

Module SaveImageSpec.
Import Py PyFacts PyMore PyMoreFacts SaveImage.

Lemma pad_zeros_digits (w : nat) (ds : pystr) :
  Forall (fun c => is_digit c = true) ds ->
  Forall (fun c => is_digit c = true) (pad_zeros w ds).
Proof.
  intros H. unfold pad_zeros. apply Forall_app. split; [|exact H].
  apply Forall_forall. intros x Hx. apply list_elem_of_In in Hx.
  apply repeat_spec in Hx. subst. reflexivity.
Qed.

Lemma format_05_digits (p : positive) :
  Forall (fun c => is_digit c = true) (format_05 (Z.pos p)).
Proof. apply pad_zeros_digits, chars_of_uint_digits. Qed.

Lemma format_05_value (p : positive) :
  digits_acc 0 false (format_05 (Z.pos p)) = Some (Z.pos p).
Proof.
  unfold format_05, pad_zeros. cbn [py_str].
  rewrite digits_acc_zeros, digits_acc_chars.
  pose proof (Unsigned.to_uint_nonnil p) as Hn.
  destruct (Pos.to_uint p) eqn:E; [contradiction|..];
    rewrite <- E, uint_value_to_uint; reflexivity.
Qed.

(** The digits of a number below [10 ^ 4300], padded to five, are within
    the limit. *)
Lemma format_05_count (p : positive) :
  Z.pos p < 10 ^ INT_MAX_STR_DIGITS ->
  count_digits (format_05 (Z.pos p)) <= INT_MAX_STR_DIGITS.
Proof.
  intros Hp. rewrite count_digits_all by apply format_05_digits.
  pose proof (digits_of_pos p INT_MAX_STR_DIGITS ltac:(discriminate) Hp)
    as Hd.
  unfold format_05, pad_zeros, len in *. cbn [py_str].
  rewrite length_app, repeat_length. unfold INT_MAX_STR_DIGITS in *. lia.
Qed.

Lemma startswith_slash (prefix f : pystr) :
  In 47%N prefix -> ~ In 47%N f -> startswith prefix f = false.
Proof.
  intros Hp Hf. unfold startswith. apply bool_decide_eq_false_2.
  intros Heq. apply Hf. rewrite <- Heq in Hp.
  rewrite <- (firstn_skipn (length prefix) f). apply in_or_app. left.
  exact Hp.
Qed.

Section WithInterpreter.

Context `{interp : Interpreter}.

(** The text between the last underscore and the dot after it, as
    [file_number] cuts it out of a name that [save_images] has built. *)
Lemma number_text_file_name (prefix : pystr) (p : positive) :
  hd [] (split_on 46 (List.last (split_on 95 (file_name prefix (Z.pos p)))
                                []))
  = format_05 (Z.pos p).
Proof.
  unfold file_name.
  change (py "_") with [95%N]. change (py ".png") with (46%N :: py "png").
  cbn [app]. rewrite split_on_sep.
  rewrite last_app_nonempty by apply split_on_nonempty.
  assert (H95 : ~ In 95%N (format_05 (Z.pos p) ++ 46%N :: py "png")).
  { intros Hin. apply in_app_or in Hin as [Hin|Hin].
    - revert Hin. apply digit_without; [reflexivity|apply format_05_digits].
    - simpl in Hin. intuition discriminate. }
  rewrite (split_on_absent 95 _ H95). cbn [List.last].
  rewrite split_on_sep.
  rewrite (split_on_absent 46 (format_05 (Z.pos p))).
  2:{ apply digit_without; [reflexivity|apply format_05_digits]. }
  reflexivity.
Qed.

Lemma py_int_format_05 (p : positive) :
  py_int (format_05 (Z.pos p)) = Ok (Z.pos p).
Proof.
  unfold py_int.
  rewrite to_ascii_fixed.
  2:{ eapply Forall_impl; [apply format_05_digits|].
      intros c. apply digit_ascii. }
  rewrite strip_with_fixed.
  2:{ eapply Forall_impl; [apply format_05_digits|].
      intros c. apply digit_not_c_space. }
  pose proof (format_05_value p) as Hv.
  pose proof (format_05_digits p) as Hd.
  destruct (format_05 (Z.pos p)) as [|c ds] eqn:E.
  { simpl in Hv. discriminate. }
  inversion Hd as [|? ? Hc _]; subst.
  assert (c <> 43%N /\ c <> 45%N) as [H43 H45].
  { split; intros ->; discriminate. }
  destruct c as [|q]; [rewrite Hv; reflexivity|].
  do 6 (destruct q as [q|q|]; try (rewrite Hv; reflexivity);
        try contradiction).
Qed.

(** The number of a name is read back from it, within the limit. *)
Lemma file_number_file_name (prefix : pystr) (p : positive) :
  Z.pos p < 10 ^ INT_MAX_STR_DIGITS ->
  file_number (file_name prefix (Z.pos p)) = Ok (Z.pos p).
Proof.
  intros Hp. unfold file_number. rewrite number_text_file_name.
  rewrite int_of_str_within; [apply py_int_format_05|].
  rewrite to_ascii_fixed.
  2:{ eapply Forall_impl; [apply format_05_digits|].
      intros c. apply digit_ascii. }
  apply format_05_count. exact Hp.
Qed.

(** The scan does not return less than the number of a file it looks at. *)
Lemma fold_max_ge (files : list pystr) :
  forall init,
    init <= fold_left (fun highest_num file =>
                         match file_number file with
                         | Ok num => Z.max highest_num num
                         | Raise _ => highest_num
                         end) files init
    /\ forall file num,
        In file files -> file_number file = Ok num ->
        num <= fold_left (fun highest_num file =>
                            match file_number file with
                            | Ok num => Z.max highest_num num
                            | Raise _ => highest_num
                            end) files init.
Proof.
  induction files as [|f files IH]; intros init; simpl.
  - split; [lia|]. intros file num [].
  - destruct (IH (match file_number f with
                  | Ok num => Z.max init num
                  | Raise _ => init
                  end)) as [H1 H2].
    split.
    + destruct (file_number f); lia.
    + intros file num [->|Hin] Hnum.
      * rewrite Hnum in *. lia.
      * apply (H2 file num Hin Hnum).
Qed.

Lemma highest_num_ge (listing : list pystr) (prefix : pystr) (p : positive) :
  Z.pos p < 10 ^ INT_MAX_STR_DIGITS ->
  In (file_name prefix (Z.pos p)) listing ->
  Z.pos p <= highest_num listing prefix.
Proof.
  intros Hp Hin. unfold highest_num.
  apply (proj2 (fold_max_ge _ 0) (file_name prefix (Z.pos p))).
  - apply filter_In. split; [exact Hin|].
    unfold file_name at 1. rewrite startswith_app.
    unfold file_name. rewrite !app_assoc, endswith_app. reflexivity.
  - apply file_number_file_name. exact Hp.
Qed.

Lemma highest_num_nonneg (listing : list pystr) (prefix : pystr) :
  0 <= highest_num listing prefix.
Proof. unfold highest_num. apply (proj1 (fold_max_ge _ 0)). Qed.

(** A prefix that names a folder matches no entry of the directory. *)
Lemma highest_num_slash (listing : list pystr) (prefix : pystr) :
  In 47%N prefix -> Forall (fun f => ~ In 47%N f) listing ->
  highest_num listing prefix = 0.
Proof.
  intros Hp Hall. unfold highest_num.
  replace (List.filter _ listing) with (@nil pystr); [reflexivity|].
  symmetry. induction Hall as [|f l Hf _ IH]; [reflexivity|].
  cbn [List.filter]. rewrite (startswith_slash prefix f Hp Hf). exact IH.
Qed.

Lemma file_names_spec (prefix : pystr) (images : nat) :
  forall counter,
    file_names prefix counter images
    = List.map (fun i => file_name prefix (counter + Z.of_nat i))
               (seq 0 images).
Proof.
  induction images as [|n IH]; intros counter; [reflexivity|].
  cbn [file_names seq List.map]. rewrite Z.add_0_r. f_equal.
  rewrite IH, <- seq_shift, List.map_map.
  apply map_ext. intros i. f_equal. lia.
Qed.

Lemma file_name_inj (prefix : pystr) (a b : Z) :
  0 < a -> 0 < b -> file_name prefix a = file_name prefix b -> a = b.
Proof.
  intros Ha Hb H.
  destruct a as [|p|p]; try lia. destruct b as [|q|q]; try lia.
  pose proof (number_text_file_name prefix p) as Hp.
  rewrite H, number_text_file_name in Hp.
  pose proof (py_int_format_05 p) as Hv.
  rewrite <- Hp, py_int_format_05 in Hv. congruence.
Qed.

(** X22.  The names [save_images] gives to the images of a batch, as long
    as the numbers stay below [10 ^ 4300] (beyond, the interpreter refuses
    to format them).  The names are [<prefix>_<number>.png] with the
    numbers running on from one above the highest number that the scan of
    the output directory finds (from 1 when it finds none); they are
    pairwise different, and none of them is the name of an entry that the
    directory listed.  The scan looks at the entries of the output
    directory only: for a prefix that names a folder (it holds a slash) no
    entry matches, whatever files the folder holds, so that every batch
    gets the names from number 1 on again. *)
Theorem saved_images_get_fresh_names
    (listing : list pystr) (images : nat) (filename_prefix : pystr) :
  highest_num listing filename_prefix + Z.of_nat images
  < 10 ^ INT_MAX_STR_DIGITS ->
  let names := save_images listing images filename_prefix in
  names = List.map (fun i => file_name filename_prefix
                               (highest_num listing filename_prefix
                                + 1 + Z.of_nat i))
                   (seq 0 images)
  /\ 1 <= highest_num listing filename_prefix + 1
  /\ (forall name, In name names -> ~ In name listing)
  /\ NoDup names
  /\ (In 47%N filename_prefix ->
      Forall (fun f => ~ In 47%N f) listing ->
      names = file_names filename_prefix 1 images).
Proof.
  intros Hlimit names.
  pose proof (highest_num_nonneg listing filename_prefix) as H0.
  assert (Hnames : names
    = List.map (fun i => file_name filename_prefix
                           (highest_num listing filename_prefix
                            + 1 + Z.of_nat i))
               (seq 0 images)) by apply file_names_spec.
  split; [exact Hnames|]. split; [lia|]. split; [|split].
  - intros name Hin Hold. rewrite Hnames in Hin.
    apply in_map_iff in Hin as (i & <- & Hi). apply in_seq in Hi.
    destruct (highest_num listing filename_prefix + 1 + Z.of_nat i)
      as [|p|p] eqn:E; try lia.
    assert (Hp : Z.pos p < 10 ^ INT_MAX_STR_DIGITS) by lia.
    pose proof (highest_num_ge listing filename_prefix p Hp Hold). lia.
  - rewrite Hnames. apply NoDup_ListNoDup, NoDup_map_on.
    + intros i j _ _ H. apply file_name_inj in H; lia.
    + apply List.seq_NoDup.
  - intros Hp Hall. unfold names, save_images.
    rewrite (highest_num_slash listing filename_prefix Hp Hall).
    reflexivity.
Qed.

End WithInterpreter.

#[local] Existing Instance Examples.sample_interpreter.

(** X22 on a directory that holds two images of the prefix and a file of
    another prefix: the next two images get the numbers 3 and 4. *)
Lemma saved_images_get_fresh_names_witness :
  save_images [py "img_00001.png"; py "img_00002.png"; py "other_00007.png"]
              2 (py "img")
  = [py "img_00003.png"; py "img_00004.png"].
Proof.
  destruct (saved_images_get_fresh_names
              [py "img_00001.png"; py "img_00002.png"; py "other_00007.png"]
              2 (py "img")) as [H _].
  - vm_compute. reflexivity.
  - rewrite H. vm_compute. reflexivity.
Defined.

End SaveImageSpec.

(* --------------------------------------------------------------------- *)
(** ** The accumulating text nodes *)
(* --------------------------------------------------------------------- *)

Module AccumulateFacts.
Import Py PyFacts PyMoreFacts LooperMoreFacts Accumulate.

(** A text has something left after [strip] exactly when one of its
    characters is not white space. *)
Lemma has_text_iff (s : pystr) :
  has_text s = true <-> Exists (fun c => is_space c = false) s.
Proof.
  unfold has_text, strip.
  destruct (strip_with_split is_space s)
    as (pre & post & Heq & Hpre & Hpost & Hhd & _).
  destruct (strip_with is_space s) as [|c t] eqn:E.
  - split; [discriminate|]. intros Hex. exfalso.
    rewrite Heq in Hex. simpl in Hex.
    apply Exists_app in Hex as [Hex|Hex]; apply Exists_exists in Hex;
      destruct Hex as (x & Hx & Hs);
      [rewrite Forall_forall in Hpre; rewrite (Hpre x Hx) in Hs
      |rewrite Forall_forall in Hpost; rewrite (Hpost x Hx) in Hs];
      discriminate.
  - split; [|reflexivity]. intros _. rewrite Heq.
    apply Exists_app. right. apply Exists_app. left.
    apply Exists_cons_hd. apply Hhd. reflexivity.
Qed.

Lemma has_text_nil : has_text [] = false.
Proof. reflexivity. Qed.

Lemma has_text_app_l (a b : pystr) :
  has_text a = true -> has_text (a ++ b) = true.
Proof.
  rewrite !has_text_iff. intros H. apply Exists_app. left. exact H.
Qed.

Lemma has_text_app_r (a b : pystr) :
  has_text b = true -> has_text (a ++ b) = true.
Proof.
  rewrite !has_text_iff. intros H. apply Exists_app. right. exact H.
Qed.

Lemma join_snoc (sep : pystr) (l : list pystr) (x : pystr) :
  l <> [] -> join sep (l ++ [x]) = join sep l ++ sep ++ x.
Proof.
  induction l as [|y l IH]; [contradiction|]. intros _.
  destruct l as [|z l]; [reflexivity|].
  change ((y :: z :: l) ++ [x]) with (y :: (z :: l) ++ [x]).
  change (join sep (y :: (z :: l) ++ [x]))
    with (y ++ sep ++ join sep ((z :: l) ++ [x])).
  rewrite IH by discriminate.
  change (join sep (y :: z :: l)) with (y ++ sep ++ join sep (z :: l)).
  rewrite <- !app_assoc. reflexivity.
Qed.

Lemma join_has_text (sep : pystr) (l : list pystr) :
  l <> [] -> Forall (fun b => has_text b = true) l ->
  has_text (join sep l) = true.
Proof.
  intros Hne Hall. destruct l as [|x l]; [contradiction|].
  inversion Hall; subst.
  destruct l; [assumption|]. simpl. apply has_text_app_l. assumption.
Qed.

(** [join] undoes [split]. *)
Lemma join_split_on (c : N) (s : pystr) : join [c] (split_on c s) = s.
Proof.
  induction s as [|x s IH]; [reflexivity|].
  simpl. destruct (N.eqb_spec x c) as [->|Hne].
  - pose proof (split_on_nonempty c s) as Hn.
    destruct (split_on c s) as [|h t] eqn:E; [contradiction|].
    change (join [c] ([] :: h :: t)) with ([] ++ [c] ++ join [c] (h :: t)).
    rewrite IH. reflexivity.
  - pose proof (split_on_nonempty c s) as Hn.
    destruct (split_on c s) as [|h t] eqn:E; [contradiction|].
    destruct t as [|h2 t].
    + simpl in *. rewrite IH. reflexivity.
    + change (join [c] ((x :: h) :: h2 :: t))
        with ((x :: h) ++ [c] ++ join [c] (h2 :: t)).
      change (join [c] (h :: h2 :: t))
        with (h ++ [c] ++ join [c] (h2 :: t)) in IH.
      rewrite <- IH. reflexivity.
Qed.

End AccumulateFacts.

Module AccumulateSpec.
Import Py PyFacts Accumulate AccumulateFacts.

(** X23.  What the accumulating node holds.  After any sequence of calls
    without reset and with one separator, begun with nothing accumulated,
    the accumulated text is the blocks of the calls that have text (the
    two inputs with a line feed between them when both have text, else the
    one that has, in the order of the calls) joined by the separator: a
    call whose inputs are blank changes nothing, and no separator is put
    before the first block or after the last. *)
Theorem accumulated_text_is_the_join_of_the_blocks
    (separator : pystr) (calls : list (pystr * pystr)) :
  accumulate_all separator calls []
  = join separator
      (List.filter has_text
         (List.map (fun c => new_block (fst c) (snd c)) calls)).
Proof.
  induction calls as [|c calls IH] using rev_ind; [reflexivity|].
  unfold accumulate_all in *. rewrite fold_left_app. cbn [fold_left].
  rewrite IH. rewrite map_app, List.filter_app. cbn [List.map List.filter].
  set (blocks := List.filter has_text
                   (List.map (fun c => new_block (fst c) (snd c)) calls)).
  assert (Hall : Forall (fun b => has_text b = true) blocks).
  { apply Forall_forall. intros b Hb. apply list_elem_of_In in Hb.
    apply filter_In in Hb as [_ Hb]. exact Hb. }
  unfold accumulate_text.
  change (str_eqb (py "no") (py "yes")) with false. cbv iota.
  destruct (has_text (new_block (fst c) (snd c))) eqn:Hb.
  - destruct blocks as [|b0 bs] eqn:Eb.
    + simpl. reflexivity.
    + rewrite join_has_text by (try discriminate; exact Hall).
      cbn [andb]. symmetry. apply join_snoc. discriminate.
  - rewrite andb_false_r, app_nil_r. reflexivity.
Qed.

End AccumulateSpec.

Module AccumulateNumberedSpec.
Import Py PyFacts Accumulate AccumulateFacts AccumulateNumbered.

Lemma number_lines_spec (lines : list pystr) :
  forall c,
    length (fst (number_lines c lines)) = length lines
    /\ snd (number_lines c lines) = c + len (List.filter has_text lines)
    /\ forall (i : nat) line,
        nth_error lines i = Some line ->
        nth_error (fst (number_lines c lines)) i
        = Some (if has_text line
                then py_str (c + len (List.filter has_text (firstn i lines)))
                     ++ py ". " ++ line
                else line).
Proof.
  induction lines as [|l lines IH]; intros c.
  - simpl. unfold len. simpl. split; [reflexivity|]. split; [lia|].
    intros [|i] line; discriminate.
  - cbn [number_lines List.filter].
    destruct (has_text l) eqn:Hl.
    + destruct (IH (c + 1)) as (H1 & H2 & H3).
      destruct (number_lines (c + 1) lines) as [fb c'].
      cbn [fst snd] in *. split; [simpl; lia|]. split.
      * rewrite H2. unfold len. simpl. lia.
      * intros [|i] line Hi.
        -- simpl in Hi. injection Hi as <-. rewrite Hl.
           simpl. unfold len. simpl. rewrite Z.add_0_r. reflexivity.
        -- simpl in Hi. cbn [nth_error]. rewrite (H3 i line Hi).
           cbn [firstn List.filter]. rewrite Hl.
           destruct (has_text line); [|reflexivity].
           do 3 f_equal. unfold len. simpl. lia.
    + destruct (IH c) as (H1 & H2 & H3).
      destruct (number_lines c lines) as [fb c'].
      cbn [fst snd] in *. split; [simpl; lia|]. split; [exact H2|].
      intros [|i] line Hi.
      * simpl in Hi. injection Hi as <-. rewrite Hl. reflexivity.
      * simpl in Hi. cbn [nth_error]. rewrite (H3 i line Hi).
        cbn [firstn List.filter]. rewrite Hl. reflexivity.
Qed.

(** A joined text has text exactly when one of the pieces has, for a
    separator of white space. *)
Lemma join_has_text_exists (sep : pystr) (l : list pystr) :
  Exists (fun b => has_text b = true) l -> has_text (join sep l) = true.
Proof.
  induction l as [|x l IH]; intros H; [inversion H|].
  destruct l as [|y l].
  - inversion H as [? ? Hx|? ? Hx]; subst; [exact Hx|inversion Hx].
  - change (join sep (x :: y :: l)) with (x ++ sep ++ join sep (y :: l)).
    inversion H as [? ? Hx|? ? Hx]; subst.
    + apply has_text_app_l. exact Hx.
    + apply has_text_app_r, has_text_app_r. apply IH. exact Hx.
Qed.

Lemma has_text_join_exists (sep : pystr) (l : list pystr) :
  has_text sep = false -> has_text (join sep l) = true ->
  Exists (fun b => has_text b = true) l.
Proof.
  intros Hsep. induction l as [|x l IH]; intros H.
  - discriminate.
  - destruct l as [|y l].
    + apply Exists_cons_hd. exact H.
    + change (join sep (x :: y :: l)) with (x ++ sep ++ join sep (y :: l))
        in H.
      apply has_text_iff in H. apply Exists_app in H as [H|H].
      * apply Exists_cons_hd. apply has_text_iff. exact H.
      * apply Exists_app in H as [H|H].
        -- apply has_text_iff in H. congruence.
        -- apply Exists_cons_tl. apply IH. apply has_text_iff. exact H.
Qed.

(** Numbering keeps the lines that have text. *)
Lemma number_lines_has_text (lines : list pystr) :
  forall c,
    Exists (fun b => has_text b = true) lines ->
    Exists (fun b => has_text b = true) (fst (number_lines c lines)).
Proof.
  induction lines as [|l lines IH]; intros c H; [inversion H|].
  cbn [number_lines]. destruct (has_text l) eqn:Hl.
  - destruct (number_lines (c + 1) lines) as [fb c'].
    apply Exists_cons_hd. apply has_text_app_r, has_text_app_r. exact Hl.
  - specialize (IH c).
    destruct (number_lines c lines) as [fb c']. cbn [fst] in *.
    inversion H as [? ? Hx|? ? Hx]; subst; [congruence|].
    apply Exists_cons_tl. apply IH. exact Hx.
Qed.

(** X24.  The numbering node.  With the numbering on, the lines of the new
    block that have text get the numbers [line_count], [line_count + 1],
    ... in order, each as [<number>. <line>], the blank lines stay as they
    are, and the line count moves on by the number of lines that have
    text; a reset puts it back to 1 first.  With the numbering off, or for
    a block without text, the line count stays.  A block without text
    changes nothing; a block with text is appended, numbered or as it is,
    after the separator when the text accumulated already has text and in
    its place otherwise.  The text returned is the text kept. *)
Theorem numbered_lines_are_consecutive
    (input_text_1 input_text_2 separator reset_accumulation
     line_numbering : pystr) (st : state) :
  let r := accumulate_text input_text_1 input_text_2 separator
                           reset_accumulation line_numbering st in
  let block := new_block input_text_1 input_text_2 in
  let before :=
    if str_eqb reset_accumulation (py "yes")
    then {| accumulated_text := []; line_count := 1 |} else st in
  fst r = accumulated_text (snd r)
  /\ line_count (snd r)
     = (if has_text block && str_eqb line_numbering (py "yes")
        then line_count before
             + len (List.filter has_text (split_on NL block))
        else line_count before)
  /\ (forall lines c,
        length (fst (number_lines c lines)) = length lines
        /\ forall (i : nat) line,
            nth_error lines i = Some line ->
            nth_error (fst (number_lines c lines)) i
            = Some (if has_text line
                    then py_str (c + len (List.filter has_text
                                                      (firstn i lines)))
                         ++ py ". " ++ line
                    else line))
  /\ (has_text block = false -> snd r = before)
  /\ (has_text block = true ->
      let formatted :=
        if str_eqb line_numbering (py "yes")
        then join [NL] (fst (number_lines (line_count before)
                                          (split_on NL block)))
        else block in
      fst r = if has_text (accumulated_text before)
              then accumulated_text before ++ separator ++ formatted
              else formatted).
Proof.
  intros r block before. unfold r, accumulate_text.
  fold before. fold block.
  split; [|split; [|split; [|split]]].
  - destruct (has_text block); cbn [negb]; [|reflexivity].
    destruct (if str_eqb line_numbering (py "yes") then _ else _)
      as [fb c]. reflexivity.
  - destruct (has_text block); cbn [negb andb]; [|reflexivity].
    destruct (str_eqb line_numbering (py "yes")).
    + destruct (number_lines_spec (split_on NL block) (line_count before))
        as (_ & H & _).
      destruct (number_lines (line_count before) (split_on NL block))
        as [fb c]. exact H.
    + reflexivity.
  - intros lines c. destruct (number_lines_spec lines c) as (H1 & _ & H3).
    split; assumption.
  - intros ->. reflexivity.
  - intros Hb. rewrite Hb. cbn [negb].
    destruct (str_eqb line_numbering (py "yes")).
    + assert (Hf : has_text (join [NL]
                      (fst (number_lines (line_count before)
                                         (split_on NL block)))) = true).
      { apply join_has_text_exists, number_lines_has_text.
        apply (has_text_join_exists [NL]); [reflexivity|].
        rewrite join_split_on. exact Hb. }
      destruct (number_lines (line_count before) (split_on NL block))
        as [fb c]. cbn [fst] in *. rewrite Hf.
      destruct (has_text (accumulated_text before)); reflexivity.
    + cbn [fst]. rewrite join_split_on, Hb.
      destruct (has_text (accumulated_text before)); reflexivity.
Qed.

End AccumulateNumberedSpec.

(* --------------------------------------------------------------------- *)
(** ** [parse_ollama_output]: the fields of a parsed record *)
(* --------------------------------------------------------------------- *)

Module ParseFacts.
Import Py PyFacts Re ReFacts ParseMore PromptGen.

Lemma one_reaches p k prev s r :
  one p k prev s = Some r ->
  exists c s', s = c :: s' /\ p c = true /\ k (Some c) s' = Some r.
Proof.
  unfold one. destruct s as [|c s]; [discriminate|].
  destruct (p c) eqn:Hp; [|discriminate]. intros H. eauto.
Qed.

Lemma lazy_star_reaches_all p k prev s r :
  lazy_star p k prev s = Some r ->
  exists pre prev' s',
    s = pre ++ s' /\ Forall (fun c => p c = true) pre
    /\ k prev' s' = Some r.
Proof.
  revert prev. induction s as [|c s IH]; intros prev; simpl.
  - destruct (k prev []) eqn:E; [|discriminate].
    intros [= <-]. exists [], prev, []. auto.
  - destruct (k prev (c :: s)) eqn:E.
    + intros [= <-]. exists [], prev, (c :: s). auto.
    + destruct (p c) eqn:Hp; [|discriminate]. intros H.
      destruct (IH _ H) as (pre & prev' & s' & -> & Hall & Hk).
      exists (c :: pre), prev', s'. auto.
Qed.

(** Nodes without group parentheses consume a piece of the subject and
    leave the captures alone. *)
Lemma run_groupfree (pre rest : list node) k :
  forallb groupfree pre = true ->
  forall g prev s r,
    run (pre ++ rest) k g prev s = Some r ->
    exists a prev' s', s = a ++ s' /\ run rest k g prev' s' = Some r.
Proof.
  induction pre as [|n pre IH]; intros Hgf g prev s r.
  - intros H. exists [], prev, s. auto.
  - cbn [forallb] in Hgf. apply andb_true_iff in Hgf as [Hn Hgf].
    specialize (IH Hgf).
    destruct n as [a q| | | |]; try discriminate; cbn [app run].
    + destruct q.
      * intros H. apply one_reaches in H as (c & s1 & -> & _ & H).
        destruct (IH _ _ _ _ H) as (a1 & prev' & s' & -> & Hr).
        exists (c :: a1), prev', s'. auto.
      * destruct (one (atom_matches a) (run (pre ++ rest) k g) prev s)
          as [r0|] eqn:E.
        -- intros [= <-].
           apply one_reaches in E as (c & s1 & -> & _ & H).
           destruct (IH _ _ _ _ H) as (a1 & prev' & s' & -> & Hr).
           exists (c :: a1), prev', s'. auto.
        -- intros H. apply (IH _ _ _ _ H).
      * intros H.
        apply star_reaches_all in H as (p1 & prev1 & s1 & -> & _ & H).
        destruct (IH _ _ _ _ H) as (a1 & prev' & s' & -> & Hr).
        exists (p1 ++ a1), prev', s'. rewrite <- app_assoc. auto.
      * intros H. apply one_reaches in H as (c & s1 & -> & _ & H).
        apply star_reaches_all in H as (p1 & prev1 & s2 & -> & _ & H).
        destruct (IH _ _ _ _ H) as (a1 & prev' & s' & -> & Hr).
        exists (c :: p1 ++ a1), prev', s'.
        simpl. rewrite <- app_assoc. auto.
      * intros H. apply one_reaches in H as (c & s1 & -> & _ & H).
        apply lazy_star_reaches_all in H as (p1 & prev1 & s2 & -> & _ & H).
        destruct (IH _ _ _ _ H) as (a1 & prev' & s' & -> & Hr).
        exists (c :: p1 ++ a1), prev', s'.
        simpl. rewrite <- app_assoc. auto.
    + destruct (at_bol prev); [|discriminate]. apply IH.
    + destruct (at_eol s); [|discriminate]. apply IH.
Qed.

(** A pattern with one group that holds [.+] or [.+?]: the captures of a
    match delimit a piece of the subject that is not empty and has no line
    feed. *)
Lemma run_one_group (pre post : list node) (q : quant) :
  forallb groupfree pre = true -> forallb groupfree post = true ->
  q = Plus \/ q = PlusLazy ->
  forall g0 prev s g,
    run (pre ++ [GroupOpen; Q Any q; GroupClose] ++ post) accept g0 prev s
    = Some g ->
    exists a m b,
      s = a ++ m ++ b /\ g = (m ++ b, b) /\ m <> []
      /\ Forall (fun c => c <> NL) m.
Proof.
  intros Hpre Hpost Hq g0 prev s g H.
  apply (run_groupfree pre _ accept Hpre) in H
    as (a & prev1 & s1 & -> & H).
  cbn [app run fst snd] in H.
  assert (Hk : forall prev' s',
            run (GroupClose :: post) accept (s1, snd g0) prev' s' = Some g ->
            g = (s1, s')).
  { intros prev' s' Hr. cbn [run fst snd] in Hr.
    rewrite <- (app_nil_r post) in Hr.
    apply (run_groupfree post [] accept Hpost) in Hr
      as (a2 & prev2 & s2 & _ & Hr).
    cbn [run] in Hr. unfold accept in Hr. congruence. }
  assert (Hany : forall l, Forall (fun c => atom_matches Any c = true) l ->
                           Forall (fun c => c <> NL) l).
  { intros l Hl. eapply Forall_impl; [exact Hl|].
    intros c Hc. cbn [atom_matches] in Hc.
    apply negb_true_iff, N.eqb_neq in Hc. exact Hc. }
  destruct Hq as [-> | ->].
  - apply one_reaches in H as (c & s2 & -> & Hc & H).
    apply star_reaches_all in H as (m & prev2 & s3 & -> & Hm & H).
    apply Hk in H. exists a, (c :: m), s3.
    split; [reflexivity|]. split; [exact H|]. split; [discriminate|].
    apply Hany. constructor; assumption.
  - apply one_reaches in H as (c & s2 & -> & Hc & H).
    apply lazy_star_reaches_all in H as (m & prev2 & s3 & -> & Hm & H).
    apply Hk in H. exists a, (c :: m), s3.
    split; [reflexivity|]. split; [exact H|]. split; [discriminate|].
    apply Hany. constructor; assumption.
Qed.

Lemma search_one_group (pre post : list node) (q : quant)
    (subject text : pystr) :
  forallb groupfree pre = true -> forallb groupfree post = true ->
  q = Plus \/ q = PlusLazy ->
  search (pre ++ [GroupOpen; Q Any q; GroupClose] ++ post) subject
  = Some text ->
  (exists before after, subject = before ++ text ++ after)
  /\ text <> [] /\ Forall (fun c => c <> NL) text.
Proof.
  intros Hpre Hpost Hq. unfold search.
  destruct (search_from _ None subject) as [g|] eqn:E; [|discriminate].
  intros [= <-].
  apply search_from_reaches in E as (a0 & prev' & s' & -> & Hrun).
  apply (run_one_group pre post q Hpre Hpost Hq) in Hrun
    as (a & m & b & -> & -> & Hne & Hall).
  rewrite group1_piece. split; [|split; assumption].
  exists (a0 ++ a), b. rewrite <- app_assoc. reflexivity.
Qed.

Lemma title_re_shape :
  title_re
  = ([Bol; Q Space Star] ++ lits "Title:"
     ++ [Q Space Star; Q (OneOf [QUOTE; LDQUO]) Opt])
    ++ [GroupOpen; Q Any PlusLazy; GroupClose]
    ++ [Q (OneOf [QUOTE; RDQUO]) Opt; Q Space Star; Eol].
Proof. reflexivity. Qed.

Lemma desc_re_shape :
  desc_re
  = ([Bol; Q Space Star] ++ lits "Description:" ++ [Q Space Star])
    ++ [GroupOpen; Q Any Plus; GroupClose] ++ [Eol].
Proof. reflexivity. Qed.

Lemma style_re_shape :
  style_re
  = ([Bol; Q Space Star] ++ lits "Style:" ++ [Q Space Star])
    ++ [GroupOpen; Q Any Plus; GroupClose] ++ [Eol].
Proof. reflexivity. Qed.

(** What a pattern extracts is a clean piece of the response. *)
Lemma extracted_clean (re : list node) (response : pystr) :
  re = title_re \/ re = desc_re \/ re = style_re ->
  clean_piece response (extracted re response).
Proof.
  intros Hre. unfold extracted.
  destruct (search re response) as [text|] eqn:E.
  - assert (H : (exists before after, response = before ++ text ++ after)
                /\ text <> [] /\ Forall (fun c => c <> NL) text).
    { destruct Hre as [-> | [-> | ->]].
      - rewrite title_re_shape in E.
        apply search_one_group in E; auto.
      - rewrite desc_re_shape in E.
        apply search_one_group in E; auto.
      - rewrite style_re_shape in E.
        apply search_one_group in E; auto. }
    destruct H as ((before & after & ->) & _ & Hall).
    unfold strip.
    destruct (strip_with_split is_space text)
      as (pre & post & Heq & _ & _ & Hhd & Hlast).
    split; [|split; [|split; assumption]].
    + exists (before ++ pre), (post ++ after).
      rewrite Heq at 1. rewrite <- !app_assoc. reflexivity.
    + intros Hin. rewrite Heq in Hall.
      apply Forall_app in Hall as [_ Hall].
      apply Forall_app in Hall as [Hall _].
      rewrite Forall_forall in Hall.
      apply (Hall NL); [apply list_elem_of_In; exact Hin | reflexivity].
  - split; [exists [], response; reflexivity|].
    split; [intros []|]. split; intros c; discriminate.
Qed.

End ParseFacts.

Module ParseSpec.
Import Py PyFacts Re ParseMore PromptGen ParseFacts Examples.

(** X25.  The fields of a parsed record.  Whatever the response, each of
    the three fields of a record that [parse_ollama_output] returns is a
    piece of the response that lies within one line (it holds no line
    feed) and neither starts nor ends with white space, and the three are
    not all empty. *)
Theorem parsed_fields_are_single_lines (response : pystr) (p : prompt) :
  parse_ollama_output response = Some p ->
  clean_piece response (title p)
  /\ clean_piece response (description p)
  /\ clean_piece response (style p)
  /\ ~ (title p = [] /\ description p = [] /\ style p = []).
Proof.
  intros H.
  assert (Hp : p = {| title := extracted title_re response;
                      description := extracted desc_re response;
                      style := extracted style_re response |}
               /\ (is_empty (extracted title_re response)
                   && is_empty (extracted desc_re response)
                   && is_empty (extracted style_re response) = false)).
  { revert H. unfold parse_ollama_output, extracted.
    destruct (search title_re response) as [t|];
      destruct (search desc_re response) as [d|];
      destruct (search style_re response) as [s|]; try discriminate;
      (destruct (_ && _) eqn:E; [discriminate|]);
      intros [= <-]; split; reflexivity || exact E. }
  destruct Hp as [-> Hne]. cbn [title description style].
  split; [apply extracted_clean; auto|].
  split; [apply extracted_clean; auto|].
  split; [apply extracted_clean; auto|].
  intros (H1 & H2 & H3). rewrite H1, H2, H3 in Hne. discriminate.
Qed.

(** X25 on the example response. *)
Lemma parsed_fields_are_single_lines_witness :
  ~ In NL (py "Bar").
Proof.
  destruct (parsed_fields_are_single_lines sample_response
              {| title := py "Foo"; description := py "Bar";
                 style := py "Baz" |}) as (_ & (_ & H & _) & _).
  - vm_compute. reflexivity.
  - exact H.
Defined.

End ParseSpec.

(* --------------------------------------------------------------------- *)
(** ** [prompt_gen_v03.py]: the auto-save setting is always usable *)
(* --------------------------------------------------------------------- *)

Module PromptGenSettingsSpec.
Import Py PyFacts PyMore PyMoreFacts PromptGenSettings.

Section WithInterpreter.

Context `{interp : Interpreter}.

(** X26.  Whatever text the auto-save field holds, reading it does not
    fail and gives a number that is not negative.  A text from which [int]
    reads the integer [n] gives [n], or 0 when [n] is negative (no
    periodic save); this is so for [str(n)] of every [n] below [10 ^ 4300]
    in absolute value.  A text that [int] rejects gives 50: the empty text
    for one, and every text of more than 4300 digits. *)
Theorem auto_save_setting_is_always_usable (auto_save_every_str : pystr) :
  (exists k, auto_save_every_setting auto_save_every_str = Ok k /\ 0 <= k)
  /\ (forall n, int_of_str auto_save_every_str = Ok n ->
        auto_save_every_setting auto_save_every_str = Ok (Z.max 0 n))
  /\ (forall n, auto_save_every_str = py_str n ->
        Z.abs n < 10 ^ INT_MAX_STR_DIGITS ->
        auto_save_every_setting auto_save_every_str = Ok (Z.max 0 n))
  /\ (forall e, int_of_str auto_save_every_str = Raise e ->
        auto_save_every_setting auto_save_every_str = Ok 50)
  /\ auto_save_every_setting [] = Ok 50
  /\ (INT_MAX_STR_DIGITS < count_digits (to_ascii auto_save_every_str) ->
      auto_save_every_setting auto_save_every_str = Ok 50).
Proof.
  assert (Hok : forall n, int_of_str auto_save_every_str = Ok n ->
            auto_save_every_setting auto_save_every_str = Ok (Z.max 0 n)).
  { intros n E. unfold auto_save_every_setting. rewrite E.
    destruct (Z.ltb_spec n 0); f_equal; lia. }
  assert (Hraise : forall e, int_of_str auto_save_every_str = Raise e ->
            auto_save_every_setting auto_save_every_str = Ok 50).
  { intros e E. unfold auto_save_every_setting. rewrite E.
    rewrite (int_of_str_raises _ _ E). reflexivity. }
  split; [|split; [|split; [|split; [|split]]]].
  - destruct (int_of_str auto_save_every_str) as [n|e] eqn:E.
    + exists (Z.max 0 n). split; [apply Hok; reflexivity|lia].
    + exists 50. split; [apply (Hraise e); reflexivity|lia].
  - exact Hok.
  - intros n -> Hn. apply Hok. apply int_of_str_py_str. exact Hn.
  - exact Hraise.
  - reflexivity.
  - intros Hlong. apply (Hraise ValueError).
    apply int_of_str_beyond. exact Hlong.
Qed.

End WithInterpreter.

#[local] Existing Instance Examples.sample_interpreter.

(** X26 on the field holding [-3]: no periodic save. *)
Lemma auto_save_setting_is_always_usable_witness :
  auto_save_every_setting (py "-3") = Ok (Z.max 0 (-3)).
Proof.
  apply (proj1 (proj2 (auto_save_setting_is_always_usable (py "-3")))).
  vm_compute. reflexivity.
Defined.

End PromptGenSettingsSpec.
